(** * Zoom-ratio mapper: a shallow embedding of
      [common/hal/utils/zoom_ratio_mapper.cc]

    The mapper rescales region metadata (crop region, 3A regions, face
    rectangles and landmarks) between the zoomed coordinate space of the
    application and the active-array space of the sensor.

    Numbers are modelled as the code has them:
    - [float] is IEEE-754 binary32, given by the Standard Library's
      executable specification [SpecFloat] at precision 24 and maximal
      exponent 128; every operation is rounded separately (no fused
      multiply-add contraction);
    - [int32_t] is [Z] with two's complement wrap-around written out;
    - the metadata container is a finite map from tags to typed arrays. *)

From Stdlib Require Import ZArith Lia Bool List Reals Lra Psatz.
From Stdlib Require Import Floats.SpecFloat.
From stdpp Require Import base option list gmap.

Open Scope Z_scope.

(** ** binary32 arithmetic *)

Definition float : Type := spec_float.

Module F32.

Definition prec : Z := 24.
Definition emax : Z := 128.

Definition add : float -> float -> float := SFadd prec emax.
Definition sub : float -> float -> float := SFsub prec emax.
Definition mul : float -> float -> float := SFmul prec emax.
Definition div : float -> float -> float := SFdiv prec emax.

Definition ltb : float -> float -> bool := SFltb.
Definition leb : float -> float -> bool := SFleb.
Definition eqb : float -> float -> bool := SFeqb.

(** Integer to float conversion, rounding to nearest even: exact up to 2^24. *)
Definition of_int (z : Z) : float := binary_normalize prec emax z 0 false.

(** The literals [1.0f] and [0.5f]. *)
Definition one : float := S754_finite false 8388608 (-23).
Definition half : float := S754_finite false 8388608 (-24).

(** [std::round(float)]: nearest integral value, halfway cases away from zero.
    A float whose exponent is non-negative is integral already. *)
Definition round (x : float) : float :=
  match x with
  | S754_finite s m e =>
      if 0 <=? e then x
      else
        let d := 2 ^ (- e) in
        let q := Zpos m / d in
        let r := Zpos m mod d in
        let n := if d <=? 2 * r then q + 1 else q in
        binary_normalize prec emax (cond_Zopp s n) 0 s
  | _ => x
  end.

(** The integral part of a finite float (truncation toward zero). *)
Definition trunc (x : float) : option Z :=
  match x with
  | S754_zero _ => Some 0
  | S754_finite s m e =>
      Some (cond_Zopp s (if 0 <=? e then Zpos m * 2 ^ e else Zpos m / 2 ^ (- e)))
  | _ => None
  end.

Definition clamp (lo hi z : Z) : Z :=
  if z <? lo then lo else if hi <? z then hi else z.

(** Float to integer conversion into the range [lo, hi].  C++ truncates toward
    zero and leaves the conversion of a value outside the target range (or of
    a NaN) undefined; there the model takes what the AArch64 conversion
    instructions deliver: saturation, and 0 for a NaN. *)
Definition to_range (lo hi : Z) (x : float) : Z :=
  match trunc x with
  | Some z => clamp lo hi z
  | None =>
      match x with
      | S754_infinity false => hi
      | S754_infinity true => lo
      | _ => clamp lo hi 0
      end
  end.

Definition to_int32 : float -> Z := to_range (- 2 ^ 31) (2 ^ 31 - 1).
Definition to_uint32 : float -> Z := to_range 0 (2 ^ 32 - 1).

(** A float of the format: a finite one has a canonical mantissa and an
    exponent in range. *)
Definition valid : float -> bool := valid_binary prec emax.

(** The conversion of [x] to [int32_t] is defined in C++. *)
Definition int32_representable (x : float) : bool :=
  match trunc x with
  | Some z => (- 2 ^ 31 <=? z) && (z <=? 2 ^ 31 - 1)
  | None => false
  end.

End F32.

(** ** Machine integers *)

(** [int32_t] arithmetic wraps around (two's complement). *)
Definition int32 (z : Z) : Z := (z + 2 ^ 31) mod 2 ^ 32 - 2 ^ 31.

(** [static_cast<uint32_t>]. *)
Definition uint32 (z : Z) : Z := z mod 2 ^ 32.

(** ** Data model *)

(** Modelled from the spec: the structures of [hal_types.h] are declared
    outside this file.  "Dimension: {width: int32, height: int32}",
    "ZoomRatioRange: {min: float32, max: float32}", "Rect: {left, top, right,
    bottom: int32}, inclusive bounds", "WeightedRegion: Rect + {weight:
    int32}", "Point: {x, y: uint32}". *)
Module Dimension.
Record t : Type := mk { width : Z; height : Z }.
End Dimension.
Definition Dimension : Type := Dimension.t.

Module ZoomRatioRange.
Record t : Type := mk { min : float; max : float }.
End ZoomRatioRange.
Definition ZoomRatioRange : Type := ZoomRatioRange.t.

Module Rect.
Record t : Type := mk { left : Z; top : Z; right : Z; bottom : Z }.
End Rect.
Definition Rect : Type := Rect.t.

Module WeightedRect.
Record t : Type :=
  mk { left : Z; top : Z; right : Z; bottom : Z; weight : Z }.
End WeightedRect.
Definition WeightedRect : Type := WeightedRect.t.

Module Point.
Record t : Type := mk { x : Z; y : Z }.
End Point.
Definition Point : Type := Point.t.

(** The four values [left], [top], [width], [height] that the conversion
    functions update through their pointer arguments. *)
Module Region.
Record t : Type := mk { left : Z; top : Z; width : Z; height : Z }.
End Region.
Definition Region : Type := Region.t.

(** ** The metadata container *)

(** The tags this file reads and writes; every other tag of the container is
    an [OTHER_TAG]. *)
Inductive Tag : Type :=
| ANDROID_CONTROL_ZOOM_RATIO
| ANDROID_SCALER_CROP_REGION
| ANDROID_CONTROL_AE_REGIONS
| ANDROID_CONTROL_AF_REGIONS
| ANDROID_CONTROL_AWB_REGIONS
| ANDROID_STATISTICS_FACE_DETECT_MODE
| ANDROID_STATISTICS_FACE_RECTANGLES
| ANDROID_STATISTICS_FACE_LANDMARKS
| OTHER_TAG (id : N).

#[global] Instance Tag_eq_dec : EqDecision Tag.
Proof. solve_decision. Defined.

Definition Tag_encode (t : Tag) : N :=
  match t with
  | ANDROID_CONTROL_ZOOM_RATIO => 0
  | ANDROID_SCALER_CROP_REGION => 1
  | ANDROID_CONTROL_AE_REGIONS => 2
  | ANDROID_CONTROL_AF_REGIONS => 3
  | ANDROID_CONTROL_AWB_REGIONS => 4
  | ANDROID_STATISTICS_FACE_DETECT_MODE => 5
  | ANDROID_STATISTICS_FACE_RECTANGLES => 6
  | ANDROID_STATISTICS_FACE_LANDMARKS => 7
  | OTHER_TAG id => 8 + id
  end%N.

Definition Tag_decode (n : N) : Tag :=
  match n with
  | 0 => ANDROID_CONTROL_ZOOM_RATIO
  | 1 => ANDROID_SCALER_CROP_REGION
  | 2 => ANDROID_CONTROL_AE_REGIONS
  | 3 => ANDROID_CONTROL_AF_REGIONS
  | 4 => ANDROID_CONTROL_AWB_REGIONS
  | 5 => ANDROID_STATISTICS_FACE_DETECT_MODE
  | 6 => ANDROID_STATISTICS_FACE_RECTANGLES
  | 7 => ANDROID_STATISTICS_FACE_LANDMARKS
  | _ => OTHER_TAG (n - 8)
  end%N.

#[global] Instance Tag_countable : Countable Tag.
Proof.
  refine (inj_countable' Tag_encode Tag_decode _).
  intros t; destruct t; try reflexivity.
  unfold Tag_encode, Tag_decode.
  replace (8 + id - 8)%N with id by lia.
  destruct (8 + id)%N as [|p] eqn:E; [lia|].
  do 3 (destruct p as [p|p|]; try lia); reflexivity.
Defined.

(** [camera_metadata_ro_entry]: a counted array whose element type is fixed
    by the tag. *)
Inductive camera_metadata_ro_entry : Type :=
| entry_u8 (data : list Z)
| entry_i32 (data : list Z)
| entry_f (data : list float).

Definition count (entry : camera_metadata_ro_entry) : nat :=
  match entry with
  | entry_u8 data => length data
  | entry_i32 data => length data
  | entry_f data => length data
  end.

(** [entry.data.i32[i]], [entry.data.f[i]] and [entry.data.u8[i]].  Reading
    past the end of the array, or through the wrong member of the union, is
    undefined in C++; the model reads 0 there. *)
Definition data_i32 (entry : camera_metadata_ro_entry) (i : nat) : Z :=
  match entry with
  | entry_i32 data => nth i data 0
  | _ => 0
  end.

Definition data_f (entry : camera_metadata_ro_entry) (i : nat) : float :=
  match entry with
  | entry_f data => nth i data (S754_zero false)
  | _ => S754_zero false
  end.

Definition data_u8 (entry : camera_metadata_ro_entry) (i : nat) : Z :=
  match entry with
  | entry_u8 data => nth i data 0
  | _ => 0
  end.

Abbreviation HalCameraMetadata := (gmap Tag camera_metadata_ro_entry).

(** Modelled from the spec: the container class [HalCameraMetadata] is an
    external collaborator, "a key-value store keyed by numeric tags, holding
    variable-length arrays of fixed-width elements".  [Get] answers with the
    entry of a tag, [None] standing for every status other than [OK]. *)
Definition Get (metadata : HalCameraMetadata) (tag : Tag)
  : option camera_metadata_ro_entry :=
  metadata !! tag.

(** Modelled from the spec: [Set] stores the array under the tag, replacing
    what was there.  The callers only log its status. *)
Definition Set_ (metadata : HalCameraMetadata) (tag : Tag)
    (entry : camera_metadata_ro_entry) : HalCameraMetadata :=
  <[tag := entry]> metadata.

(** Modelled from the spec: the enumerators of the face-detection mode
    (declared with the tags, outside this file). *)
Definition ANDROID_STATISTICS_FACE_DETECT_MODE_OFF : Z := 0.
Definition ANDROID_STATISTICS_FACE_DETECT_MODE_SIMPLE : Z := 1.
Definition ANDROID_STATISTICS_FACE_DETECT_MODE_FULL : Z := 2.

(** ** Helpers of [utils.h] *)

Module utils.

(** Modelled from the spec: [utils::CorrectRegionBoundary] is defined outside
    this file.  "Clamp left/top so left>=0, top>=0, and clamp width/height so
    left+width <= activeWidth and top+height <= activeHeight (shifting
    position first, then shrinking size only if still out of bounds)". *)
Definition CorrectRegionBoundary (left top width height : Z)
    (bound_w bound_h : Z) : Region :=
  let left := Z.max left 0 in
  let top := Z.max top 0 in
  let width := Z.min width (int32 (bound_w - left)) in
  let height := Z.min height (int32 (bound_h - top)) in
  Region.mk left top width height.

(** The offset of the zoom window inside the active array, along one axis:
    [0.5f * size * (1.0f - 1.0f / zoom_ratio)]. *)
Definition offset (zoom_ratio : float) (size : Z) : float :=
  F32.mul (F32.mul F32.half (F32.of_int size))
          (F32.sub F32.one (F32.div F32.one zoom_ratio)).

(** Modelled from the spec: [utils::RevertZoomRatio] on a region is defined
    outside this file.  "Exact algebraic inverse of ForwardTransform's
    per-axis formula":
    [left = round((left' - 0.5*activeWidth*(1-1/zoomRatio)) * zoomRatio)],
    symmetric for top, width and height; "no boundary correction is applied
    on the backward path". *)
Definition RevertZoomRatio (zoom_ratio : float) (left top width height : Z)
    (active_array_dimension : Dimension) : Region :=
  let left :=
    F32.to_int32 (F32.round (F32.mul
      (F32.sub (F32.of_int left)
               (offset zoom_ratio (Dimension.width active_array_dimension)))
      zoom_ratio)) in
  let top :=
    F32.to_int32 (F32.round (F32.mul
      (F32.sub (F32.of_int top)
               (offset zoom_ratio (Dimension.height active_array_dimension)))
      zoom_ratio)) in
  let width :=
    F32.to_int32 (F32.round (F32.mul (F32.of_int width) zoom_ratio)) in
  let height :=
    F32.to_int32 (F32.round (F32.mul (F32.of_int height) zoom_ratio)) in
  Region.mk left top width height.

(** Modelled from the spec: [utils::RevertZoomRatio] on a point is defined
    outside this file.  "Backward transform also used for single points
    (face landmarks), applying the same left/top formula per coordinate with
    width/height terms omitted".  The coordinates of a [Point] are
    [uint32_t]. *)
Definition RevertZoomRatioPoint (zoom_ratio : float) (p : Point)
    (active_array_dimension : Dimension) : Point :=
  {| Point.x :=
       F32.to_uint32 (F32.round (F32.mul
         (F32.sub (F32.of_int (Point.x p))
                  (offset zoom_ratio (Dimension.width active_array_dimension)))
         zoom_ratio));
     Point.y :=
       F32.to_uint32 (F32.round (F32.mul
         (F32.sub (F32.of_int (Point.y p))
                  (offset zoom_ratio (Dimension.height active_array_dimension)))
         zoom_ratio)) |}.

End utils.

(** ** [ZoomRatioMapper] *)

(** Modelled from the spec: the fields of the class, declared in
    [zoom_ratio_mapper.h]: "EngineState: {active_array_dimension,
    physical_active_array_dimensions: mapping from physical-camera-id to
    Dimension, zoom_ratio_range, enabled: bool}". *)
Record ZoomRatioMapper : Type := {
  active_array_dimension_ : Dimension;
  physical_cam_active_array_dimension_ : gmap N Dimension;
  zoom_ratio_range_ : ZoomRatioRange;
  is_zoom_ratio_supported_ : bool
}.

Record InitParams : Type := {
  active_array_dimension : Dimension;
  physical_cam_active_array_dimension : gmap N Dimension;
  zoom_ratio_range : ZoomRatioRange
}.

Definition Initialize (params : InitParams) : ZoomRatioMapper :=
  {| active_array_dimension_ := active_array_dimension params;
     physical_cam_active_array_dimension_ :=
       physical_cam_active_array_dimension params;
     zoom_ratio_range_ := zoom_ratio_range params;
     is_zoom_ratio_supported_ := true |}.

(** [ZoomRatioMapper::ConvertZoomRatio].  The four pointers are never null on
    the call paths of this file; [assert(zoom_ratio != 0)] is compiled out of
    a release build and has no effect here. *)
Definition ConvertZoomRatio (zoom_ratio : float) (left top width height : Z)
    (active_array_dimension : Dimension) : Region :=
  let left :=
    F32.to_int32 (F32.round (F32.add
      (F32.div (F32.of_int left) zoom_ratio)
      (F32.mul (F32.mul F32.half
                  (F32.of_int (Dimension.width active_array_dimension)))
               (F32.sub F32.one (F32.div F32.one zoom_ratio))))) in
  let top :=
    F32.to_int32 (F32.round (F32.add
      (F32.div (F32.of_int top) zoom_ratio)
      (F32.mul (F32.mul F32.half
                  (F32.of_int (Dimension.height active_array_dimension)))
               (F32.sub F32.one (F32.div F32.one zoom_ratio))))) in
  let width :=
    F32.to_int32 (F32.round (F32.div (F32.of_int width) zoom_ratio)) in
  let height :=
    F32.to_int32 (F32.round (F32.div (F32.of_int height) zoom_ratio)) in
  if F32.leb F32.one zoom_ratio then
    utils.CorrectRegionBoundary left top width height
      (Dimension.width active_array_dimension)
      (Dimension.height active_array_dimension)
  else Region.mk left top width height.

(** [ZoomRatioMapper::UpdateCropRegion].  The metadata object is updated in
    place in the source; here the updated object is returned. *)
Definition UpdateCropRegion (metadata : HalCameraMetadata) (zoom_ratio : float)
    (active_array_dimension : Dimension) (is_request : bool)
  : HalCameraMetadata :=
  match Get metadata ANDROID_SCALER_CROP_REGION with
  | None => metadata
  | Some entry =>
      if (count entry =? 0)%nat then metadata
      else
        let left := data_i32 entry 0 in
        let top := data_i32 entry 1 in
        let width := data_i32 entry 2 in
        let height := data_i32 entry 3 in
        let r :=
          if is_request then
            ConvertZoomRatio zoom_ratio left top width height
              active_array_dimension
          else
            utils.RevertZoomRatio zoom_ratio left top width height
              active_array_dimension in
        let rect :=
          [Region.left r; Region.top r; Region.width r; Region.height r] in
        Set_ metadata ANDROID_SCALER_CROP_REGION (entry_i32 rect)
  end.

(** [regions[i]] of an entry reinterpreted as an array of [WeightedRect]. *)
Definition weighted_rect_at (entry : camera_metadata_ro_entry) (i : nat)
  : WeightedRect :=
  {| WeightedRect.left := data_i32 entry (5 * i);
     WeightedRect.top := data_i32 entry (5 * i + 1);
     WeightedRect.right := data_i32 entry (5 * i + 2);
     WeightedRect.bottom := data_i32 entry (5 * i + 3);
     WeightedRect.weight := data_i32 entry (5 * i + 4) |}.

Definition weighted_rect_data (r : WeightedRect) : list Z :=
  [WeightedRect.left r; WeightedRect.top r; WeightedRect.right r;
   WeightedRect.bottom r; WeightedRect.weight r].

(** The body of the loop of [Update3ARegion]. *)
Definition update_3a_region (zoom_ratio : float)
    (active_array_dimension : Dimension) (is_request : bool)
    (region : WeightedRect) : WeightedRect :=
  let left := WeightedRect.left region in
  let top := WeightedRect.top region in
  let width :=
    int32 (int32 (WeightedRect.right region - WeightedRect.left region) + 1) in
  let height :=
    int32 (int32 (WeightedRect.bottom region - WeightedRect.top region) + 1) in
  let r :=
    if is_request then
      ConvertZoomRatio zoom_ratio left top width height active_array_dimension
    else
      utils.RevertZoomRatio zoom_ratio left top width height
        active_array_dimension in
  {| WeightedRect.left := Region.left r;
     WeightedRect.top := Region.top r;
     WeightedRect.right :=
       int32 (int32 (Region.left r + Region.width r) - 1);
     WeightedRect.bottom :=
       int32 (int32 (Region.top r + Region.height r) - 1);
     WeightedRect.weight := WeightedRect.weight region |}.

(** [ZoomRatioMapper::Update3ARegion]. *)
Definition Update3ARegion (metadata : HalCameraMetadata) (zoom_ratio : float)
    (tag_id : Tag) (active_array_dimension : Dimension) (is_request : bool)
  : HalCameraMetadata :=
  match Get metadata tag_id with
  | None => metadata
  | Some entry =>
      if (count entry =? 0)%nat then metadata
      else
        let kNumElementsInTuple := 5%nat in
        let updated_regions :=
          map (fun i =>
                 update_3a_region zoom_ratio active_array_dimension is_request
                   (weighted_rect_at entry i))
              (seq 0 (count entry / kNumElementsInTuple)) in
        Set_ metadata tag_id
          (entry_i32 (concat (map weighted_rect_data updated_regions)))
  end.

(** [face_rect[i]] of an entry reinterpreted as an array of [Rect]. *)
Definition rect_at (entry : camera_metadata_ro_entry) (i : nat) : Rect :=
  {| Rect.left := data_i32 entry (4 * i);
     Rect.top := data_i32 entry (4 * i + 1);
     Rect.right := data_i32 entry (4 * i + 2);
     Rect.bottom := data_i32 entry (4 * i + 3) |}.

Definition rect_data (r : Rect) : list Z :=
  [Rect.left r; Rect.top r; Rect.right r; Rect.bottom r].

(** The body of the loop of [UpdateFaceRectangles]. *)
Definition update_face_rect (zoom_ratio : float)
    (active_array_dimension : Dimension) (face_rect : Rect) : Rect :=
  let left := Rect.left face_rect in
  let top := Rect.top face_rect in
  let width :=
    int32 (int32 (Rect.right face_rect - Rect.left face_rect) + 1) in
  let height :=
    int32 (int32 (Rect.bottom face_rect - Rect.top face_rect) + 1) in
  let r :=
    utils.RevertZoomRatio zoom_ratio left top width height
      active_array_dimension in
  {| Rect.left := Region.left r;
     Rect.top := Region.top r;
     Rect.right := int32 (int32 (Region.left r + Region.width r) - 1);
     Rect.bottom := int32 (int32 (Region.top r + Region.height r) - 1) |}.

(** [ZoomRatioMapper::UpdateFaceRectangles]. *)
Definition UpdateFaceRectangles (metadata : HalCameraMetadata)
    (zoom_ratio : float) (active_array_dimension : Dimension)
  : HalCameraMetadata :=
  match Get metadata ANDROID_STATISTICS_FACE_RECTANGLES with
  | None => metadata
  | Some entry =>
      if (count entry =? 0)%nat then metadata
      else
        let kNumElementsInTuple := 4%nat in
        let updated_face_rect :=
          map (fun i =>
                 update_face_rect zoom_ratio active_array_dimension
                   (rect_at entry i))
              (seq 0 (count entry / kNumElementsInTuple)) in
        Set_ metadata ANDROID_STATISTICS_FACE_RECTANGLES
          (entry_i32 (concat (map rect_data updated_face_rect)))
  end.

(** The three points of face [i]: six consecutive integers of the entry, each
    cast to [uint32_t]. *)
Definition landmark_points (entry : camera_metadata_ro_entry) (i : nat)
  : list Point :=
  map (fun k =>
         {| Point.x := uint32 (data_i32 entry (6 * i + 2 * k));
            Point.y := uint32 (data_i32 entry (6 * i + 2 * k + 1)) |})
      [0; 1; 2]%nat.

(** A [Point] of the output vector, read back as two [int32_t]. *)
Definition point_data (p : Point) : list Z :=
  [int32 (Point.x p); int32 (Point.y p)].

(** [ZoomRatioMapper::UpdateFaceLandmarks].  [num_visible_faces] advances with
    the loop counter, so face [i] is written at index [3 * i] and all
    [num_faces] faces are stored. *)
Definition UpdateFaceLandmarks (metadata : HalCameraMetadata)
    (zoom_ratio : float) (active_array_dimension : Dimension)
  : HalCameraMetadata :=
  match Get metadata ANDROID_STATISTICS_FACE_LANDMARKS with
  | None => metadata
  | Some entry =>
      if (count entry =? 0)%nat then metadata
      else
        let num_faces := (count entry / 6)%nat in
        let landmarks :=
          concat
            (map (fun i =>
                    map (fun p =>
                           utils.RevertZoomRatioPoint zoom_ratio p
                             active_array_dimension)
                        (landmark_points entry i))
                 (seq 0 num_faces)) in
        Set_ metadata ANDROID_STATISTICS_FACE_LANDMARKS
          (entry_i32 (concat (map point_data landmarks)))
  end.

(** The zoom ratio of a bundle after the range check of [ApplyZoomRatio]. *)
Definition clamp_zoom_ratio (range : ZoomRatioRange) (zoom_ratio : float)
  : float :=
  if F32.ltb zoom_ratio (ZoomRatioRange.min range) then
    ZoomRatioRange.min range
  else if F32.ltb (ZoomRatioRange.max range) zoom_ratio then
    ZoomRatioRange.max range
  else zoom_ratio.

(** The face part of [ApplyZoomRatio] (result path only). *)
Definition apply_face_regions (metadata : HalCameraMetadata)
    (zoom_ratio : float) (active_array_dimension : Dimension)
  : HalCameraMetadata :=
  match Get metadata ANDROID_STATISTICS_FACE_DETECT_MODE with
  | None => metadata
  | Some entry =>
      let face_detection_mode := data_u8 entry 0 in
      if face_detection_mode =? ANDROID_STATISTICS_FACE_DETECT_MODE_FULL then
        UpdateFaceRectangles
          (UpdateFaceLandmarks metadata zoom_ratio active_array_dimension)
          zoom_ratio active_array_dimension
      else if face_detection_mode =? ANDROID_STATISTICS_FACE_DETECT_MODE_SIMPLE
      then UpdateFaceRectangles metadata zoom_ratio active_array_dimension
      else metadata
  end.

(** The region part of [ApplyZoomRatio]: the crop region, then the three 3A
    region tags. *)
Definition update_regions (metadata : HalCameraMetadata) (zoom_ratio : float)
    (active_array_dimension : Dimension) (is_request : bool)
  : HalCameraMetadata :=
  let metadata :=
    UpdateCropRegion metadata zoom_ratio active_array_dimension is_request in
  let metadata :=
    Update3ARegion metadata zoom_ratio ANDROID_CONTROL_AE_REGIONS
      active_array_dimension is_request in
  let metadata :=
    Update3ARegion metadata zoom_ratio ANDROID_CONTROL_AF_REGIONS
      active_array_dimension is_request in
  Update3ARegion metadata zoom_ratio ANDROID_CONTROL_AWB_REGIONS
    active_array_dimension is_request.

(** [ZoomRatioMapper::ApplyZoomRatio] on a metadata object that is not null. *)
Definition apply_zoom_ratio (this : ZoomRatioMapper)
    (metadata : HalCameraMetadata) (active_array_dimension : Dimension)
    (is_request : bool) : HalCameraMetadata :=
  match Get metadata ANDROID_CONTROL_ZOOM_RATIO with
  | None => metadata
  | Some entry =>
      let zoom_ratio := data_f entry 0 in
      let zoom_ratio := clamp_zoom_ratio (zoom_ratio_range_ this) zoom_ratio in
      let metadata :=
        update_regions metadata zoom_ratio active_array_dimension is_request in
      if is_request then metadata
      else apply_face_regions metadata zoom_ratio active_array_dimension
  end.

(** [ZoomRatioMapper::ApplyZoomRatio]; a pointer is an [option], [None] being
    [nullptr]. *)
Definition ApplyZoomRatio (this : ZoomRatioMapper)
    (metadata : option HalCameraMetadata) (active_array_dimension : Dimension)
    (is_request : bool) : option HalCameraMetadata :=
  match metadata with
  | None => None
  | Some metadata =>
      Some (apply_zoom_ratio this metadata active_array_dimension is_request)
  end.

(** The step of the loop over the physical cameras, shared by
    [UpdateCaptureRequest] and [UpdateCaptureResult]. *)
Definition update_physical (this : ZoomRatioMapper) (is_request : bool)
    (camera_id : N) (metadata : option HalCameraMetadata)
  : option HalCameraMetadata :=
  match metadata with
  | None => None
  | Some _ =>
      match physical_cam_active_array_dimension_ this !! camera_id with
      | None => metadata
      | Some physical_active_array_dimension =>
          ApplyZoomRatio this metadata physical_active_array_dimension
            is_request
      end
  end.

(** The fields of [CaptureRequest] and [CaptureResult] that the mapper
    touches; a [unique_ptr] is an [option]. *)
Record CaptureRequest : Type := {
  settings : option HalCameraMetadata;
  physical_camera_settings : gmap N (option HalCameraMetadata)
}.

Record CaptureResult : Type := {
  result_metadata : option HalCameraMetadata;
  physical_metadata : gmap N (option HalCameraMetadata)
}.

(** [ZoomRatioMapper::UpdateCaptureRequest]. *)
Definition UpdateCaptureRequest (this : ZoomRatioMapper)
    (request : option CaptureRequest) : option CaptureRequest :=
  match request with
  | None => None
  | Some req =>
      if negb (is_zoom_ratio_supported_ this) then request
      else
        Some
          {| settings :=
               match settings req with
               | None => None
               | Some _ =>
                   ApplyZoomRatio this (settings req)
                     (active_array_dimension_ this) true
               end;
             physical_camera_settings :=
               map_imap (fun camera_id metadata =>
                           Some (update_physical this true camera_id metadata))
                        (physical_camera_settings req) |}
  end.

(** [ZoomRatioMapper::UpdateCaptureResult]. *)
Definition UpdateCaptureResult (this : ZoomRatioMapper)
    (result : option CaptureResult) : option CaptureResult :=
  match result with
  | None => None
  | Some res =>
      if negb (is_zoom_ratio_supported_ this) then result
      else
        Some
          {| result_metadata :=
               match result_metadata res with
               | None => None
               | Some _ =>
                   ApplyZoomRatio this (result_metadata res)
                     (active_array_dimension_ this) false
               end;
             physical_metadata :=
               map_imap (fun camera_id metadata =>
                           Some (update_physical this false camera_id metadata))
                        (physical_metadata res) |}
  end.

(** ** What each update writes under its own tag *)

(** The entry an update leaves under its own tag depends on the entry that
    was there and on nothing else. *)
Definition crop_region_entry (zoom_ratio : float) (dim : Dimension)
    (is_request : bool) (o : option camera_metadata_ro_entry)
  : option camera_metadata_ro_entry :=
  match o with
  | None => None
  | Some entry =>
      if (count entry =? 0)%nat then Some entry
      else
        let r :=
          if is_request then
            ConvertZoomRatio zoom_ratio (data_i32 entry 0) (data_i32 entry 1)
              (data_i32 entry 2) (data_i32 entry 3) dim
          else
            utils.RevertZoomRatio zoom_ratio (data_i32 entry 0)
              (data_i32 entry 1) (data_i32 entry 2) (data_i32 entry 3) dim in
        Some (entry_i32
                [Region.left r; Region.top r; Region.width r; Region.height r])
  end.

Definition region_3a_entry (zoom_ratio : float) (dim : Dimension)
    (is_request : bool) (o : option camera_metadata_ro_entry)
  : option camera_metadata_ro_entry :=
  match o with
  | None => None
  | Some entry =>
      if (count entry =? 0)%nat then Some entry
      else
        Some (entry_i32 (concat (map weighted_rect_data
          (map (fun i => update_3a_region zoom_ratio dim is_request
                           (weighted_rect_at entry i))
               (seq 0 (count entry / 5))))))
  end.

(** ** The forward formula of the specification *)

(** The per-axis formula of the specification,
    [round(v/zoomRatio + 0.5*activeSize*(1 - 1/zoomRatio))] for a position and
    [round(v/zoomRatio)] for a size, evaluated in binary32 like the code. *)
Definition forward_position (zoom_ratio : float) (v active_size : Z) : Z :=
  F32.to_int32 (F32.round (F32.add
    (F32.div (F32.of_int v) zoom_ratio)
    (F32.mul (F32.mul F32.half (F32.of_int active_size))
             (F32.sub F32.one (F32.div F32.one zoom_ratio))))).

Definition forward_size (zoom_ratio : float) (v : Z) : Z :=
  F32.to_int32 (F32.round (F32.div (F32.of_int v) zoom_ratio)).

Definition ForwardFormula (zoom_ratio : float) (left top width height : Z)
    (active_array_dimension : Dimension) : Region :=
  Region.mk
    (forward_position zoom_ratio left
       (Dimension.width active_array_dimension))
    (forward_position zoom_ratio top
       (Dimension.height active_array_dimension))
    (forward_size zoom_ratio width)
    (forward_size zoom_ratio height).

(** A region that lies inside the active array. *)
Definition inside_active_array (left top width height : Z)
    (active_array_dimension : Dimension) : Prop :=
  0 <= left /\ 0 <= top /\ 0 <= width /\ 0 <= height
  /\ left + width <= Dimension.width active_array_dimension
  /\ top + height <= Dimension.height active_array_dimension.

(** A mantissa of exactly 24 bits. *)
Definition normal_mantissa (m : positive) : Prop :=
  8388608 <= Zpos m < 16777216.

(** ** The real value of a binary32 number *)

Definition bpow (e : Z) : R := powerRZ 2 e.

Definition F2R_sign (s : bool) (v : R) : R := if s then (- v)%R else v.

(** The value of a finite float; the zeros, and by convention the infinities
    and the NaN, have value 0. *)
Definition F2R (x : float) : R :=
  match x with
  | S754_finite s m e =>
      ((if s then - IZR (Zpos m) else IZR (Zpos m)) * bpow e)%R
  | _ => 0%R
  end.

(** The real number that a shift record stands for, in units of its last
    place: the mantissa, and the position of the discarded bits as told by
    the round bit and the sticky bit. *)
Definition inbetween (r : shr_record) (x : R) : Prop :=
  match shr_r r, shr_s r with
  | false, false => x = IZR (shr_m r)
  | false, true => (IZR (shr_m r) < x < IZR (shr_m r) + / 2)%R
  | true, false => x = (IZR (shr_m r) + / 2)%R
  | true, true => (IZR (shr_m r) + / 2 < x < IZR (shr_m r) + 1)%R
  end.

(** A zero, or a normal float whose exponent lies in [lo, hi]. *)
Definition good (lo hi : Z) (x : float) : Prop :=
  match x with
  | S754_zero _ => True
  | S754_finite _ m e => normal_mantissa m /\ lo <= e <= hi
  | _ => False
  end.

(** The unit roundoff of binary32, 2^-24. *)
Definition unit_roundoff : R := (/ 16777216)%R.

(** ** Bundles *)

(** The tags that [ApplyZoomRatio] can write: the crop region and the three
    3A region tags on both paths, the two face tags on the result path. *)
Definition written_tags (is_request : bool) : list Tag :=
  [ANDROID_SCALER_CROP_REGION; ANDROID_CONTROL_AE_REGIONS;
   ANDROID_CONTROL_AF_REGIONS; ANDROID_CONTROL_AWB_REGIONS]
  ++ (if is_request then []
      else [ANDROID_STATISTICS_FACE_RECTANGLES;
            ANDROID_STATISTICS_FACE_LANDMARKS]).

(** An entry that an update skips: it is absent, or it holds no value. *)
Definition nothing_to_update (metadata : HalCameraMetadata) (t : Tag) : Prop :=
  match Get metadata t with
  | None => True
  | Some entry => count entry = 0%nat
  end.

(** An [int32] array made of whole [k]-tuples whose values lie in
    [lo, hi). *)
Definition tuples_within (k : nat) (lo hi : Z)
    (o : option camera_metadata_ro_entry) : Prop :=
  match o with
  | None => True
  | Some (entry_i32 data) =>
      (exists n : nat, length data = (k * n)%nat)
      /\ Forall (fun v => lo <= v < hi) data
  | Some _ => False
  end.

(** A result bundle whose region entries are whole tuples of moderate values:
    a crop region of at most four values, 3A regions, face rectangles, and
    face landmarks with non-negative coordinates. *)
Definition well_formed_result (metadata : HalCameraMetadata) : Prop :=
  tuples_within 4 (- 2 ^ 22) (2 ^ 22) (metadata !! ANDROID_SCALER_CROP_REGION)
  /\ (forall entry, metadata !! ANDROID_SCALER_CROP_REGION = Some entry ->
       (count entry <= 4)%nat)
  /\ tuples_within 5 (- 2 ^ 22) (2 ^ 22)
       (metadata !! ANDROID_CONTROL_AE_REGIONS)
  /\ tuples_within 5 (- 2 ^ 22) (2 ^ 22)
       (metadata !! ANDROID_CONTROL_AF_REGIONS)
  /\ tuples_within 5 (- 2 ^ 22) (2 ^ 22)
       (metadata !! ANDROID_CONTROL_AWB_REGIONS)
  /\ tuples_within 4 (- 2 ^ 22) (2 ^ 22)
       (metadata !! ANDROID_STATISTICS_FACE_RECTANGLES)
  /\ tuples_within 6 0 (2 ^ 22)
       (metadata !! ANDROID_STATISTICS_FACE_LANDMARKS).

(** 3A regions that are whole tuples and lie inside the active array (an
    empty region, with [right = left - 1], included). *)
Definition regions_inside (dim : Dimension)
    (o : option camera_metadata_ro_entry) : Prop :=
  match o with
  | None => True
  | Some (entry_i32 data) =>
      (exists n : nat, length data = (5 * n)%nat)
      /\ forall i : nat, (i < length data / 5)%nat ->
           let r := weighted_rect_at (entry_i32 data) i in
           0 <= WeightedRect.left r <= WeightedRect.right r + 1
           /\ WeightedRect.right r < Dimension.width dim
           /\ 0 <= WeightedRect.top r <= WeightedRect.bottom r + 1
           /\ WeightedRect.bottom r < Dimension.height dim
  | Some _ => False
  end.

(** A crop region of four values that lies inside the active array. *)
Definition crop_inside (dim : Dimension)
    (o : option camera_metadata_ro_entry) : Prop :=
  match o with
  | None | Some (entry_i32 []) => True
  | Some (entry_i32 [l; t; w; h]) => inside_active_array l t w h dim
  | Some _ => False
  end.

(** A request bundle whose crop region and 3A regions lie inside the active
    array. *)
Definition well_formed_request (dim : Dimension)
    (metadata : HalCameraMetadata) : Prop :=
  crop_inside dim (metadata !! ANDROID_SCALER_CROP_REGION)
  /\ regions_inside dim (metadata !! ANDROID_CONTROL_AE_REGIONS)
  /\ regions_inside dim (metadata !! ANDROID_CONTROL_AF_REGIONS)
  /\ regions_inside dim (metadata !! ANDROID_CONTROL_AWB_REGIONS).

(** A float that converts to a non-negative integer: neither a negative
    number nor minus infinity. *)
Definition not_negative (x : float) : Prop :=
  match x with
  | S754_finite true _ _ | S754_infinity true => False
  | _ => True
  end.

(** ** Sample inputs *)

(** The literals [2.0f], [2.5f], [4.0f] and [10.0f]. *)
Definition two : float := S754_finite false 8388608 (-22).
Definition two_and_half : float := S754_finite false 10485760 (-22).
Definition four : float := S754_finite false 8388608 (-21).
Definition ten : float := S754_finite false 10485760 (-20).

(** The literal [1.125f]. *)
Definition nine_eighths : float := S754_finite false 9437184 (-23).

Definition sample_dimension : Dimension := Dimension.mk 4000 3000.

Definition sample_mapper : ZoomRatioMapper :=
  Initialize
    {| active_array_dimension := sample_dimension;
       physical_cam_active_array_dimension :=
         {[ 0%N := Dimension.mk 4000 3000; 1%N := Dimension.mk 2000 1500 ]};
       zoom_ratio_range := ZoomRatioRange.mk F32.one ten |}.

(** A request bundle that asks for zoom ratio 0.5, below the range [1, 10],
    and carries a crop region and auto-exposure regions but no auto-focus
    regions. *)
Definition sample_request_metadata : HalCameraMetadata :=
  {[ ANDROID_CONTROL_ZOOM_RATIO := entry_f [F32.half];
     ANDROID_SCALER_CROP_REGION := entry_i32 [0; 0; 4000; 3000];
     ANDROID_CONTROL_AE_REGIONS := entry_i32 [100; 100; 199; 199; 1] ]}.

(** A result bundle at zoom ratio 2.0 with face-detection mode SIMPLE and two
    face rectangles, without landmarks. *)
Definition sample_result_metadata : HalCameraMetadata :=
  {[ ANDROID_CONTROL_ZOOM_RATIO := entry_f [two];
     ANDROID_SCALER_CROP_REGION := entry_i32 [1000; 750; 2000; 1500];
     ANDROID_STATISTICS_FACE_DETECT_MODE :=
       entry_u8 [ANDROID_STATISTICS_FACE_DETECT_MODE_SIMPLE];
     ANDROID_STATISTICS_FACE_RECTANGLES :=
       entry_i32 [1500; 1000; 1599; 1099; 2000; 1500; 2099; 1599] ]}.

(** A result bundle in mode FULL whose face tags are published with no
    value, and which carries no region. *)
Definition empty_faces_metadata : HalCameraMetadata :=
  {[ ANDROID_CONTROL_ZOOM_RATIO := entry_f [two];
     ANDROID_STATISTICS_FACE_DETECT_MODE :=
       entry_u8 [ANDROID_STATISTICS_FACE_DETECT_MODE_FULL];
     ANDROID_STATISTICS_FACE_RECTANGLES := entry_i32 [];
     ANDROID_STATISTICS_FACE_LANDMARKS := entry_i32 [] ]}.

(** A result bundle at zoom ratio 1.0 in mode FULL, with a crop region, one
    auto-exposure region, one face rectangle and its landmarks. *)
Definition unit_result_metadata : HalCameraMetadata :=
  {[ ANDROID_CONTROL_ZOOM_RATIO := entry_f [F32.one];
     ANDROID_SCALER_CROP_REGION := entry_i32 [0; 0; 4000; 3000];
     ANDROID_CONTROL_AE_REGIONS := entry_i32 [100; 100; 199; 199; 1];
     ANDROID_STATISTICS_FACE_DETECT_MODE :=
       entry_u8 [ANDROID_STATISTICS_FACE_DETECT_MODE_FULL];
     ANDROID_STATISTICS_FACE_RECTANGLES := entry_i32 [1500; 1000; 1599; 1099];
     ANDROID_STATISTICS_FACE_LANDMARKS :=
       entry_i32 [1520; 1030; 1580; 1030; 1550; 1080] ]}.

(** * Properties *)

(** ** Order of binary32 values *)

Section Compare.

Local Ltac cmp_cases :=
  repeat match goal with
  | |- context [Z.compare ?a ?b] =>
      destruct (Z.compare_spec a b); try discriminate; try lia
  | |- context [Pos.compare_cont Eq ?a ?b] =>
      change (Pos.compare_cont Eq a b) with (Pos.compare a b);
      destruct (Pos.compare_spec a b); try discriminate; try lia
  | H : context [Z.compare ?a ?b] |- _ =>
      destruct (Z.compare_spec a b); try discriminate; try lia
  | H : context [Pos.compare_cont Eq ?a ?b] |- _ =>
      change (Pos.compare_cont Eq a b) with (Pos.compare a b) in H;
      destruct (Pos.compare_spec a b); try discriminate; try lia
  end.

Lemma SFcompare_swap (x y : float) (c : comparison) :
  SFcompare x y = Some c -> SFcompare y x = Some (CompOpp c).
Proof.
  destruct x as [sx|sx| |sx mx ex], y as [sy|sy| |sy my ey];
    try destruct sx; try destruct sy; simpl; intros H;
    try discriminate; try (injection H as <-; reflexivity).
  all: injection H as <-; f_equal.
  all: rewrite (Z.compare_antisym ey ex);
    destruct (ey ?= ex); simpl; try reflexivity.
  all: change (Pos.compare_cont Eq mx my) with (Pos.compare mx my);
    change (Pos.compare_cont Eq my mx) with (Pos.compare my mx);
    rewrite (Pos.compare_antisym my mx); destruct (my ?= mx)%positive;
    reflexivity.
Qed.

Lemma leb_not_ltb (x y : float) : F32.leb x y = true -> F32.ltb y x = false.
Proof.
  unfold F32.leb, F32.ltb, SFleb, SFltb.
  destruct (SFcompare x y) as [c|] eqn:E; [|discriminate].
  rewrite (SFcompare_swap _ _ _ E). destruct c; simpl; congruence.
Qed.

Lemma leb_false_of_ltb (x y : float) :
  F32.ltb x y = true -> F32.leb y x = false.
Proof.
  unfold F32.leb, F32.ltb, SFleb, SFltb.
  destruct (SFcompare x y) as [c|] eqn:E; [|discriminate].
  rewrite (SFcompare_swap _ _ _ E). destruct c; simpl; congruence.
Qed.

Lemma ltb_leb_ltb_cycle (x y z : float) :
  F32.ltb x y = true -> F32.leb y z = true -> F32.ltb z x = true -> False.
Proof.
  unfold F32.leb, F32.ltb, SFleb, SFltb.
  destruct x as [sx|sx| |sx mx ex], y as [sy|sy| |sy my ey],
    z as [sz|sz| |sz mz ez];
    try destruct sx; try destruct sy; try destruct sz; simpl;
    try discriminate; intros H1 H2 H3; cmp_cases.
Qed.

End Compare.

(** ** Frame properties of the updates *)

Section Frame.

Context (zoom_ratio : float) (dim : Dimension).

Lemma UpdateCropRegion_other (metadata : HalCameraMetadata) (is_request : bool) (t : Tag) :
  t <> ANDROID_SCALER_CROP_REGION ->
  UpdateCropRegion metadata zoom_ratio dim is_request !! t = metadata !! t.
Proof.
  intros Hne. unfold UpdateCropRegion, Get, Set_.
  destruct (metadata !! ANDROID_SCALER_CROP_REGION) as [entry|]; [|done].
  destruct (count entry =? 0)%nat; [done|].
  by rewrite lookup_insert_ne.
Qed.

Lemma UpdateCropRegion_own (metadata : HalCameraMetadata) (is_request : bool) :
  UpdateCropRegion metadata zoom_ratio dim is_request
    !! ANDROID_SCALER_CROP_REGION
  = crop_region_entry zoom_ratio dim is_request
      (metadata !! ANDROID_SCALER_CROP_REGION).
Proof.
  unfold UpdateCropRegion, crop_region_entry, Get, Set_.
  destruct (metadata !! ANDROID_SCALER_CROP_REGION) as [entry|] eqn:E;
    [|done].
  destruct (count entry =? 0)%nat; [done|].
  by rewrite lookup_insert_eq.
Qed.

Lemma Update3ARegion_other (metadata : HalCameraMetadata) (tag_id : Tag) (is_request : bool) (t : Tag) :
  t <> tag_id ->
  Update3ARegion metadata zoom_ratio tag_id dim is_request !! t
  = metadata !! t.
Proof.
  intros Hne. unfold Update3ARegion, Get, Set_.
  destruct (metadata !! tag_id) as [entry|]; [|done].
  destruct (count entry =? 0)%nat; [done|].
  by rewrite lookup_insert_ne.
Qed.

Lemma Update3ARegion_own (metadata : HalCameraMetadata) (tag_id : Tag) (is_request : bool) :
  Update3ARegion metadata zoom_ratio tag_id dim is_request !! tag_id
  = region_3a_entry zoom_ratio dim is_request (metadata !! tag_id).
Proof.
  unfold Update3ARegion, region_3a_entry, Get, Set_.
  destruct (metadata !! tag_id) as [entry|] eqn:E; [|done].
  destruct (count entry =? 0)%nat; [done|].
  by rewrite lookup_insert_eq.
Qed.

Lemma Update3ARegion_absent (metadata : HalCameraMetadata) (tag_id : Tag) (is_request : bool) :
  metadata !! tag_id = None ->
  Update3ARegion metadata zoom_ratio tag_id dim is_request = metadata.
Proof. intros H. unfold Update3ARegion, Get. by rewrite H. Qed.

Lemma UpdateFaceRectangles_other (metadata : HalCameraMetadata) (t : Tag) :
  t <> ANDROID_STATISTICS_FACE_RECTANGLES ->
  UpdateFaceRectangles metadata zoom_ratio dim !! t = metadata !! t.
Proof.
  intros Hne. unfold UpdateFaceRectangles, Get, Set_.
  destruct (metadata !! ANDROID_STATISTICS_FACE_RECTANGLES) as [entry|];
    [|done].
  destruct (count entry =? 0)%nat; [done|].
  by rewrite lookup_insert_ne.
Qed.

Lemma UpdateFaceLandmarks_other (metadata : HalCameraMetadata) (t : Tag) :
  t <> ANDROID_STATISTICS_FACE_LANDMARKS ->
  UpdateFaceLandmarks metadata zoom_ratio dim !! t = metadata !! t.
Proof.
  intros Hne. unfold UpdateFaceLandmarks, Get, Set_.
  destruct (metadata !! ANDROID_STATISTICS_FACE_LANDMARKS) as [entry|];
    [|done].
  destruct (count entry =? 0)%nat; [done|].
  by rewrite lookup_insert_ne.
Qed.

(** The region updates leave every tag other than the four region tags as it
    was. *)
Lemma update_regions_other (metadata : HalCameraMetadata) (is_request : bool) (t : Tag) :
  t <> ANDROID_SCALER_CROP_REGION ->
  t <> ANDROID_CONTROL_AE_REGIONS ->
  t <> ANDROID_CONTROL_AF_REGIONS ->
  t <> ANDROID_CONTROL_AWB_REGIONS ->
  update_regions metadata zoom_ratio dim is_request !! t = metadata !! t.
Proof.
  intros H1 H2 H3 H4. unfold update_regions.
  rewrite !Update3ARegion_other by done.
  by apply UpdateCropRegion_other.
Qed.

(** The face updates leave every tag other than the two face tags as it
    was. *)
Lemma apply_face_regions_other (metadata : HalCameraMetadata) (t : Tag) :
  t <> ANDROID_STATISTICS_FACE_RECTANGLES ->
  t <> ANDROID_STATISTICS_FACE_LANDMARKS ->
  apply_face_regions metadata zoom_ratio dim !! t = metadata !! t.
Proof.
  intros H1 H2. unfold apply_face_regions, Get.
  destruct (metadata !! ANDROID_STATISTICS_FACE_DETECT_MODE) as [entry|];
    [|done].
  repeat case_match; try done.
  - rewrite UpdateFaceRectangles_other by done.
    by apply UpdateFaceLandmarks_other.
  - by rewrite UpdateFaceRectangles_other.
Qed.

End Frame.

(** ** The zoom ratio is clamped into the configured range *)

(** C5: for a bundle that carries the zoom ratio [z] and a range with
    [min <= max], the ratio [used] by all the transforms of the bundle is
    [min] when [z < min], [max] when [z > max], and [z] itself when
    [min <= z <= max] (the bounds included); the bundle is transformed with
    that ratio in every case, never rejected. *)
Theorem C5_zoom_ratio_clamped_into_range
    (this : ZoomRatioMapper) (metadata : HalCameraMetadata)
    (entry : camera_metadata_ro_entry) (dim : Dimension) (is_request : bool) :
  F32.leb (ZoomRatioRange.min (zoom_ratio_range_ this))
          (ZoomRatioRange.max (zoom_ratio_range_ this)) = true ->
  Get metadata ANDROID_CONTROL_ZOOM_RATIO = Some entry ->
  exists used : float,
    apply_zoom_ratio this metadata dim is_request
    = (if is_request then update_regions metadata used dim true
       else apply_face_regions (update_regions metadata used dim false)
              used dim)
    /\ (F32.ltb (data_f entry 0) (ZoomRatioRange.min (zoom_ratio_range_ this))
        = true ->
        used = ZoomRatioRange.min (zoom_ratio_range_ this))
    /\ (F32.ltb (ZoomRatioRange.max (zoom_ratio_range_ this)) (data_f entry 0)
        = true ->
        used = ZoomRatioRange.max (zoom_ratio_range_ this))
    /\ (F32.leb (ZoomRatioRange.min (zoom_ratio_range_ this)) (data_f entry 0)
        = true ->
        F32.leb (data_f entry 0) (ZoomRatioRange.max (zoom_ratio_range_ this))
        = true ->
        used = data_f entry 0).
Proof.
  intros Hrange Hget.
  exists (clamp_zoom_ratio (zoom_ratio_range_ this) (data_f entry 0)).
  split; [|split; [|split]].
  - unfold apply_zoom_ratio. rewrite Hget. by destruct is_request.
  - intros Hlt. unfold clamp_zoom_ratio. by rewrite Hlt.
  - intros Hgt. unfold clamp_zoom_ratio.
    destruct (F32.ltb (data_f entry 0) _) eqn:Hlt; [|by rewrite Hgt].
    exfalso. exact (ltb_leb_ltb_cycle _ _ _ Hlt Hrange Hgt).
  - intros Hlo Hhi. unfold clamp_zoom_ratio.
    by rewrite (leb_not_ltb _ _ Hlo), (leb_not_ltb _ _ Hhi).
Qed.

(** A requested ratio of 0.5 under the range [1, 10] is transformed with the
    ratio 1.0. *)
Lemma C5_zoom_ratio_clamped_witness :
  exists used : float,
    apply_zoom_ratio sample_mapper sample_request_metadata sample_dimension
      true
    = update_regions sample_request_metadata used sample_dimension true
    /\ used = F32.one.
Proof.
  destruct (C5_zoom_ratio_clamped_into_range sample_mapper
              sample_request_metadata (entry_f [F32.half]) sample_dimension
              true) as (used & Hrun & Hlow & _);
    [reflexivity | reflexivity |].
  exists used. split; [exact Hrun|]. apply Hlow. reflexivity.
Defined.

(** ** Face regions are gated by the face-detection mode *)

(** C6: on the result path, once the crop and 3A regions are reverted, mode
    FULL reverts the face landmarks and then the face rectangles, mode SIMPLE
    reverts the face rectangles only and leaves the landmarks as they were,
    and any other mode (or an unreadable mode) leaves both face fields as
    they were; on the request path no face field is modified. *)
Theorem C6_face_detection_mode_gates_face_updates
    (this : ZoomRatioMapper) (metadata : HalCameraMetadata) (dim : Dimension) :
  (forall entry : camera_metadata_ro_entry,
      Get metadata ANDROID_CONTROL_ZOOM_RATIO = Some entry ->
      let z := clamp_zoom_ratio (zoom_ratio_range_ this) (data_f entry 0) in
      let reverted := update_regions metadata z dim false in
      let result := apply_zoom_ratio this metadata dim false in
      (forall mode,
          Get metadata ANDROID_STATISTICS_FACE_DETECT_MODE = Some mode ->
          data_u8 mode 0 = ANDROID_STATISTICS_FACE_DETECT_MODE_FULL ->
          result
          = UpdateFaceRectangles (UpdateFaceLandmarks reverted z dim) z dim)
      /\ (forall mode,
          Get metadata ANDROID_STATISTICS_FACE_DETECT_MODE = Some mode ->
          data_u8 mode 0 = ANDROID_STATISTICS_FACE_DETECT_MODE_SIMPLE ->
          result = UpdateFaceRectangles reverted z dim
          /\ result !! ANDROID_STATISTICS_FACE_LANDMARKS
             = metadata !! ANDROID_STATISTICS_FACE_LANDMARKS)
      /\ ((Get metadata ANDROID_STATISTICS_FACE_DETECT_MODE = None
           \/ exists mode,
               Get metadata ANDROID_STATISTICS_FACE_DETECT_MODE = Some mode
               /\ data_u8 mode 0 <> ANDROID_STATISTICS_FACE_DETECT_MODE_FULL
               /\ data_u8 mode 0
                  <> ANDROID_STATISTICS_FACE_DETECT_MODE_SIMPLE) ->
          result = reverted
          /\ result !! ANDROID_STATISTICS_FACE_LANDMARKS
             = metadata !! ANDROID_STATISTICS_FACE_LANDMARKS
          /\ result !! ANDROID_STATISTICS_FACE_RECTANGLES
             = metadata !! ANDROID_STATISTICS_FACE_RECTANGLES))
  /\ apply_zoom_ratio this metadata dim true
       !! ANDROID_STATISTICS_FACE_LANDMARKS
     = metadata !! ANDROID_STATISTICS_FACE_LANDMARKS
  /\ apply_zoom_ratio this metadata dim true
       !! ANDROID_STATISTICS_FACE_RECTANGLES
     = metadata !! ANDROID_STATISTICS_FACE_RECTANGLES.
Proof.
  split.
  - intros entry Hget z reverted result.
    assert (Hres : result = apply_face_regions reverted z dim).
    { subst result. unfold apply_zoom_ratio. by rewrite Hget. }
    assert (Hmode : Get reverted ANDROID_STATISTICS_FACE_DETECT_MODE
                    = Get metadata ANDROID_STATISTICS_FACE_DETECT_MODE).
    { unfold Get. subst reverted. by apply update_regions_other. }
    assert (Hlm : reverted !! ANDROID_STATISTICS_FACE_LANDMARKS
                  = metadata !! ANDROID_STATISTICS_FACE_LANDMARKS).
    { subst reverted. by apply update_regions_other. }
    assert (Hfr : reverted !! ANDROID_STATISTICS_FACE_RECTANGLES
                  = metadata !! ANDROID_STATISTICS_FACE_RECTANGLES).
    { subst reverted. by apply update_regions_other. }
    rewrite Hres. unfold apply_face_regions. rewrite Hmode.
    split; [|split].
    + intros mode -> ->. reflexivity.
    + intros mode -> ->. simpl. split; [reflexivity|].
      by rewrite UpdateFaceRectangles_other.
    + intros [->|(mode & -> & Hfull & Hsimple)]; [done|].
      destruct (Z.eqb_spec (data_u8 mode 0)
                  ANDROID_STATISTICS_FACE_DETECT_MODE_FULL); [done|].
      destruct (Z.eqb_spec (data_u8 mode 0)
                  ANDROID_STATISTICS_FACE_DETECT_MODE_SIMPLE); done.
  - unfold apply_zoom_ratio.
    destruct (Get metadata ANDROID_CONTROL_ZOOM_RATIO); [|done].
    split; by apply update_regions_other.
Qed.

(** Mode SIMPLE with two face rectangles and no landmarks: the rectangles are
    reverted and the landmarks stay absent. *)
Lemma C6_face_detection_mode_witness :
  apply_zoom_ratio sample_mapper sample_result_metadata sample_dimension false
  = UpdateFaceRectangles
      (update_regions sample_result_metadata two sample_dimension false)
      two sample_dimension
  /\ apply_zoom_ratio sample_mapper sample_result_metadata sample_dimension
       false !! ANDROID_STATISTICS_FACE_LANDMARKS
     = None.
Proof.
  destruct (C6_face_detection_mode_gates_face_updates sample_mapper
              sample_result_metadata sample_dimension) as [Hresult _].
  destruct (Hresult (entry_f [two])) as (_ & Hsimple & _); [reflexivity|].
  apply (Hsimple (entry_u8 [ANDROID_STATISTICS_FACE_DETECT_MODE_SIMPLE]));
    reflexivity.
Defined.

(** ** Physical cameras *)

(** C7: an initialized mapper transforms the logical metadata with the logical
    active-array dimension and the metadata of each physical camera with the
    dimension configured for that camera id; the metadata of a camera id
    without a configured dimension stays as it is, and every other camera is
    still processed.  The same holds for results. *)
Theorem C7_physical_cameras_use_their_own_dimension
    (params : InitParams) (req : CaptureRequest) (res : CaptureResult) :
  let this := Initialize params in
  exists (req' : CaptureRequest) (res' : CaptureResult),
    UpdateCaptureRequest this (Some req) = Some req'
    /\ UpdateCaptureResult this (Some res) = Some res'
    /\ settings req'
       = ApplyZoomRatio this (settings req) (active_array_dimension params)
           true
    /\ result_metadata res'
       = ApplyZoomRatio this (result_metadata res)
           (active_array_dimension params) false
    /\ (forall camera_id : N,
          physical_camera_settings req' !! camera_id
          = match physical_camera_settings req !! camera_id with
            | None => None
            | Some None => Some None
            | Some (Some metadata) =>
                match physical_cam_active_array_dimension params !! camera_id
                with
                | Some physical_dim =>
                    Some (Some (apply_zoom_ratio this metadata physical_dim
                                  true))
                | None => Some (Some metadata)
                end
            end)
    /\ (forall camera_id : N,
          physical_metadata res' !! camera_id
          = match physical_metadata res !! camera_id with
            | None => None
            | Some None => Some None
            | Some (Some metadata) =>
                match physical_cam_active_array_dimension params !! camera_id
                with
                | Some physical_dim =>
                    Some (Some (apply_zoom_ratio this metadata physical_dim
                                  false))
                | None => Some (Some metadata)
                end
            end).
Proof.
  intros this. eexists _, _.
  split; [reflexivity|]. split; [reflexivity|]. simpl.
  split; [by destruct (settings req)|].
  split; [by destruct (result_metadata res)|].
  split; intros camera_id; rewrite map_lookup_imap.
  - destruct (physical_camera_settings req !! camera_id) as [[md|]|];
      simpl; try done.
    by destruct (physical_cam_active_array_dimension params !! camera_id).
  - destruct (physical_metadata res !! camera_id) as [[md|]|];
      simpl; try done.
    by destruct (physical_cam_active_array_dimension params !! camera_id).
Qed.

(** ** Early returns *)

(** C8: a null request or result, a mapper that was not initialized, a null
    metadata object and a bundle whose zoom-ratio tag cannot be read all
    leave every metadata field as it was. *)
Theorem C8_early_returns_modify_nothing
    (this : ZoomRatioMapper) (dim : Dimension) (is_request : bool) :
  UpdateCaptureRequest this None = None
  /\ UpdateCaptureResult this None = None
  /\ (is_zoom_ratio_supported_ this = false ->
      forall (req : CaptureRequest) (res : CaptureResult),
        UpdateCaptureRequest this (Some req) = Some req
        /\ UpdateCaptureResult this (Some res) = Some res)
  /\ ApplyZoomRatio this None dim is_request = None
  /\ (forall metadata : HalCameraMetadata,
        Get metadata ANDROID_CONTROL_ZOOM_RATIO = None ->
        ApplyZoomRatio this (Some metadata) dim is_request = Some metadata).
Proof.
  split; [reflexivity|]. split; [reflexivity|].
  split; [|split; [reflexivity|]].
  - intros Hoff req res. unfold UpdateCaptureRequest, UpdateCaptureResult.
    by rewrite Hoff.
  - intros metadata Hget. unfold ApplyZoomRatio, apply_zoom_ratio.
    by rewrite Hget.
Qed.

(** A bundle without the zoom-ratio tag comes back as it was. *)
Lemma C8_early_returns_witness :
  ApplyZoomRatio sample_mapper
    (Some {[ ANDROID_SCALER_CROP_REGION := entry_i32 [0; 0; 4000; 3000] ]})
    sample_dimension true
  = Some {[ ANDROID_SCALER_CROP_REGION := entry_i32 [0; 0; 4000; 3000] ]}.
Proof.
  destruct (C8_early_returns_modify_nothing sample_mapper sample_dimension
              true) as (_ & _ & _ & _ & Hskip).
  apply Hskip. reflexivity.
Defined.

(** ** Region fields are processed independently *)

Lemma apply_zoom_ratio_region_tag (this : ZoomRatioMapper)
    (metadata : HalCameraMetadata) (dim : Dimension) (is_request : bool)
    (entry : camera_metadata_ro_entry) (t : Tag) :
  Get metadata ANDROID_CONTROL_ZOOM_RATIO = Some entry ->
  t <> ANDROID_STATISTICS_FACE_RECTANGLES ->
  t <> ANDROID_STATISTICS_FACE_LANDMARKS ->
  apply_zoom_ratio this metadata dim is_request !! t
  = update_regions metadata
      (clamp_zoom_ratio (zoom_ratio_range_ this) (data_f entry 0)) dim
      is_request !! t.
Proof.
  intros Hget H1 H2. unfold apply_zoom_ratio. rewrite Hget.
  destruct is_request; [done|]. by apply apply_face_regions_other.
Qed.

(** C9: under a readable zoom ratio, the entry that a bundle ends with under
    each of the four region tags is the transform of the entry it had under
    that same tag, whatever the other region fields hold.  In particular,
    when the auto-focus regions are absent they stay absent, and the crop
    region and the other 3A regions are still transformed and written
    back. *)
Theorem C9_region_fields_are_independent
    (this : ZoomRatioMapper) (metadata : HalCameraMetadata) (dim : Dimension)
    (is_request : bool) (entry : camera_metadata_ro_entry) :
  Get metadata ANDROID_CONTROL_ZOOM_RATIO = Some entry ->
  let z := clamp_zoom_ratio (zoom_ratio_range_ this) (data_f entry 0) in
  let result := apply_zoom_ratio this metadata dim is_request in
  result !! ANDROID_SCALER_CROP_REGION
  = crop_region_entry z dim is_request
      (metadata !! ANDROID_SCALER_CROP_REGION)
  /\ result !! ANDROID_CONTROL_AE_REGIONS
     = region_3a_entry z dim is_request
         (metadata !! ANDROID_CONTROL_AE_REGIONS)
  /\ result !! ANDROID_CONTROL_AF_REGIONS
     = region_3a_entry z dim is_request
         (metadata !! ANDROID_CONTROL_AF_REGIONS)
  /\ result !! ANDROID_CONTROL_AWB_REGIONS
     = region_3a_entry z dim is_request
         (metadata !! ANDROID_CONTROL_AWB_REGIONS)
  /\ (Get metadata ANDROID_CONTROL_AF_REGIONS = None ->
      result !! ANDROID_CONTROL_AF_REGIONS = None
      /\ forall crop : camera_metadata_ro_entry,
           Get metadata ANDROID_SCALER_CROP_REGION = Some crop ->
           count crop <> 0%nat ->
           let r :=
             if is_request then
               ConvertZoomRatio z (data_i32 crop 0) (data_i32 crop 1)
                 (data_i32 crop 2) (data_i32 crop 3) dim
             else
               utils.RevertZoomRatio z (data_i32 crop 0) (data_i32 crop 1)
                 (data_i32 crop 2) (data_i32 crop 3) dim in
           result !! ANDROID_SCALER_CROP_REGION
           = Some (entry_i32 [Region.left r; Region.top r; Region.width r;
                              Region.height r])).
Proof.
  intros Hget z result.
  assert (Hcrop : result !! ANDROID_SCALER_CROP_REGION
                  = crop_region_entry z dim is_request
                      (metadata !! ANDROID_SCALER_CROP_REGION)).
  { subst result. rewrite (apply_zoom_ratio_region_tag _ _ _ _ entry) by done.
    unfold update_regions. rewrite !Update3ARegion_other by done.
    apply UpdateCropRegion_own. }
  assert (Haf : result !! ANDROID_CONTROL_AF_REGIONS
                = region_3a_entry z dim is_request
                    (metadata !! ANDROID_CONTROL_AF_REGIONS)).
  { subst result. rewrite (apply_zoom_ratio_region_tag _ _ _ _ entry) by done.
    unfold update_regions. rewrite Update3ARegion_other by done.
    rewrite Update3ARegion_own, Update3ARegion_other by done.
    by rewrite UpdateCropRegion_other. }
  split; [exact Hcrop|]. split; [|split; [exact Haf|split]].
  - subst result. rewrite (apply_zoom_ratio_region_tag _ _ _ _ entry) by done.
    unfold update_regions. rewrite !Update3ARegion_other by done.
    rewrite Update3ARegion_own. by rewrite UpdateCropRegion_other.
  - subst result. rewrite (apply_zoom_ratio_region_tag _ _ _ _ entry) by done.
    unfold update_regions. rewrite Update3ARegion_own.
    rewrite !Update3ARegion_other by done.
    by rewrite UpdateCropRegion_other.
  - intros Hnone. unfold Get in Hnone. split.
    + rewrite Haf, Hnone. reflexivity.
    + intros crop Hc Hcount r. unfold Get in Hc.
      rewrite Hcrop, Hc. unfold crop_region_entry.
      destruct (Nat.eqb_spec (count crop) 0); [done|]. reflexivity.
Qed.

(** Without auto-focus regions, the crop region of the sample request is
    still transformed (at the clamped ratio 1.0) and written back. *)
Lemma C9_region_fields_witness :
  apply_zoom_ratio sample_mapper sample_request_metadata sample_dimension true
    !! ANDROID_CONTROL_AF_REGIONS = None
  /\ apply_zoom_ratio sample_mapper sample_request_metadata sample_dimension
       true !! ANDROID_SCALER_CROP_REGION
     = Some (entry_i32 [0; 0; 4000; 3000]).
Proof.
  destruct (C9_region_fields_are_independent sample_mapper
              sample_request_metadata sample_dimension true
              (entry_f [F32.half])) as (_ & _ & _ & _ & Habsent);
    [reflexivity|].
  destruct Habsent as [Haf Hcrop]; [reflexivity|].
  split; [exact Haf|].
  rewrite (Hcrop (entry_i32 [0; 0; 4000; 3000])); [|reflexivity|discriminate].
  vm_compute. reflexivity.
Defined.

(** ** binary32 rounding *)

Section Digits.

Lemma digits2_pos_bounds (m : positive) :
  2 ^ (Zpos (digits2_pos m) - 1) <= Zpos m < 2 ^ Zpos (digits2_pos m).
Proof.
  induction m as [m IH|m IH|]; simpl digits2_pos.
  - rewrite Pos2Z.inj_succ, (Pos2Z.inj_xI m).
    replace (Z.succ (Zpos (digits2_pos m)) - 1)
      with (Z.succ (Zpos (digits2_pos m) - 1)) by lia.
    rewrite !Z.pow_succ_r by lia.
    generalize dependent (2 ^ (Zpos (digits2_pos m) - 1)).
    generalize dependent (2 ^ Zpos (digits2_pos m)). intros; lia.
  - rewrite Pos2Z.inj_succ, (Pos2Z.inj_xO m).
    replace (Z.succ (Zpos (digits2_pos m)) - 1)
      with (Z.succ (Zpos (digits2_pos m) - 1)) by lia.
    rewrite !Z.pow_succ_r by lia.
    generalize dependent (2 ^ (Zpos (digits2_pos m) - 1)).
    generalize dependent (2 ^ Zpos (digits2_pos m)). intros; lia.
  - simpl. lia.
Qed.

Lemma digits2_pos_unique (m : positive) (d : Z) :
  2 ^ (d - 1) <= Zpos m < 2 ^ d -> Zpos (digits2_pos m) = d.
Proof.
  intros [Hlo Hhi]. pose proof (digits2_pos_bounds m) as [Blo Bhi].
  assert (0 < d).
  { destruct (Z.ltb_spec 0 d); [done|].
    assert (2 ^ d <= 2 ^ 0) by (destruct (Z.eq_dec d 0) as [->|];
      [done | rewrite Z.pow_neg_r by lia; simpl; lia]).
    simpl in *. lia. }
  destruct (Z.lt_trichotomy (Zpos (digits2_pos m)) d) as [Hlt|[Heq|Hgt]];
    [exfalso | exact Heq | exfalso].
  - assert (2 ^ Zpos (digits2_pos m) <= 2 ^ (d - 1))
      by (apply Z.pow_le_mono_r; lia).
    lia.
  - assert (2 ^ d <= 2 ^ (Zpos (digits2_pos m) - 1))
      by (apply Z.pow_le_mono_r; lia).
    lia.
Qed.

End Digits.

Section Shift.

Lemma iter_pos_iter {A : Type} (f : A -> A) (p : positive) (x : A) :
  SpecFloat.iter_pos f p x = Pos.iter f x p.
Proof.
  revert x. induction p as [p IH|p IH|]; intros x; simpl.
  - rewrite !IH. rewrite !Pos.iter_swap. reflexivity.
  - rewrite !IH. reflexivity.
  - reflexivity.
Qed.

Lemma shr_1_m (r : shr_record) :
  0 <= shr_m r -> shr_m (shr_1 r) = shr_m r / 2.
Proof.
  destruct r as [m r s]; simpl. intros Hm.
  rewrite <- Z.div2_div.
  destruct m as [|[p|p|]|p]; try reflexivity. lia.
Qed.

Lemma shr_iter_m (p : positive) (r : shr_record) :
  0 <= shr_m r -> shr_m (SpecFloat.iter_pos shr_1 p r) = shr_m r / 2 ^ Zpos p.
Proof.
  rewrite iter_pos_iter. revert r.
  induction p as [|p IH] using Pos.peano_ind; intros r Hr.
  - simpl Pos.iter. rewrite shr_1_m by done. reflexivity.
  - rewrite Pos.iter_succ_r, IH.
    + rewrite shr_1_m by done. rewrite Pos2Z.inj_succ, Z.pow_succ_r by lia.
      rewrite Z.div_div by lia. reflexivity.
    + rewrite shr_1_m by done. apply Z.div_pos; lia.
Qed.

Lemma shr_1_exact (z : Z) :
  0 <= z ->
  shr_1 (Build_shr_record (2 * z) false false) = Build_shr_record z false false.
Proof. intros _. destruct z as [|p|p]; reflexivity. Qed.

Lemma shr_iter_exact (p : positive) (z : Z) :
  0 <= z ->
  SpecFloat.iter_pos shr_1 p (Build_shr_record (z * 2 ^ Zpos p) false false)
  = Build_shr_record z false false.
Proof.
  intros Hz. rewrite iter_pos_iter.
  induction p as [|p IH] using Pos.peano_ind.
  - simpl Pos.iter. replace (z * 2 ^ 1) with (2 * z) by lia.
    by apply shr_1_exact.
  - rewrite Pos.iter_succ_r.
    rewrite Pos2Z.inj_succ, Z.pow_succ_r by lia.
    replace (z * (2 * 2 ^ Zpos p)) with (2 * (z * 2 ^ Zpos p)) by lia.
    rewrite shr_1_exact by (apply Z.mul_nonneg_nonneg; lia).
    exact IH.
Qed.

End Shift.

Section RoundAux.

Local Abbreviation p23 := 8388608.
Local Abbreviation p24 := 16777216.

Lemma fexp_normal (x : Z) : -125 <= x -> fexp 24 128 x = x - 24.
Proof. intros H. unfold fexp, emin. lia. Qed.

Lemma pos_mul_pow2 (m : positive) (k : Z) :
  0 <= k -> exists q, Zpos m * 2 ^ k = Zpos q.
Proof.
  intros Hk. assert (0 < Zpos m * 2 ^ k) by (apply Z.mul_pos_pos; lia).
  destruct (Zpos m * 2 ^ k) as [|q|q] eqn:E; try lia. by exists q.
Qed.

Lemma digits_shifted (m q : positive) (k : Z) :
  0 <= k -> normal_mantissa m -> Zpos m * 2 ^ k = Zpos q ->
  Zpos (digits2_pos q) = 24 + k.
Proof.
  intros Hk [Hlo Hhi] Hq. apply digits2_pos_unique. rewrite <- Hq.
  replace (24 + k - 1) with (23 + k) by lia.
  rewrite !Z.pow_add_r by lia.
  change (2 ^ 23) with p23. change (2 ^ 24) with p24.
  assert (0 < 2 ^ k) by lia. nia.
Qed.

Lemma shr_fexp_exact (m : positive) (e k : Z) :
  0 <= k -> normal_mantissa m -> -149 <= e + k ->
  shr_fexp 24 128 (Zpos m * 2 ^ k) e loc_Exact
  = (Build_shr_record (Zpos m) false false, e + k).
Proof.
  intros Hk Hm He. destruct (pos_mul_pow2 m k Hk) as [q Hq].
  unfold shr_fexp. rewrite Hq.
  cbn [Zdigits2 shr_record_of_loc].
  rewrite (digits_shifted m q k Hk Hm Hq).
  rewrite fexp_normal by lia.
  replace (24 + k + e - 24 - e) with k by lia.
  unfold shr. destruct k as [|pk|pk]; [| |lia].
  - rewrite <- Hq. f_equal; [f_equal|]; lia.
  - rewrite <- Hq. rewrite shr_iter_exact by lia. reflexivity.
Qed.

Lemma binary_round_aux_exact (s : bool) (m : positive) (e k : Z) :
  0 <= k -> normal_mantissa m -> -149 <= e + k <= 104 ->
  binary_round_aux 24 128 s (Zpos m * 2 ^ k) e loc_Exact
  = S754_finite s m (e + k).
Proof.
  intros Hk Hm He. unfold binary_round_aux.
  rewrite shr_fexp_exact by (done || lia).
  cbn [shr_m loc_of_shr_record round_nearest_even].
  replace (Zpos m) with (Zpos m * 2 ^ 0) at 1 by lia.
  rewrite shr_fexp_exact by (done || lia).
  cbn [shr_m]. rewrite Z.add_0_r.
  destruct (Z.leb_spec (e + k) (128 - 24)); [reflexivity|lia].
Qed.

Lemma shr_record_of_loc_m (m : Z) (l : location) :
  shr_m (shr_record_of_loc m l) = m.
Proof. by destruct l as [|[]]. Qed.

Lemma round_nearest_even_range (m : Z) (l : location) :
  m <= round_nearest_even m l <= m + 1.
Proof.
  unfold round_nearest_even. destruct l as [|[]]; try lia.
  destruct (Z.even m); lia.
Qed.

(** Rounding a mantissa of at least 24 digits in the normal range: the result
    is an infinity or a normal float whose exponent does not decrease. *)
Lemma binary_round_aux_normal (s : bool) (q : positive) (e : Z) (l : location) :
  24 <= Zpos (digits2_pos q) ->
  -149 <= e + Zpos (digits2_pos q) - 24 ->
  binary_round_aux 24 128 s (Zpos q) e l = S754_infinity s
  \/ exists m' e',
      binary_round_aux 24 128 s (Zpos q) e l = S754_finite s m' e'
      /\ normal_mantissa m' /\ e + Zpos (digits2_pos q) - 24 <= e'.
Proof.
  intros Hd He. set (d := Zpos (digits2_pos q)) in *.
  pose proof (digits2_pos_bounds q) as [Blo Bhi]. fold d in Blo, Bhi.
  unfold binary_round_aux.
  destruct (shr_fexp 24 128 (Zpos q) e l) as [r1 e1] eqn:E1.
  assert (H1 : shr_m r1 = Zpos q / 2 ^ (d - 24) /\ e1 = e + d - 24).
  { unfold shr_fexp in E1. cbn [Zdigits2] in E1. fold d in E1.
    rewrite fexp_normal in E1 by lia.
    replace (d + e - 24 - e) with (d - 24) in E1 by lia.
    unfold shr in E1. destruct (d - 24) as [|pk|pk] eqn:Ek; [| |lia].
    - injection E1 as <- <-. rewrite shr_record_of_loc_m.
      split; [|lia]. by rewrite Z.div_1_r.
    - injection E1 as <- <-. rewrite shr_iter_m
        by (rewrite shr_record_of_loc_m; lia).
      rewrite shr_record_of_loc_m. split; [reflexivity|lia]. }
  destruct H1 as [Hm1 ->].
  assert (Hr1 : p23 <= shr_m r1 < p24).
  { rewrite Hm1. assert (Hp : 0 < 2 ^ (d - 24)) by (apply Z.pow_pos_nonneg; lia).
    assert (Hd1 : 2 ^ (d - 1) = p23 * 2 ^ (d - 24)).
    { replace (d - 1) with (23 + (d - 24)) by lia.
      rewrite Z.pow_add_r by lia. reflexivity. }
    assert (Hd2 : 2 ^ d = p24 * 2 ^ (d - 24)).
    { replace d with (24 + (d - 24)) at 1 by lia.
      rewrite Z.pow_add_r by lia. reflexivity. }
    split.
    - apply Z.div_le_lower_bound; lia.
    - apply Z.div_lt_upper_bound; lia. }
  pose proof (round_nearest_even_range (shr_m r1) (loc_of_shr_record r1))
    as Hrne.
  set (m2 := round_nearest_even (shr_m r1) (loc_of_shr_record r1)) in *.
  destruct (Z.eq_dec m2 p24) as [Heq|Hne].
  - (* the mantissa overflowed to 2^24 *)
    rewrite Heq. change p24 with (Zpos 8388608 * 2 ^ 1).
    rewrite shr_fexp_exact by (unfold normal_mantissa; lia).
    cbn [shr_m].
    destruct (Z.leb_spec (e + d - 24 + 1) (128 - 24)); [right|by left].
    eexists _, _. split; [reflexivity|]. unfold normal_mantissa. lia.
  - destruct m2 as [|pm|pm] eqn:Em; try lia.
    replace (Zpos pm) with (Zpos pm * 2 ^ 0) by lia.
    rewrite shr_fexp_exact by (unfold normal_mantissa; lia).
    cbn [shr_m].
    destruct (Z.leb_spec (e + d - 24 + 0) (128 - 24)); [right|by left].
    eexists _, _. split; [reflexivity|]. unfold normal_mantissa. lia.
Qed.

End RoundAux.

Section Exact.

Local Abbreviation p23 := 8388608.
Local Abbreviation p24 := 16777216.

Lemma pos_iter_xO (p n : positive) :
  Zpos (Pos.iter xO p n) = Zpos p * 2 ^ Zpos n.
Proof.
  induction n as [|n IH] using Pos.peano_ind.
  - simpl Pos.iter. lia.
  - rewrite Pos.iter_succ, Pos2Z.inj_xO, IH.
    rewrite Pos2Z.inj_succ, Z.pow_succ_r by lia. lia.
Qed.

(** A non-zero integer below 2^24 in magnitude converts exactly. *)
Lemma of_int_nonzero (z : Z) :
  z <> 0 -> Z.abs z < p24 ->
  exists m e,
    F32.of_int z = S754_finite (z <? 0) m e
    /\ normal_mantissa m /\ -23 <= e <= 0 /\ Zpos m = Z.abs z * 2 ^ (- e).
Proof.
  intros Hz Habs.
  assert (Hpos : forall (s : bool) (p : positive), Zpos p < p24 ->
    exists m e, binary_round 24 128 s p 0 = S754_finite s m e
      /\ normal_mantissa m /\ -23 <= e <= 0 /\ Zpos m = Zpos p * 2 ^ (- e)).
  { intros s p Hp. unfold binary_round.
    pose proof (digits2_pos_bounds p) as [Blo Bhi].
    set (d := Zpos (digits2_pos p)) in *.
    assert (Hd : 1 <= d <= 24).
    { split; [lia|]. destruct (Z.leb_spec d 24); [done|].
      assert (2 ^ 24 <= 2 ^ (d - 1)) by (apply Z.pow_le_mono_r; lia).
      change (2 ^ 24) with p24 in *. lia. }
    rewrite Z.add_0_r. unfold fexp, emin. rewrite Z.max_l by lia.
    unfold shl_align. rewrite Z.sub_0_r.
    destruct (d - 24) as [|pk|pk] eqn:Ek; [|lia|].
    - replace (Zpos p) with (Zpos p * 2 ^ 0) by lia.
      assert (Hn : normal_mantissa p).
      { unfold normal_mantissa. replace d with 24 in * by lia.
        change (2 ^ (24 - 1)) with p23 in *. lia. }
      rewrite binary_round_aux_exact by (done || lia).
      exists p, 0. repeat split; try (destruct Hn; lia).
    - assert (Hn : normal_mantissa (Pos.iter xO p pk)).
      { unfold normal_mantissa. rewrite pos_iter_xO.
        replace (Zpos pk) with (24 - d) by lia.
        assert (H1 : 2 ^ (d - 1) * 2 ^ (24 - d) = p23).
        { rewrite <- Z.pow_add_r by lia.
          replace (d - 1 + (24 - d)) with 23 by lia. reflexivity. }
        assert (H2 : 2 ^ d * 2 ^ (24 - d) = p24).
        { rewrite <- Z.pow_add_r by lia.
          replace (d + (24 - d)) with 24 by lia. reflexivity. }
        assert (0 < 2 ^ (24 - d)) by (apply Z.pow_pos_nonneg; lia). nia. }
      replace (Zpos (Pos.iter xO p pk))
        with (Zpos (Pos.iter xO p pk) * 2 ^ 0) by lia.
      rewrite binary_round_aux_exact by (done || lia).
      exists (Pos.iter xO p pk), (Zneg pk + 0).
      split; [reflexivity|]. split; [done|]. split; [lia|].
      by rewrite pos_iter_xO. }
  destruct z as [|p|p]; [done| |].
  - destruct (Hpos false p Habs) as (m & e & H1 & H2 & H3 & H4).
    exists m, e. split; [exact H1|]. split; [exact H2|]. split; [exact H3|].
    exact H4.
  - destruct (Hpos true p Habs) as (m & e & H1 & H2 & H3 & H4).
    exists m, e. split; [exact H1|]. split; [exact H2|]. split; [exact H3|].
    exact H4.
Qed.

Lemma clamp_id (lo hi z : Z) : lo <= z <= hi -> F32.clamp lo hi z = z.
Proof.
  intros H. unfold F32.clamp.
  destruct (Z.ltb_spec z lo); [lia|]. destruct (Z.ltb_spec hi z); lia.
Qed.

Lemma to_int32_of_int (z : Z) :
  Z.abs z < p24 -> F32.to_int32 (F32.of_int z) = z.
Proof.
  intros Habs. destruct (Z.eq_dec z 0) as [->|Hz]; [reflexivity|].
  destruct (of_int_nonzero z Hz Habs) as (m & e & -> & Hm & He & Hv).
  unfold F32.to_int32, F32.to_range, F32.trunc.
  assert (Hval : (if 0 <=? e then Zpos m * 2 ^ e else Zpos m / 2 ^ (- e))
                 = Z.abs z).
  { destruct (Z.leb_spec 0 e).
    - replace e with 0 in * by lia. simpl in Hv. lia.
    - rewrite Hv. apply Z.div_mul. apply Z.pow_nonzero; lia. }
  rewrite Hval. unfold cond_Zopp.
  destruct (Z.ltb_spec z 0); rewrite clamp_id; lia.
Qed.

Lemma round_of_int (z : Z) :
  Z.abs z < p24 -> F32.round (F32.of_int z) = F32.of_int z.
Proof.
  intros Habs. destruct (Z.eq_dec z 0) as [->|Hz]; [reflexivity|].
  destruct (of_int_nonzero z Hz Habs) as (m & e & Hof & Hm & He & Hv).
  rewrite Hof. unfold F32.round.
  destruct (Z.leb_spec 0 e); [reflexivity|].
  assert (Hp : 0 < 2 ^ (- e)) by (apply Z.pow_pos_nonneg; lia).
  rewrite Hv, Z.div_mul, Z.mod_mul by lia.
  destruct (Z.leb_spec (2 ^ (- e)) (2 * 0)); [lia|].
  rewrite <- Hof. unfold F32.of_int, cond_Zopp.
  destruct (Z.ltb_spec z 0).
  - replace (- Z.abs z) with z by lia. destruct z; try done.
  - replace (Z.abs z) with z by lia. destruct z; try done.
Qed.

Lemma to_int32_round_of_int (z : Z) :
  Z.abs z < p24 -> F32.to_int32 (F32.round (F32.of_int z)) = z.
Proof. intros H. by rewrite round_of_int, to_int32_of_int. Qed.

End Exact.

Section UnitRatio.

Local Abbreviation p23 := 8388608.
Local Abbreviation p24 := 16777216.

Lemma digits_normal (m : positive) :
  normal_mantissa m -> Zpos (digits2_pos m) = 24.
Proof. intros H. apply digits2_pos_unique. exact H. Qed.

Lemma div_eucl_pair (a b : Z) : Z.div_eucl a b = (a / b, a mod b).
Proof. unfold Z.div, Z.modulo. by destruct (Z.div_eucl a b). Qed.

Lemma div_one (s : bool) (m : positive) (e : Z) :
  normal_mantissa m -> -148 <= e <= 104 ->
  F32.div (S754_finite s m e) F32.one = S754_finite s m e.
Proof.
  intros Hm He. unfold F32.div, F32.one, SFdiv, SFdiv_core_binary.
  cbn [Zdigits2]. rewrite (digits_normal m Hm).
  change (Zpos (digits2_pos 8388608)) with 24.
  replace (24 + e - (24 + -23)) with (e + 23) by lia.
  rewrite fexp_normal by lia.
  rewrite Z.min_l by lia.
  replace (e - -23 - (e + 23 - 24)) with 24 by lia.
  cbv match. rewrite Z.shiftl_mul_pow2 by lia.
  rewrite div_eucl_pair.
  change (2 ^ 24) with (2 * p23).
  replace (Zpos m * (2 * p23)) with ((Zpos m * 2 ^ 1) * p23) by lia.
  rewrite Z.div_mul, Z.mod_mul by lia.
  change (new_location p23 0) with loc_Exact.
  rewrite binary_round_aux_exact by (done || lia).
  f_equal; [by destruct s | lia].
Qed.

Lemma mul_one (s : bool) (m : positive) (e : Z) :
  normal_mantissa m -> -149 <= e <= 104 ->
  F32.mul (S754_finite s m e) F32.one = S754_finite s m e.
Proof.
  intros Hm He. unfold F32.mul, F32.one, SFmul.
  rewrite Pos2Z.inj_mul. change (Zpos 8388608) with (2 ^ 23).
  rewrite binary_round_aux_exact by (done || lia).
  f_equal; [by destruct s | lia].
Qed.

Lemma half_mul (s : bool) (m : positive) (e : Z) :
  normal_mantissa m -> -148 <= e <= 104 ->
  F32.mul F32.half (S754_finite s m e) = S754_finite s m (e - 1).
Proof.
  intros Hm He. unfold F32.mul, F32.half, SFmul.
  rewrite Pos2Z.inj_mul, Z.mul_comm. change (Zpos 8388608) with (2 ^ 23).
  rewrite binary_round_aux_exact by (done || lia).
  f_equal. lia.
Qed.

(** At zoom ratio 1 the offset of the zoom window is a zero. *)
Lemma offset_one (size : Z) :
  Z.abs size < p24 -> exists s, utils.offset F32.one size = S754_zero s.
Proof.
  intros Hs. unfold utils.offset.
  change (F32.sub F32.one (F32.div F32.one F32.one)) with (S754_zero false).
  destruct (Z.eq_dec size 0) as [->|Hnz]; [by exists false|].
  destruct (of_int_nonzero size Hnz Hs) as (m & e & -> & Hm & He & _).
  rewrite half_mul by (done || lia). by eexists.
Qed.

Lemma of_int_cases (z : Z) :
  Z.abs z < p24 ->
  F32.of_int z = S754_zero false
  \/ exists s m e, F32.of_int z = S754_finite s m e
       /\ normal_mantissa m /\ -23 <= e <= 0.
Proof.
  intros Hz. destruct (Z.eq_dec z 0) as [->|Hnz]; [by left|right].
  destruct (of_int_nonzero z Hnz Hz) as (m & e & H & Hm & He & _).
  by exists (z <? 0), m, e.
Qed.

(** One coordinate of the forward transform at zoom ratio 1. *)
Lemma forward_coordinate_one (v size : Z) :
  Z.abs v < p24 -> Z.abs size < p24 ->
  F32.to_int32 (F32.round (F32.add (F32.div (F32.of_int v) F32.one)
                                   (utils.offset F32.one size))) = v.
Proof.
  intros Hv Hs. destruct (offset_one size Hs) as [so ->].
  rewrite <- (to_int32_round_of_int v Hv) at 2. do 2 f_equal.
  destruct (of_int_cases v Hv) as [->|(s & m & e & -> & Hm & He)].
  - by destruct so.
  - rewrite div_one by (done || lia). reflexivity.
Qed.

(** One size of the forward transform at zoom ratio 1. *)
Lemma forward_size_one (v : Z) :
  Z.abs v < p24 ->
  F32.to_int32 (F32.round (F32.div (F32.of_int v) F32.one)) = v.
Proof.
  intros Hv. rewrite <- (to_int32_round_of_int v Hv) at 2. do 2 f_equal.
  destruct (of_int_cases v Hv) as [->|(s & m & e & -> & Hm & He)].
  - reflexivity.
  - by rewrite div_one by (done || lia).
Qed.

(** One coordinate of the backward transform at zoom ratio 1. *)
Lemma backward_coordinate_one (v size : Z) :
  Z.abs v < p24 -> Z.abs size < p24 ->
  F32.to_int32 (F32.round (F32.mul (F32.sub (F32.of_int v)
                                      (utils.offset F32.one size))
                                   F32.one)) = v.
Proof.
  intros Hv Hs. destruct (offset_one size Hs) as [so ->].
  rewrite <- (to_int32_round_of_int v Hv) at 2. do 2 f_equal.
  destruct (of_int_cases v Hv) as [->|(s & m & e & -> & Hm & He)].
  - by destruct so.
  - unfold F32.sub, SFsub. by rewrite mul_one by (done || lia).
Qed.

Lemma backward_size_one (v : Z) :
  Z.abs v < p24 ->
  F32.to_int32 (F32.round (F32.mul (F32.of_int v) F32.one)) = v.
Proof.
  intros Hv. rewrite <- (to_int32_round_of_int v Hv) at 2. do 2 f_equal.
  destruct (of_int_cases v Hv) as [->|(s & m & e & -> & Hm & He)].
  - reflexivity.
  - by rewrite mul_one by (done || lia).
Qed.

Lemma int32_id (z : Z) : - 2 ^ 31 <= z < 2 ^ 31 -> int32 z = z.
Proof.
  intros H. unfold int32. rewrite Z.mod_small; lia.
Qed.

Lemma RevertZoomRatio_one (left top width height : Z) (dim : Dimension) :
  Z.abs (Dimension.width dim) < p24 -> Z.abs (Dimension.height dim) < p24 ->
  Z.abs left < p24 -> Z.abs top < p24 ->
  Z.abs width < p24 -> Z.abs height < p24 ->
  utils.RevertZoomRatio F32.one left top width height dim
  = Region.mk left top width height.
Proof.
  intros HW HH Hl Ht Hw Hh. unfold utils.RevertZoomRatio.
  rewrite !backward_coordinate_one, !backward_size_one by done.
  reflexivity.
Qed.

Lemma ConvertZoomRatio_one_inside (left top width height : Z)
    (dim : Dimension) :
  Dimension.width dim < p24 -> Dimension.height dim < p24 ->
  0 <= left -> 0 <= top -> 0 <= width -> 0 <= height ->
  left + width <= Dimension.width dim ->
  top + height <= Dimension.height dim ->
  ConvertZoomRatio F32.one left top width height dim
  = Region.mk left top width height.
Proof.
  intros HW HH Hl Ht Hw Hh Hlw Hth. unfold ConvertZoomRatio.
  change (F32.leb F32.one F32.one) with true. cbv iota.
  fold (utils.offset F32.one (Dimension.width dim)).
  fold (utils.offset F32.one (Dimension.height dim)).
  rewrite !forward_coordinate_one, !forward_size_one by lia.
  unfold utils.CorrectRegionBoundary.
  rewrite !Z.max_l by lia. rewrite !int32_id by (change (2 ^ 31) with 2147483648; lia).
  rewrite !Z.min_l by lia. reflexivity.
Qed.

End UnitRatio.

Section AtLeastOne.

Local Abbreviation p23 := 8388608.
Local Abbreviation p24 := 16777216.

(** A valid float that is at least 1 is a normal float of exponent at least
    -23, or the positive infinity. *)
Lemma ge_one_cases (zoom : float) :
  valid_binary 24 128 zoom = true -> F32.leb F32.one zoom = true ->
  zoom = S754_infinity false
  \/ exists m e, zoom = S754_finite false m e
       /\ normal_mantissa m /\ -23 <= e.
Proof.
  intros Hv Hle. unfold F32.leb, F32.one, SFleb in Hle.
  destruct zoom as [s|s| |s m e]; cbn [SFcompare] in Hle; try discriminate.
  - destruct s; [discriminate|by left].
  - right. destruct s; [discriminate|]. exists m, e. split; [done|].
    assert (He : -23 <= e).
    { revert Hle. destruct (Z.compare_spec (-23) e); lia || discriminate. }
    split; [|done].
    simpl in Hv. unfold bounded, canonical_mantissa in Hv.
    apply andb_prop in Hv as [Hc _]. apply Z.eqb_eq in Hc.
    unfold fexp, emin in Hc.
    pose proof (digits2_pos_bounds m) as B.
    replace (Zpos (digits2_pos m)) with 24 in B by lia. exact B.
Qed.

Lemma digits_lower (q : positive) (k : Z) :
  0 <= k -> 2 ^ k <= Zpos q -> k + 1 <= Zpos (digits2_pos q).
Proof.
  intros Hk Hq. pose proof (digits2_pos_bounds q) as [_ Bhi].
  destruct (Z.leb_spec (k + 1) (Zpos (digits2_pos q))); [done|].
  assert (2 ^ Zpos (digits2_pos q) <= 2 ^ k) by (apply Z.pow_le_mono_r; lia).
  lia.
Qed.

Lemma mul_ge_one (m1 m2 : positive) (e1 e2 : Z) :
  normal_mantissa m1 -> normal_mantissa m2 -> -23 <= e1 -> -23 <= e2 ->
  F32.mul (S754_finite false m1 e1) (S754_finite false m2 e2)
  = S754_infinity false
  \/ exists m e,
      F32.mul (S754_finite false m1 e1) (S754_finite false m2 e2)
      = S754_finite false m e
      /\ normal_mantissa m /\ -23 <= e.
Proof.
  intros [L1 U1] [L2 U2] He1 He2. unfold F32.mul, SFmul. cbn [xorb].
  assert (Hd : 47 <= Zpos (digits2_pos (m1 * m2))).
  { apply (digits_lower _ 46); [lia|]. rewrite Pos2Z.inj_mul.
    change (2 ^ 46) with (p23 * p23). nia. }
  destruct (binary_round_aux_normal false (m1 * m2) (e1 + e2) loc_Exact)
    as [H|(m & e & H & Hm & He)]; try lia.
  - by left.
  - right. exists m, e. split; [done|]. split; [done|lia].
Qed.

(** The division of a normal float of exponent at least -23 by a valid
    positive float below 1. *)
Lemma lt_one_cases (zoom : float) :
  valid_binary 24 128 zoom = true ->
  F32.ltb (S754_zero false) zoom = true -> F32.ltb zoom F32.one = true ->
  exists m e, zoom = S754_finite false m e
    /\ Zpos (digits2_pos m) <= 24 /\ e + Zpos (digits2_pos m) <= 0
    /\ -149 <= e.
Proof.
  intros Hv Hpos Hlt. unfold F32.ltb, F32.one, SFltb in *.
  destruct zoom as [s|s| |s m e]; cbn [SFcompare] in Hpos, Hlt;
    try discriminate.
  - destruct s; discriminate.
  - destruct s; [discriminate|]. exists m, e. split; [done|].
    simpl in Hv. unfold bounded, canonical_mantissa in Hv.
    apply andb_prop in Hv as [Hc _]. apply Z.eqb_eq in Hc.
    unfold fexp, emin in Hc.
    pose proof (digits2_pos_bounds m) as [Blo _].
    revert Hlt.
    destruct (Z.compare_spec e (-23)) as [Heq|Hl|Hg]; try discriminate.
    + (* same exponent as 1.0: the mantissa would be below 2^23 *)
      intros Hlt. exfalso. assert (Hd : Zpos (digits2_pos m) = 24) by lia.
      rewrite Hd in Blo. change (2 ^ (24 - 1)) with p23 in Blo.
      revert Hlt.
      destruct (Pos.compare_cont Eq m 8388608) eqn:E; try discriminate.
      intros _. apply (proj1 (Z.compare_lt_iff (Zpos m) 8388608)) in E. lia.
    + lia.
Qed.

Lemma div_ge_one (m1 m2 : positive) (e1 e2 : Z) :
  normal_mantissa m1 -> -23 <= e1 <= 104 ->
  Zpos (digits2_pos m2) <= 24 -> e2 + Zpos (digits2_pos m2) <= 0 ->
  -149 <= e2 ->
  F32.div (S754_finite false m1 e1) (S754_finite false m2 e2)
  = S754_infinity false
  \/ exists m e,
      F32.div (S754_finite false m1 e1) (S754_finite false m2 e2)
      = S754_finite false m e
      /\ normal_mantissa m /\ -23 <= e.
Proof.
  intros Hm1 He1 Hd2 He2 Hlo. unfold F32.div, SFdiv, SFdiv_core_binary.
  cbn [Zdigits2 xorb]. rewrite (digits_normal m1 Hm1).
  pose proof (digits2_pos_bounds m2) as [Blo Bhi].
  set (d2 := Zpos (digits2_pos m2)) in *.
  assert (Hd2pos : 1 <= d2) by lia.
  rewrite fexp_normal by lia.
  rewrite Z.min_l by lia.
  replace (e1 - e2 - (24 + e1 - (d2 + e2) - 24)) with d2 by lia.
  change (match d2 with
          | 0 => Zpos m1
          | Zpos _ => Z.shiftl (Zpos m1) d2
          | Zneg _ => 0
          end) with (Z.shiftl (Zpos m1) d2).
  rewrite Z.shiftl_mul_pow2 by lia. rewrite div_eucl_pair.
  set (q := Zpos m1 * 2 ^ d2 / Zpos m2).
  destruct Hm1 as [L1 U1].
  assert (Hp : 2 ^ d2 = 2 * 2 ^ (d2 - 1)).
  { replace d2 with (Z.succ (d2 - 1)) at 1 by lia.
    rewrite Z.pow_succ_r by lia. reflexivity. }
  assert (Hq : p23 <= q).
  { unfold q. apply Z.div_le_lower_bound; [lia|]. nia. }
  destruct q as [|pq|pq] eqn:Eq; try lia.
  assert (Hdq : 24 <= Zpos (digits2_pos pq)).
  { apply (digits_lower _ 23); [lia|]. change (2 ^ 23) with p23. lia. }
  destruct (binary_round_aux_normal false pq (24 + e1 - (d2 + e2) - 24)
              (new_location (Zpos m2) (Zpos m1 * 2 ^ d2 mod Zpos m2)))
    as [H|(m & e & H & Hm & He)]; try lia.
  - by left.
  - right. exists m, e. split; [done|]. split; [done|lia].
Qed.

Lemma to_int32_round_ge_one (m : positive) (e : Z) :
  normal_mantissa m -> -23 <= e ->
  1 <= F32.to_int32 (F32.round (S754_finite false m e)).
Proof.
  intros [Lm Um] He. unfold F32.round.
  destruct (Z.leb_spec 0 e) as [Hpos|Hneg].
  - unfold F32.to_int32, F32.to_range, F32.trunc.
    destruct (Z.leb_spec 0 e); [|lia]. cbn [cond_Zopp].
    assert (0 < 2 ^ e) by (apply Z.pow_pos_nonneg; lia).
    unfold F32.clamp.
    destruct (Z.ltb_spec (Zpos m * 2 ^ e) (- 2 ^ 31)); [nia|].
    destruct (Z.ltb_spec (2 ^ 31 - 1) (Zpos m * 2 ^ e)); [done|nia].
  - assert (Hp : 0 < 2 ^ (- e)) by (apply Z.pow_pos_nonneg; lia).
    assert (Hle : 2 ^ (- e) <= p23).
    { change p23 with (2 ^ 23). apply Z.pow_le_mono_r; lia. }
    assert (Hq : 1 <= Zpos m / 2 ^ (- e) < p24).
    { split.
      - apply Z.div_le_lower_bound; lia.
      - apply Z.div_lt_upper_bound; [lia|]. nia. }
    cbn [cond_Zopp].
    set (n := if 2 ^ (- e) <=? 2 * (Zpos m mod 2 ^ (- e))
              then Zpos m / 2 ^ (- e) + 1 else Zpos m / 2 ^ (- e)).
    assert (Hn : 1 <= n <= p24) by (unfold n; case_match; lia).
    destruct (Z.eq_dec n p24) as [->|Hne]; [done|].
    change (binary_normalize F32.prec F32.emax n 0 false)
      with (F32.of_int n).
    rewrite to_int32_of_int by lia. lia.
Qed.

End AtLeastOne.

(** ** The forward transform *)

Lemma to_int32_range (x : float) :
  - 2 ^ 31 <= F32.to_int32 x <= 2 ^ 31 - 1.
Proof.
  assert (Hc : forall z, - 2 ^ 31 <= F32.clamp (- 2 ^ 31) (2 ^ 31 - 1) z
                         <= 2 ^ 31 - 1).
  { intros z. unfold F32.clamp.
    destruct (Z.ltb_spec z (- 2 ^ 31)); [lia|].
    destruct (Z.ltb_spec (2 ^ 31 - 1) z); lia. }
  unfold F32.to_int32, F32.to_range.
  destruct (F32.trunc x); [apply Hc|].
  destruct x as [| [] | |]; try apply Hc; lia.
Qed.

Lemma int32_le (z : Z) : - 2 ^ 31 <= z -> int32 z <= z.
Proof.
  intros H. unfold int32.
  pose proof (Z.mod_le (z + 2 ^ 31) (2 ^ 32)). lia.
Qed.

Lemma ConvertZoomRatio_formula (zoom_ratio : float)
    (left top width height : Z) (dim : Dimension) :
  ConvertZoomRatio zoom_ratio left top width height dim
  = if F32.leb F32.one zoom_ratio then
      utils.CorrectRegionBoundary
        (forward_position zoom_ratio left (Dimension.width dim))
        (forward_position zoom_ratio top (Dimension.height dim))
        (forward_size zoom_ratio width) (forward_size zoom_ratio height)
        (Dimension.width dim) (Dimension.height dim)
    else ForwardFormula zoom_ratio left top width height dim.
Proof. reflexivity. Qed.

Lemma CorrectRegionBoundary_inside (left top width height : Z)
    (dim : Dimension) :
  inside_active_array left top width height dim ->
  Dimension.width dim < 2 ^ 31 -> Dimension.height dim < 2 ^ 31 ->
  utils.CorrectRegionBoundary left top width height
    (Dimension.width dim) (Dimension.height dim)
  = Region.mk left top width height.
Proof.
  intros (Hl & Ht & Hw & Hh & Hlw & Hth) HW HH.
  unfold utils.CorrectRegionBoundary.
  rewrite !Z.max_l by lia. rewrite !int32_id by lia.
  rewrite !Z.min_l by lia. reflexivity.
Qed.

(** C2, the claim as stated fails: at zoom ratio 1.0 on a 4000x3000 array the
    region (3000, 0, 2000, 3000) is returned with width 1000, while the
    formula gives width 2000. *)
Lemma C2_formula_counterexample :
  F32.ltb (S754_zero false) F32.one = true
  /\ ForwardFormula F32.one 3000 0 2000 3000 sample_dimension
     = Region.mk 3000 0 2000 3000
  /\ ConvertZoomRatio F32.one 3000 0 2000 3000 sample_dimension
     = Region.mk 3000 0 1000 3000
  /\ ConvertZoomRatio F32.one 3000 0 2000 3000 sample_dimension
     <> ForwardFormula F32.one 3000 0 2000 3000 sample_dimension.
Proof. vm_compute. repeat split; discriminate. Qed.

(** C2, amended: the forward transform returns the values of the formula when
    the zoom ratio is below 1.0, and those values after the boundary
    correction when it is at least 1.0; the correction leaves them as they
    are when they lie inside the active array.  With a 4000x3000 array, zoom
    ratio 2.0 and the region (0, 0, 4000, 3000) the result is
    (1000, 750, 2000, 1500). *)
Theorem C2_forward_formula_then_boundary_correction
    (zoom_ratio : float) (left top width height : Z) (dim : Dimension) :
  let f := ForwardFormula zoom_ratio left top width height dim in
  (F32.leb F32.one zoom_ratio = false ->
   ConvertZoomRatio zoom_ratio left top width height dim = f)
  /\ (F32.leb F32.one zoom_ratio = true ->
      ConvertZoomRatio zoom_ratio left top width height dim
      = utils.CorrectRegionBoundary (Region.left f) (Region.top f)
          (Region.width f) (Region.height f)
          (Dimension.width dim) (Dimension.height dim))
  /\ (inside_active_array (Region.left f) (Region.top f) (Region.width f)
        (Region.height f) dim ->
      Dimension.width dim < 2 ^ 31 -> Dimension.height dim < 2 ^ 31 ->
      ConvertZoomRatio zoom_ratio left top width height dim = f)
  /\ ConvertZoomRatio two 0 0 4000 3000 sample_dimension
     = Region.mk 1000 750 2000 1500.
Proof.
  intros f. rewrite ConvertZoomRatio_formula.
  split; [by intros ->|]. split; [by intros ->|]. split; [|by vm_compute].
  intros Hin HW HH. destruct (F32.leb F32.one zoom_ratio); [|done].
  by apply (CorrectRegionBoundary_inside _ _ _ _ dim Hin).
Qed.

(** In the sample of the claim the formula values lie inside the array and
    are returned as they are. *)
Lemma C2_forward_formula_witness :
  ConvertZoomRatio two 0 0 4000 3000 sample_dimension
  = ForwardFormula two 0 0 4000 3000 sample_dimension.
Proof.
  destruct (C2_forward_formula_then_boundary_correction
              two 0 0 4000 3000 sample_dimension) as (_ & _ & H & _).
  apply H.
  - vm_compute. repeat split; discriminate.
  - reflexivity.
  - reflexivity.
Defined.

(** C3: for a zoom ratio of at least 1.0 and an active array of non-negative
    size, the region returned by the forward transform has [left >= 0],
    [top >= 0], [left + width <= activeWidth] and
    [top + height <= activeHeight]. *)
Theorem C3_forward_region_inside_active_array
    (zoom_ratio : float) (left top width height : Z) (dim : Dimension) :
  F32.leb F32.one zoom_ratio = true ->
  0 <= Dimension.width dim -> 0 <= Dimension.height dim ->
  let r := ConvertZoomRatio zoom_ratio left top width height dim in
  0 <= Region.left r /\ 0 <= Region.top r
  /\ Region.left r + Region.width r <= Dimension.width dim
  /\ Region.top r + Region.height r <= Dimension.height dim.
Proof.
  intros Hge HW HH r. subst r. rewrite ConvertZoomRatio_formula, Hge.
  unfold utils.CorrectRegionBoundary. cbn [Region.left Region.top
    Region.width Region.height].
  pose proof (to_int32_range (F32.round (F32.add
    (F32.div (F32.of_int left) zoom_ratio)
    (F32.mul (F32.mul F32.half (F32.of_int (Dimension.width dim)))
       (F32.sub F32.one (F32.div F32.one zoom_ratio)))))) as Hl.
  pose proof (to_int32_range (F32.round (F32.add
    (F32.div (F32.of_int top) zoom_ratio)
    (F32.mul (F32.mul F32.half (F32.of_int (Dimension.height dim)))
       (F32.sub F32.one (F32.div F32.one zoom_ratio)))))) as Ht.
  fold (forward_position zoom_ratio left (Dimension.width dim)) in Hl.
  fold (forward_position zoom_ratio top (Dimension.height dim)) in Ht.
  set (l := forward_position zoom_ratio left (Dimension.width dim)) in *.
  set (t := forward_position zoom_ratio top (Dimension.height dim)) in *.
  pose proof (int32_le (Dimension.width dim - Z.max l 0)) as Hwl.
  pose proof (int32_le (Dimension.height dim - Z.max t 0)) as Hht.
  lia.
Qed.

Lemma C3_forward_region_witness :
  let r := ConvertZoomRatio two 3000 2000 4000 3000 sample_dimension in
  0 <= Region.left r /\ 0 <= Region.top r
  /\ Region.left r + Region.width r <= 4000
  /\ Region.top r + Region.height r <= 3000.
Proof.
  apply (C3_forward_region_inside_active_array
           two 3000 2000 4000 3000 sample_dimension).
  - reflexivity.
  - simpl; lia.
  - simpl; lia.
Defined.

(** ** Zoom ratio 1.0 *)

(** C4, the claim as stated fails: at zoom ratio 1.0 the forward transform
    clamps a region that leaves the 4000x3000 array, (2000, 1500, 4000, 3000)
    comes back as (2000, 1500, 2000, 1500); and the backward transform
    returns the coordinate 2^24 + 1, which binary32 does not represent, as
    2^24. *)
Lemma C4_identity_counterexample :
  ConvertZoomRatio F32.one 2000 1500 4000 3000 sample_dimension
  = Region.mk 2000 1500 2000 1500
  /\ ConvertZoomRatio F32.one 2000 1500 4000 3000 sample_dimension
     <> Region.mk 2000 1500 4000 3000
  /\ utils.RevertZoomRatio F32.one 16777217 0 1 1 sample_dimension
     = Region.mk 16777216 0 1 1.
Proof. vm_compute. split; [reflexivity|split; [discriminate|reflexivity]]. Qed.

(** C4, amended: at zoom ratio exactly 1.0, with an active array and
    coordinates below 2^24 in magnitude (the integers that binary32
    represents exactly), the backward transform returns every region
    unchanged, and the forward transform returns unchanged every region that
    lies inside the active array. *)
Theorem C4_identity_at_zoom_ratio_one
    (left top width height : Z) (dim : Dimension) :
  Z.abs (Dimension.width dim) < 2 ^ 24 ->
  Z.abs (Dimension.height dim) < 2 ^ 24 ->
  (Z.abs left < 2 ^ 24 -> Z.abs top < 2 ^ 24 ->
   Z.abs width < 2 ^ 24 -> Z.abs height < 2 ^ 24 ->
   utils.RevertZoomRatio F32.one left top width height dim
   = Region.mk left top width height)
  /\ (inside_active_array left top width height dim ->
      ConvertZoomRatio F32.one left top width height dim
      = Region.mk left top width height).
Proof.
  intros HW HH. split.
  - intros Hl Ht Hw Hh. by apply RevertZoomRatio_one.
  - intros (Hl & Ht & Hw & Hh & Hlw & Hth).
    apply ConvertZoomRatio_one_inside; lia.
Qed.

Lemma C4_identity_witness :
  utils.RevertZoomRatio F32.one 100 200 640 480 sample_dimension
  = Region.mk 100 200 640 480
  /\ ConvertZoomRatio F32.one 100 200 640 480 sample_dimension
     = Region.mk 100 200 640 480.
Proof.
  destruct (C4_identity_at_zoom_ratio_one 100 200 640 480 sample_dimension)
    as [Hback Hfwd]; [reflexivity|reflexivity|].
  split.
  - apply Hback; reflexivity.
  - apply Hfwd. unfold inside_active_array. simpl. lia.
Defined.

(** ** Sizes of at least one pixel *)

Lemma backward_size_ge_one (zoom_ratio : float) (v : Z) :
  valid_binary 24 128 zoom_ratio = true ->
  F32.leb F32.one zoom_ratio = true ->
  1 <= v < 2 ^ 24 ->
  1 <= F32.to_int32 (F32.round (F32.mul (F32.of_int v) zoom_ratio)).
Proof.
  intros Hvalid Hge Hv.
  destruct (of_int_nonzero v) as (m & e & -> & Hm & He & _); [lia|lia|].
  replace (v <? 0) with false by lia.
  destruct (ge_one_cases zoom_ratio Hvalid Hge)
    as [->|(mz & ez & -> & Hmz & Hez)]; [done|].
  destruct (mul_ge_one m mz e ez) as [->|(m' & e' & -> & Hm' & He')];
    try done; try lia.
  by apply to_int32_round_ge_one.
Qed.

Lemma forward_size_ge_one (zoom_ratio : float) (v : Z) :
  valid_binary 24 128 zoom_ratio = true ->
  F32.ltb (S754_zero false) zoom_ratio = true ->
  F32.ltb zoom_ratio F32.one = true ->
  1 <= v < 2 ^ 24 ->
  1 <= forward_size zoom_ratio v.
Proof.
  intros Hvalid Hpos Hlt Hv. unfold forward_size.
  destruct (of_int_nonzero v) as (m & e & -> & Hm & He & _); [lia|lia|].
  replace (v <? 0) with false by lia.
  destruct (lt_one_cases zoom_ratio Hvalid Hpos Hlt)
    as (mz & ez & -> & Hd & Hez & Hlo).
  destruct (div_ge_one m mz e ez) as [->|(m' & e' & -> & Hm' & He')];
    try done; try lia.
  by apply to_int32_round_ge_one.
Qed.

(** C10, the claim as stated fails: on the request path with zoom ratio 10 (in
    the range [1, 10]) a 4x4 region is returned with width 0 and height 0,
    and the 3A region [0, 0, 3, 3] is re-encoded as [1800, 1350, 1799, 1349],
    whose right and bottom lie before its left and top. *)
Lemma C10_minimum_size_counterexample :
  let r :=
    update_3a_region ten sample_dimension true (WeightedRect.mk 0 0 3 3 1) in
  clamp_zoom_ratio (zoom_ratio_range_ sample_mapper) ten = ten
  /\ ConvertZoomRatio ten 0 0 4 4 sample_dimension = Region.mk 1800 1350 0 0
  /\ r = WeightedRect.mk 1800 1350 1799 1349 1
  /\ WeightedRect.right r < WeightedRect.left r
  /\ WeightedRect.bottom r < WeightedRect.top r.
Proof. vm_compute. repeat split; reflexivity. Qed.

(** C10, amended: no minimum size is enforced, and a transform keeps a width
    and a height of at least 1 only where it enlarges.  For a valid binary32
    zoom ratio and a region with [1 <= width, height < 2^24], whenever the
    rounded sizes fit [int32_t]: the backward transform returns width and
    height of at least 1 if the zoom ratio is at least 1.0, and the forward
    transform does if the zoom ratio lies strictly between 0 and 1.0. *)
Theorem C10_sizes_stay_positive_where_the_transform_enlarges
    (zoom_ratio : float) (left top width height : Z) (dim : Dimension) :
  F32.valid zoom_ratio = true ->
  1 <= width < 2 ^ 24 -> 1 <= height < 2 ^ 24 ->
  (F32.leb F32.one zoom_ratio = true ->
   F32.int32_representable
     (F32.round (F32.mul (F32.of_int width) zoom_ratio)) = true ->
   F32.int32_representable
     (F32.round (F32.mul (F32.of_int height) zoom_ratio)) = true ->
   let r := utils.RevertZoomRatio zoom_ratio left top width height dim in
   1 <= Region.width r /\ 1 <= Region.height r)
  /\ (F32.ltb (S754_zero false) zoom_ratio = true ->
      F32.ltb zoom_ratio F32.one = true ->
      F32.int32_representable
        (F32.round (F32.div (F32.of_int width) zoom_ratio)) = true ->
      F32.int32_representable
        (F32.round (F32.div (F32.of_int height) zoom_ratio)) = true ->
      let r := ConvertZoomRatio zoom_ratio left top width height dim in
      1 <= Region.width r /\ 1 <= Region.height r).
Proof.
  intros Hvalid Hw Hh. split.
  - intros Hge _ _ r. subst r. unfold utils.RevertZoomRatio.
    cbn [Region.width Region.height].
    split; by apply backward_size_ge_one.
  - intros Hpos Hlt _ _ r. subst r. rewrite ConvertZoomRatio_formula.
    rewrite (leb_false_of_ltb _ _ Hlt).
    cbn [ForwardFormula Region.width Region.height].
    split; by apply forward_size_ge_one.
Qed.

Lemma C10_sizes_stay_positive_witness :
  let r := utils.RevertZoomRatio two 1000 750 1 1 sample_dimension in
  1 <= Region.width r /\ 1 <= Region.height r.
Proof.
  destruct (C10_sizes_stay_positive_where_the_transform_enlarges
              two 1000 750 1 1 sample_dimension) as [Hback _];
    [reflexivity | vm_compute; split; [discriminate|reflexivity] .. |].
  apply Hback; reflexivity.
Defined.

(** ** The value of rounded operations *)

Section Bpow.

Lemma bpow_pos (e : Z) : (0 < bpow e)%R.
Proof. apply powerRZ_lt. lra. Qed.

Lemma bpow_add (a b : Z) : bpow (a + b) = (bpow a * bpow b)%R.
Proof. apply powerRZ_add. lra. Qed.

Lemma bpow_0 : bpow 0 = 1%R.
Proof. reflexivity. Qed.

Lemma bpow_1 : bpow 1 = 2%R.
Proof. unfold bpow. simpl. lra. Qed.

Lemma bpow_succ (a : Z) : bpow (a + 1) = (2 * bpow a)%R.
Proof. rewrite bpow_add, bpow_1. lra. Qed.

Lemma bpow_opp (a : Z) : (bpow (- a) * bpow a = 1)%R.
Proof. rewrite <- bpow_add. replace (- a + a) with 0 by lia. apply bpow_0. Qed.

Lemma bpow_IZR (k : Z) : 0 <= k -> bpow k = IZR (2 ^ k).
Proof.
  intros Hk. pattern k. apply natlike_ind; [reflexivity| |exact Hk].
  intros x Hx IH. unfold Z.succ. rewrite bpow_succ, IH.
  rewrite Z.pow_add_r by lia. rewrite mult_IZR.
  change (IZR (2 ^ 1)) with 2%R. lra.
Qed.

Lemma bpow_le (a b : Z) : a <= b -> (bpow a <= bpow b)%R.
Proof.
  intros H. replace b with (a + (b - a)) by lia. rewrite bpow_add.
  rewrite (bpow_IZR (b - a)) by lia.
  assert (1 <= IZR (2 ^ (b - a)))%R.
  { apply IZR_le. assert (0 < 2 ^ (b - a)) by (apply Z.pow_pos_nonneg; lia).
    lia. }
  pose proof (bpow_pos a). nra.
Qed.

Lemma bpow_lt (a b : Z) : a < b -> (bpow a < bpow b)%R.
Proof.
  intros H. replace b with (a + 1 + (b - a - 1)) by lia.
  pose proof (bpow_le (a + 1) (a + 1 + (b - a - 1)) ltac:(lia)) as H1.
  rewrite bpow_succ in H1 at 1. pose proof (bpow_pos a). lra.
Qed.

Lemma bpow_lt_inv (a b : Z) : (bpow a < bpow b)%R -> a < b.
Proof.
  intros H. destruct (Z.ltb_spec a b); [done|].
  pose proof (bpow_le b a ltac:(lia)). lra.
Qed.

End Bpow.

Section Inbetween.

Lemma IZR_xO (p : positive) : IZR (Zpos p~0) = (2 * IZR (Zpos p))%R.
Proof. rewrite Pos2Z.inj_xO, mult_IZR. reflexivity. Qed.

Lemma IZR_xI (p : positive) : IZR (Zpos p~1) = (2 * IZR (Zpos p) + 1)%R.
Proof. rewrite Pos2Z.inj_xI, plus_IZR, mult_IZR. reflexivity. Qed.

Lemma shr_1_inbetween (r : shr_record) (x : R) :
  0 <= shr_m r -> inbetween r x -> inbetween (shr_1 r) (x / 2).
Proof.
  destruct r as [m rb sb]. unfold inbetween. cbn [shr_m shr_r shr_s].
  intros Hm H.
  destruct m as [|[p|p|]|p]; [| | | |lia];
    destruct rb, sb; cbn [shr_1 shr_m shr_r shr_s orb];
    rewrite ?(IZR_xO p), ?(IZR_xI p) in *; lra.
Qed.

Lemma shr_1_nonneg (r : shr_record) : 0 <= shr_m r -> 0 <= shr_m (shr_1 r).
Proof. intros H. rewrite shr_1_m by done. apply Z.div_pos; lia. Qed.

Lemma shr_iter_inbetween (p : positive) (r : shr_record) (x : R) :
  0 <= shr_m r -> inbetween r x ->
  inbetween (SpecFloat.iter_pos shr_1 p r) (x * bpow (Zneg p)).
Proof.
  rewrite iter_pos_iter. revert r x.
  assert (Hhalf : bpow (-1) = (/ 2)%R).
  { pose proof (bpow_opp 1) as E. rewrite bpow_1 in E.
    change (- (1)) with (-1) in E. lra. }
  induction p as [|p IH] using Pos.peano_ind; intros r x Hm H.
  - simpl Pos.iter. rewrite Hhalf. by apply shr_1_inbetween.
  - rewrite Pos.iter_succ_r.
    replace (x * bpow (Zneg (Pos.succ p)))%R
      with (x / 2 * bpow (Zneg p))%R.
    + apply IH; [by apply shr_1_nonneg | by apply shr_1_inbetween].
    + replace (Zneg (Pos.succ p)) with (Zneg p + -1) by lia.
      rewrite bpow_add, Hhalf. lra.
Qed.

Lemma round_nearest_even_close (r : shr_record) (x : R) :
  inbetween r x ->
  (Rabs (IZR (round_nearest_even (shr_m r) (loc_of_shr_record r)) - x)
   <= / 2)%R.
Proof.
  destruct r as [m rb sb]. unfold inbetween. cbn [shr_m shr_r shr_s].
  intros H. apply Rabs_le.
  destruct rb, sb; cbn [loc_of_shr_record round_nearest_even];
    try (destruct (Z.even m)); rewrite ?plus_IZR; lra.
Qed.

End Inbetween.

Section RoundValue.

Local Abbreviation p23 := 8388608.
Local Abbreviation p24 := 16777216.

Lemma shr_record_of_loc_nonneg (m : Z) (l : location) :
  0 <= m -> 0 <= shr_m (shr_record_of_loc m l).
Proof. by rewrite shr_record_of_loc_m. Qed.

(** Rounding a mantissa of at least 24 digits in the normal range, away from
    overflow: the result is a normal float within half a unit in the last
    place of the real number [x * 2^e] that the mantissa and the location
    stand for. *)
Lemma binary_round_aux_value (s : bool) (q : positive) (e : Z) (l : location)
    (x : R) :
  24 <= Zpos (digits2_pos q) ->
  -149 <= e + Zpos (digits2_pos q) - 24 ->
  e + Zpos (digits2_pos q) - 23 <= 104 ->
  inbetween (shr_record_of_loc (Zpos q) l) x ->
  exists m' e',
    binary_round_aux 24 128 s (Zpos q) e l = S754_finite s m' e'
    /\ normal_mantissa m'
    /\ e + Zpos (digits2_pos q) - 24 <= e' <= e + Zpos (digits2_pos q) - 23
    /\ (Rabs (IZR (Zpos m') * bpow e' - x * bpow e) <= bpow e' / 2)%R.
Proof.
  intros Hd He Hov Hx. set (d := Zpos (digits2_pos q)) in *.
  pose proof (digits2_pos_bounds q) as [Blo Bhi]. fold d in Blo, Bhi.
  unfold binary_round_aux.
  destruct (shr_fexp 24 128 (Zpos q) e l) as [r1 e1] eqn:E1.
  assert (H1 : shr_m r1 = Zpos q / 2 ^ (d - 24) /\ e1 = e + (d - 24)
               /\ inbetween r1 (x * bpow (- (d - 24)))).
  { unfold shr_fexp in E1. cbn [Zdigits2] in E1. fold d in E1.
    rewrite fexp_normal in E1 by lia.
    replace (d + e - 24 - e) with (d - 24) in E1 by lia.
    unfold shr in E1. destruct (d - 24) as [|pk|pk] eqn:Ek; [| |lia].
    - injection E1 as <- <-. rewrite shr_record_of_loc_m.
      split; [by rewrite Z.div_1_r|]. split; [lia|].
      change (- 0) with 0. rewrite bpow_0, Rmult_1_r. exact Hx.
    - injection E1 as <- <-. rewrite shr_iter_m
        by (rewrite shr_record_of_loc_m; lia).
      rewrite shr_record_of_loc_m. split; [reflexivity|]. split; [lia|].
      change (- Zpos pk) with (Zneg pk).
      apply shr_iter_inbetween; [rewrite shr_record_of_loc_m; lia|done]. }
  destruct H1 as (Hm1 & -> & Hin).
  assert (Hr1 : p23 <= shr_m r1 < p24).
  { rewrite Hm1.
    assert (Hp : 0 < 2 ^ (d - 24)) by (apply Z.pow_pos_nonneg; lia).
    assert (Hd1 : 2 ^ (d - 1) = p23 * 2 ^ (d - 24)).
    { replace (d - 1) with (23 + (d - 24)) by lia.
      rewrite Z.pow_add_r by lia. reflexivity. }
    assert (Hd2 : 2 ^ d = p24 * 2 ^ (d - 24)).
    { replace d with (24 + (d - 24)) at 1 by lia.
      rewrite Z.pow_add_r by lia. reflexivity. }
    split.
    - apply Z.div_le_lower_bound; lia.
    - apply Z.div_lt_upper_bound; lia. }
  pose proof (round_nearest_even_range (shr_m r1) (loc_of_shr_record r1))
    as Hrne.
  pose proof (round_nearest_even_close r1 _ Hin) as Hclose.
  set (m2 := round_nearest_even (shr_m r1) (loc_of_shr_record r1)) in *.
  assert (Hscale : (x * bpow e
                    = x * bpow (- (d - 24)) * bpow (e + (d - 24)))%R).
  { rewrite Rmult_assoc, <- bpow_add. f_equal. f_equal. lia. }
  pose proof (bpow_pos (e + (d - 24))) as Hbp.
  assert (Herr : (Rabs (IZR m2 * bpow (e + (d - 24)) - x * bpow e)
                  <= bpow (e + (d - 24)) / 2)%R).
  { rewrite Hscale, <- Rmult_minus_distr_r, Rabs_mult.
    rewrite (Rabs_pos_eq (bpow _)) by lra.
    pose proof (Rabs_pos (IZR m2 - x * bpow (- (d - 24)))). nra. }
  destruct (Z.eq_dec m2 p24) as [Heq|Hne].
  - (* the mantissa overflowed to 2^24 *)
    exists 8388608%positive, (e + (d - 24) + 1).
    split; [|split; [unfold normal_mantissa; lia|split; [lia|]]].
    + rewrite Heq. change p24 with (Zpos 8388608 * 2 ^ 1).
      rewrite shr_fexp_exact by (unfold normal_mantissa; lia).
      cbn [shr_m].
      destruct (Z.leb_spec (e + (d - 24) + 1) (128 - 24)); [done|lia].
    + rewrite bpow_succ. rewrite Heq in Herr.
      replace (IZR (Zpos 8388608) * (2 * bpow (e + (d - 24))))%R
        with (IZR 16777216 * bpow (e + (d - 24)))%R by lra.
      lra.
  - destruct m2 as [|pm|pm] eqn:Em; try lia.
    exists pm, (e + (d - 24)).
    split; [|split; [unfold normal_mantissa; lia|split; [lia|exact Herr]]].
    replace (Zpos pm) with (Zpos pm * 2 ^ 0) at 1 by lia.
    rewrite shr_fexp_exact by (unfold normal_mantissa; lia).
    cbn [shr_m]. rewrite Z.add_0_r.
    destruct (Z.leb_spec (e + (d - 24)) (128 - 24)); [done|lia].
Qed.

(** The value of a normal float and its unit in the last place. *)
Lemma normal_value_bounds (m : positive) (e : Z) :
  normal_mantissa m ->
  (bpow (e + 23) <= IZR (Zpos m) * bpow e < bpow (e + 24))%R.
Proof.
  intros [Lo Hi]. rewrite !bpow_add.
  rewrite (bpow_IZR 23), (bpow_IZR 24) by lia.
  change (2 ^ 23) with p23. change (2 ^ 24) with p24.
  pose proof (bpow_pos e). apply IZR_le in Lo. apply IZR_lt in Hi.
  split; nra.
Qed.

End RoundValue.

Section OpValues.

Local Abbreviation p23 := 8388608.
Local Abbreviation p24 := 16777216.

Lemma digits_upper (q : positive) (k : Z) :
  Zpos q < 2 ^ k -> Zpos (digits2_pos q) <= k.
Proof.
  intros Hq. pose proof (digits2_pos_bounds q) as [Blo _].
  destruct (Z.leb_spec (Zpos (digits2_pos q)) k); [done|].
  assert (0 <= k).
  { destruct (Z.leb_spec 0 k); [done|]. rewrite Z.pow_neg_r in Hq; lia. }
  assert (2 ^ k <= 2 ^ (Zpos (digits2_pos q) - 1))
    by (apply Z.pow_le_mono_r; lia).
  lia.
Qed.

Lemma mul_value (s1 s2 : bool) (m1 m2 : positive) (e1 e2 : Z) :
  normal_mantissa m1 -> normal_mantissa m2 -> -172 <= e1 + e2 <= 79 ->
  exists m e,
    F32.mul (S754_finite s1 m1 e1) (S754_finite s2 m2 e2)
    = S754_finite (xorb s1 s2) m e
    /\ normal_mantissa m
    /\ e1 + e2 + 23 <= e <= e1 + e2 + 25
    /\ (Rabs (IZR (Zpos m) * bpow e
              - (IZR (Zpos m1) * bpow e1) * (IZR (Zpos m2) * bpow e2))
        <= bpow e / 2)%R.
Proof.
  intros [L1 U1] [L2 U2] He. unfold F32.mul, SFmul.
  assert (Hlo : 47 <= Zpos (digits2_pos (m1 * m2))).
  { apply (digits_lower _ 46); [lia|]. rewrite Pos2Z.inj_mul.
    change (2 ^ 46) with (p23 * p23). nia. }
  assert (Hhi : Zpos (digits2_pos (m1 * m2)) <= 48).
  { apply digits_upper. rewrite Pos2Z.inj_mul.
    change (2 ^ 48) with (p24 * p24). nia. }
  destruct (binary_round_aux_value (xorb s1 s2) (m1 * m2) (e1 + e2) loc_Exact
              (IZR (Zpos (m1 * m2)))) as (m & e & H & Hm & Hexp & Herr);
    try lia; [reflexivity|].
  exists m, e. split; [exact H|]. split; [exact Hm|]. split; [lia|].
  rewrite Pos2Z.inj_mul, mult_IZR, bpow_add in Herr.
  replace (IZR (Zpos m1) * bpow e1 * (IZR (Zpos m2) * bpow e2))%R
    with (IZR (Zpos m1) * IZR (Zpos m2) * (bpow e1 * bpow e2))%R by ring.
  exact Herr.
Qed.

Lemma new_location_inbetween (q nb k : Z) :
  0 < nb -> 0 <= k < nb ->
  inbetween (shr_record_of_loc q (new_location nb k))
            (IZR q + IZR k / IZR nb).
Proof.
  intros Hnb Hk.
  assert (Hnbr : (0 < IZR nb)%R) by (apply IZR_lt; lia).
  set (y := (IZR k / IZR nb)%R).
  assert (Hy : (y * IZR nb = IZR k)%R) by (unfold y; field; lra).
  assert (Hk0 : k = 0 -> y = 0%R).
  { intros ->. unfold y. field. lra. }
  assert (Hlt : 2 * k < nb -> (y < / 2)%R).
  { intros H. apply IZR_lt in H. rewrite mult_IZR in H. nra. }
  assert (Hgt : nb < 2 * k -> (/ 2 < y)%R).
  { intros H. apply IZR_lt in H. rewrite mult_IZR in H. nra. }
  assert (Heq : 2 * k = nb -> (y = / 2)%R).
  { intros H. apply (f_equal IZR) in H. rewrite mult_IZR in H. nra. }
  assert (Hpos : 0 < k -> (0 < y)%R).
  { intros H. apply IZR_lt in H. nra. }
  assert (Hone : (y < 1)%R).
  { destruct Hk as [_ H]. apply IZR_lt in H. nra. }
  unfold new_location. destruct (Z.even nb) eqn:Ev.
  - unfold new_location_even. destruct (Z.eqb_spec k 0) as [E|E].
    + unfold inbetween. simpl. rewrite (Hk0 E). lra.
    + destruct (Z.compare_spec (2 * k) nb) as [C|C|C];
        unfold inbetween; simpl.
      * rewrite (Heq C). lra.
      * pose proof (Hlt C). pose proof (Hpos ltac:(lia)). lra.
      * pose proof (Hgt C). lra.
  - unfold new_location_odd. destruct (Z.eqb_spec k 0) as [E|E].
    + unfold inbetween. simpl. rewrite (Hk0 E). lra.
    + assert (Hodd : 2 * k <> nb).
      { intros <-. rewrite Z.even_mul in Ev. discriminate. }
      destruct (Z.compare_spec (2 * k + 1) nb) as [C|C|C];
        unfold inbetween; simpl.
      * pose proof (Hlt ltac:(lia)). pose proof (Hpos ltac:(lia)). lra.
      * pose proof (Hlt ltac:(lia)). pose proof (Hpos ltac:(lia)). lra.
      * pose proof (Hgt ltac:(lia)). lra.
Qed.

Lemma div_value (s1 s2 : bool) (m1 m2 : positive) (e1 e2 : Z) :
  normal_mantissa m1 -> normal_mantissa m2 -> -125 <= e1 - e2 <= 102 ->
  exists m e,
    F32.div (S754_finite s1 m1 e1) (S754_finite s2 m2 e2)
    = S754_finite (xorb s1 s2) m e
    /\ normal_mantissa m
    /\ e1 - e2 - 24 <= e <= e1 - e2 - 22
    /\ (Rabs (IZR (Zpos m) * bpow e
              - (IZR (Zpos m1) * bpow e1) / (IZR (Zpos m2) * bpow e2))
        <= bpow e / 2)%R.
Proof.
  intros Hm1 Hm2 He. unfold F32.div, SFdiv, SFdiv_core_binary.
  cbn [Zdigits2]. rewrite (digits_normal m1 Hm1), (digits_normal m2 Hm2).
  replace (24 + e1 - (24 + e2)) with (e1 - e2) by lia.
  rewrite fexp_normal by lia.
  rewrite Z.min_l by lia.
  replace (e1 - e2 - (e1 - e2 - 24)) with 24 by lia.
  cbv match. rewrite Z.shiftl_mul_pow2 by lia. rewrite div_eucl_pair.
  change (2 ^ 24) with p24.
  destruct Hm1 as [L1 U1]. destruct Hm2 as [L2 U2].
  pose proof (Z.div_mod (Zpos m1 * p24) (Zpos m2) ltac:(lia)) as Hdm.
  pose proof (Z.mod_pos_bound (Zpos m1 * p24) (Zpos m2) ltac:(lia)) as Hr.
  set (q := Zpos m1 * p24 / Zpos m2) in *.
  set (r := (Zpos m1 * p24) mod Zpos m2) in *.
  assert (Hq : p23 <= q < 2 * p24) by nia.
  destruct q as [|pq|pq] eqn:Eq; try lia.
  assert (Hlo : 24 <= Zpos (digits2_pos pq)).
  { apply (digits_lower _ 23); [lia|]. change (2 ^ 23) with p23. lia. }
  assert (Hhi : Zpos (digits2_pos pq) <= 25).
  { apply digits_upper. change (2 ^ 25) with (2 * p24). lia. }
  destruct (binary_round_aux_value (xorb s1 s2) pq (e1 - e2 - 24)
              (new_location (Zpos m2) r)
              (IZR (Zpos pq) + IZR r / IZR (Zpos m2)))
    as (m & e & H & Hm & Hexp & Herr); try lia.
  { apply new_location_inbetween; lia. }
  exists m, e. split; [exact H|]. split; [exact Hm|]. split; [lia|].
  replace (IZR (Zpos m1) * bpow e1 / (IZR (Zpos m2) * bpow e2))%R
    with ((IZR (Zpos pq) + IZR r / IZR (Zpos m2)) * bpow (e1 - e2 - 24))%R;
    [exact Herr|].
  assert (H2 : (0 < IZR (Zpos m2))%R) by (apply IZR_lt; lia).
  pose proof (bpow_pos e2) as Hb2.
  replace (e1 - e2 - 24) with (e1 + (- e2 + -24)) by lia.
  rewrite !bpow_add.
  pose proof (bpow_opp e2) as Ho2. pose proof (bpow_opp 24) as Ho24.
  change (- (24)) with (-24) in Ho24.
  rewrite (bpow_IZR 24) in Ho24 by lia. change (2 ^ 24) with p24 in Ho24.
  apply (f_equal IZR) in Hdm. rewrite plus_IZR, !mult_IZR in Hdm.
  field_simplify_eq; [|lra].
  replace (bpow (- e2)) with (/ bpow e2)%R by (field_simplify_eq; lra).
  replace (bpow (-24)) with (/ IZR p24)%R by (field_simplify_eq; lra).
  field_simplify_eq; [|lra]. nra.
Qed.

End OpValues.

Section AddValues.

Local Abbreviation p23 := 8388608.
Local Abbreviation p24 := 16777216.

Lemma binary_round_value (s : bool) (q : positive) (e : Z) :
  -149 <= e + Zpos (digits2_pos q) - 24 ->
  e + Zpos (digits2_pos q) - 23 <= 104 ->
  exists m e',
    binary_round 24 128 s q e = S754_finite s m e'
    /\ normal_mantissa m
    /\ e + Zpos (digits2_pos q) - 24 <= e' <= e + Zpos (digits2_pos q) - 23
    /\ (Rabs (IZR (Zpos m) * bpow e' - IZR (Zpos q) * bpow e)
        <= bpow e' / 2)%R.
Proof.
  intros Hlo Hhi. unfold binary_round.
  pose proof (digits2_pos_bounds q) as [Blo Bhi].
  set (d := Zpos (digits2_pos q)) in *.
  unfold fexp, emin. rewrite Z.max_l by lia.
  unfold shl_align.
  replace (d + e - 24 - e) with (d - 24) by lia.
  destruct (d - 24) as [|pk|pk] eqn:Ek.
  - (* exactly 24 digits *)
    destruct (binary_round_aux_value s q e loc_Exact (IZR (Zpos q)))
      as (m & e' & H & Hm & Hexp & Herr); fold d; try lia; [reflexivity|].
    fold d in Hexp. exists m, e'.
    split; [exact H|split; [exact Hm|split; [lia|exact Herr]]].
  - (* more than 24 digits: rounding *)
    destruct (binary_round_aux_value s q e loc_Exact (IZR (Zpos q)))
      as (m & e' & H & Hm & Hexp & Herr); fold d; try lia; [reflexivity|].
    fold d in Hexp. exists m, e'.
    split; [exact H|split; [exact Hm|split; [lia|exact Herr]]].
  - (* fewer than 24 digits: the mantissa is shifted left, exactly *)
    assert (Hn : normal_mantissa (Pos.iter xO q pk)).
    { unfold normal_mantissa. rewrite pos_iter_xO.
      replace (Zpos pk) with (24 - d) by lia.
      assert (H1 : 2 ^ (d - 1) * 2 ^ (24 - d) = p23).
      { rewrite <- Z.pow_add_r by lia.
        replace (d - 1 + (24 - d)) with 23 by lia. reflexivity. }
      assert (H2 : 2 ^ d * 2 ^ (24 - d) = p24).
      { rewrite <- Z.pow_add_r by lia.
        replace (d + (24 - d)) with 24 by lia. reflexivity. }
      assert (0 < 2 ^ (24 - d)) by (apply Z.pow_pos_nonneg; lia). nia. }
    exists (Pos.iter xO q pk), (d + e - 24).
    split; [|split; [done|split; [lia|]]].
    + replace (Zpos (Pos.iter xO q pk))
        with (Zpos (Pos.iter xO q pk) * 2 ^ 0) by lia.
      rewrite binary_round_aux_exact by (done || lia).
      f_equal. lia.
    + rewrite pos_iter_xO, mult_IZR, <- bpow_IZR by lia.
      replace (IZR (Zpos q) * bpow (Zpos pk) * bpow (d + e - 24))%R
        with (IZR (Zpos q) * (bpow (Zpos pk) * bpow (d + e - 24)))%R by ring.
      rewrite <- bpow_add. replace (Zpos pk + (d + e - 24)) with e by lia.
      rewrite Rminus_diag, Rabs_R0. pose proof (bpow_pos (d + e - 24)). lra.
Qed.

Lemma shl_align_fst (m : positive) (e ez : Z) :
  ez <= e -> Zpos (fst (shl_align m e ez)) = Zpos m * 2 ^ (e - ez).
Proof.
  intros H. unfold shl_align.
  destruct (ez - e) as [|d|d] eqn:E; cbn [fst].
  - replace (e - ez) with 0 by lia. lia.
  - lia.
  - rewrite pos_iter_xO. do 2 f_equal. lia.
Qed.

Lemma IZR_cond_Zopp (s : bool) (z : Z) :
  IZR (cond_Zopp s z) = F2R_sign s (IZR z).
Proof. destruct s; simpl; [apply opp_IZR|reflexivity]. Qed.

(** The sum of two normal floats is a zero, when the real sum is 0, or a
    normal float within half a unit in the last place of the real sum. *)
Lemma add_value (s1 s2 : bool) (m1 m2 : positive) (e1 e2 : Z) :
  normal_mantissa m1 -> normal_mantissa m2 ->
  -126 <= e1 <= 100 -> -126 <= e2 <= 100 ->
  let x := S754_finite s1 m1 e1 in
  let y := S754_finite s2 m2 e2 in
  (F32.add x y = S754_zero false /\ (F2R x + F2R y = 0)%R)
  \/ exists s m e,
      F32.add x y = S754_finite s m e
      /\ normal_mantissa m
      /\ Z.min e1 e2 - 23 <= e <= Z.max e1 e2 + 2
      /\ (Rabs (F2R (S754_finite s m e) - (F2R x + F2R y)) <= bpow e / 2)%R.
Proof.
  intros Hm1 Hm2 He1 He2 x y. unfold F32.add, x, y, SFadd.
  set (ez := Z.min e1 e2).
  set (a1 := Zpos (fst (shl_align m1 e1 ez))).
  set (a2 := Zpos (fst (shl_align m2 e2 ez))).
  assert (Ha1 : a1 = Zpos m1 * 2 ^ (e1 - ez))
    by (apply shl_align_fst; unfold ez; lia).
  assert (Ha2 : a2 = Zpos m2 * 2 ^ (e2 - ez))
    by (apply shl_align_fst; unfold ez; lia).
  set (S := cond_Zopp s1 a1 + cond_Zopp s2 a2).
  assert (Hsum : (IZR S * bpow ez = F2R x + F2R y)%R).
  { unfold S, x, y, F2R. rewrite plus_IZR, !IZR_cond_Zopp, Ha1, Ha2.
    rewrite !mult_IZR, <- !bpow_IZR by (unfold ez; lia).
    replace (bpow e1) with (bpow (e1 - ez) * bpow ez)%R
      by (rewrite <- bpow_add; f_equal; lia).
    replace (bpow e2) with (bpow (e2 - ez) * bpow ez)%R
      by (rewrite <- bpow_add; f_equal; lia).
    destruct s1, s2; unfold F2R_sign; ring. }
  assert (Hbound : Z.abs S < 2 ^ (Z.max e1 e2 - ez + 25)).
  { destruct Hm1 as [_ U1]. destruct Hm2 as [_ U2].
    assert (H1 : 2 ^ (e1 - ez) <= 2 ^ (Z.max e1 e2 - ez))
      by (apply Z.pow_le_mono_r; unfold ez; lia).
    assert (H2 : 2 ^ (e2 - ez) <= 2 ^ (Z.max e1 e2 - ez))
      by (apply Z.pow_le_mono_r; unfold ez; lia).
    assert (0 < 2 ^ (e1 - ez)) by (apply Z.pow_pos_nonneg; unfold ez; lia).
    assert (0 < 2 ^ (e2 - ez)) by (apply Z.pow_pos_nonneg; unfold ez; lia).
    rewrite Z.pow_add_r by (unfold ez; lia). change (2 ^ 25) with (2 * p24).
    assert (Z.abs S <= a1 + a2) by (unfold S; destruct s1, s2; simpl; lia).
    nia. }
  fold x y. fold a1 a2. fold S in Hsum |- *.
  unfold binary_normalize.
  assert (Hcase : forall (s : bool) (p : positive),
    Z.abs S = Zpos p -> IZR S = F2R_sign s (IZR (Zpos p)) ->
    exists s' m e,
      binary_round 24 128 s p ez = S754_finite s' m e
      /\ normal_mantissa m /\ Z.min e1 e2 - 23 <= e <= Z.max e1 e2 + 2
      /\ (Rabs (F2R (S754_finite s' m e) - (F2R x + F2R y))
          <= bpow e / 2)%R).
  { intros s p Habs Hval.
    assert (Hd : 1 <= Zpos (digits2_pos p) <= Z.max e1 e2 - ez + 25).
    { split; [lia|]. apply digits_upper. lia. }
    destruct (binary_round_value s p ez) as (m & e & H & Hm & Hexp & Herr);
      [unfold ez; lia | unfold ez; lia|].
    exists s, m, e. split; [exact H|]. split; [exact Hm|].
    split; [unfold ez in *; lia|].
    rewrite <- Hsum, Hval. unfold F2R. destruct s; unfold F2R_sign.
    - replace (- IZR (Zpos m) * bpow e - - IZR (Zpos p) * bpow ez)%R
        with (- (IZR (Zpos m) * bpow e - IZR (Zpos p) * bpow ez))%R by ring.
      by rewrite Rabs_Ropp.
    - exact Herr. }
  destruct S as [|p|p] eqn:ES.
  - left. split; [reflexivity|]. rewrite <- Hsum. simpl. ring.
  - right. apply (Hcase false p); reflexivity.
  - right. apply (Hcase true p); [reflexivity|].
    unfold F2R_sign. change (Zneg p) with (- Zpos p). apply opp_IZR.
Qed.

End AddValues.

Section Good.

Local Abbreviation p23 := 8388608.
Local Abbreviation p24 := 16777216.

Lemma F2R_abs (s : bool) (m : positive) (e : Z) :
  Rabs (F2R (S754_finite s m e)) = (IZR (Zpos m) * bpow e)%R.
Proof.
  assert (0 < IZR (Zpos m) * bpow e)%R.
  { apply Rmult_lt_0_compat; [apply IZR_lt; lia|apply bpow_pos]. }
  unfold F2R. destruct s.
  - rewrite <- Ropp_mult_distr_l, Rabs_Ropp. apply Rabs_pos_eq. lra.
  - apply Rabs_pos_eq. lra.
Qed.

Lemma half_ulp (s : bool) (m : positive) (e : Z) :
  normal_mantissa m ->
  (bpow e / 2 <= unit_roundoff * Rabs (F2R (S754_finite s m e)))%R.
Proof.
  intros [Lo _]. rewrite F2R_abs. unfold unit_roundoff. apply IZR_le in Lo.
  pose proof (bpow_pos e). nra.
Qed.

Lemma good_weaken (lo hi lo' hi' : Z) (x : float) :
  lo' <= lo -> hi <= hi' -> good lo hi x -> good lo' hi' x.
Proof. destruct x; simpl; try done. intros ? ? [? ?]. split; [done|lia]. Qed.

Lemma F2R_sign_xorb (s1 s2 : bool) (m m1 m2 : positive) (e e1 e2 : Z) :
  (F2R (S754_finite (xorb s1 s2) m e)
   - F2R (S754_finite s1 m1 e1) * F2R (S754_finite s2 m2 e2)
   = F2R_sign (xorb s1 s2)
       (IZR (Zpos m) * bpow e
        - (IZR (Zpos m1) * bpow e1) * (IZR (Zpos m2) * bpow e2)))%R.
Proof. unfold F2R, F2R_sign. destruct s1, s2; simpl; ring. Qed.

Lemma Rabs_F2R_sign (s : bool) (v : R) : Rabs (F2R_sign s v) = Rabs v.
Proof. destruct s; simpl; [apply Rabs_Ropp|reflexivity]. Qed.

Lemma mul_good (lo1 hi1 lo2 hi2 : Z) (x y : float) :
  good lo1 hi1 x -> good lo2 hi2 y ->
  -172 <= lo1 + lo2 -> hi1 + hi2 <= 79 ->
  good (lo1 + lo2 + 23) (hi1 + hi2 + 25) (F32.mul x y)
  /\ (Rabs (F2R (F32.mul x y) - F2R x * F2R y)
      <= unit_roundoff * Rabs (F2R (F32.mul x y)))%R.
Proof.
  intros Hx Hy Hlo Hhi.
  destruct x as [sx| | |sx mx ex], y as [sy| | |sy my ey]; try done;
    try (split; [exact I|]; simpl;
         rewrite ?Rmult_0_l, ?Rmult_0_r, Rminus_diag, Rabs_R0; lra).
  destruct Hx as [Hmx Hex], Hy as [Hmy Hey].
  destruct (mul_value sx sy mx my ex ey Hmx Hmy ltac:(lia))
    as (m & e & -> & Hm & Hexp & Herr).
  split; [split; [done|lia]|].
  rewrite F2R_sign_xorb, Rabs_F2R_sign.
  pose proof (half_ulp (xorb sx sy) m e Hm). lra.
Qed.

Lemma F2R_sign_div (s1 s2 : bool) (m m1 m2 : positive) (e e1 e2 : Z) :
  (F2R (S754_finite (xorb s1 s2) m e)
   - F2R (S754_finite s1 m1 e1) / F2R (S754_finite s2 m2 e2)
   = F2R_sign (xorb s1 s2)
       (IZR (Zpos m) * bpow e
        - (IZR (Zpos m1) * bpow e1) / (IZR (Zpos m2) * bpow e2)))%R.
Proof.
  assert (H2 : (0 < IZR (Zpos m2))%R) by (apply IZR_lt; lia).
  pose proof (bpow_pos e2) as Hb2.
  unfold F2R, F2R_sign.
  generalize dependent (IZR (Zpos m2)). generalize dependent (bpow e2).
  generalize (IZR (Zpos m1)) (bpow e1) (IZR (Zpos m)) (bpow e).
  intros a b c d y Hy x Hx.
  destruct s1, s2; simpl; field; split; lra.
Qed.

Lemma div_good (lo1 hi1 : Z) (x : float) (s2 : bool) (m2 : positive)
    (e2 : Z) :
  good lo1 hi1 x -> normal_mantissa m2 ->
  -125 <= lo1 - e2 -> hi1 - e2 <= 102 ->
  good (lo1 - e2 - 24) (hi1 - e2 - 22) (F32.div x (S754_finite s2 m2 e2))
  /\ (Rabs (F2R (F32.div x (S754_finite s2 m2 e2))
            - F2R x / F2R (S754_finite s2 m2 e2))
      <= unit_roundoff * Rabs (F2R (F32.div x (S754_finite s2 m2 e2))))%R.
Proof.
  intros Hx Hm2 Hlo Hhi.
  assert (Hnz : (F2R (S754_finite s2 m2 e2) <> 0)%R).
  { intros E. pose proof (F2R_abs s2 m2 e2) as A. rewrite E, Rabs_R0 in A.
    assert (0 < IZR (Zpos m2) * bpow e2)%R; [|lra].
    apply Rmult_lt_0_compat; [apply IZR_lt; lia|apply bpow_pos]. }
  destruct x as [sx| | |sx mx ex]; try done.
  - split; [exact I|]. cbn [F32.div SFdiv]. unfold F32.div, SFdiv.
    cbn [F2R]. unfold Rdiv. rewrite Rmult_0_l, Rminus_diag, Rabs_R0. lra.
  - destruct Hx as [Hmx Hex].
    destruct (div_value sx s2 mx m2 ex e2 Hmx Hm2 ltac:(lia))
      as (m & e & -> & Hm & Hexp & Herr).
    split; [split; [done|lia]|].
    rewrite F2R_sign_div, Rabs_F2R_sign.
    pose proof (half_ulp (xorb sx s2) m e Hm). lra.
Qed.

Lemma add_good (lo hi : Z) (x y : float) :
  good lo hi x -> good lo hi y -> -126 <= lo -> hi <= 100 ->
  good (lo - 23) (hi + 2) (F32.add x y)
  /\ (Rabs (F2R (F32.add x y) - (F2R x + F2R y))
      <= unit_roundoff * Rabs (F2R (F32.add x y)))%R.
Proof.
  intros Hx Hy Hlo Hhi.
  assert (Hu : (0 <= unit_roundoff)%R) by (unfold unit_roundoff; lra).
  destruct x as [sx| | |sx mx ex], y as [sy| | |sy my ey]; try done.
  - split; [by destruct sx, sy|].
    replace (F2R (F32.add (S754_zero sx) (S754_zero sy))) with 0%R
      by (by destruct sx, sy).
    simpl. rewrite Rplus_0_l, Rminus_diag, Rabs_R0. lra.
  - split; [simpl in *; destruct Hy; split; [done|lia]|].
    unfold F32.add, SFadd. change (F2R (S754_zero sx)) with 0%R.
    rewrite Rplus_0_l, Rminus_diag.
    rewrite Rabs_R0. pose proof (Rabs_pos (F2R (S754_finite sy my ey))). nra.
  - split; [simpl in *; destruct Hx; split; [done|lia]|].
    unfold F32.add, SFadd. change (F2R (S754_zero sy)) with 0%R.
    rewrite Rplus_0_r, Rminus_diag.
    rewrite Rabs_R0. pose proof (Rabs_pos (F2R (S754_finite sx mx ex))). nra.
  - destruct Hx as [Hmx Hex], Hy as [Hmy Hey].
    destruct (add_value sx sy mx my ex ey Hmx Hmy ltac:(lia) ltac:(lia))
      as [[-> Hzero]|(s & m & e & -> & Hm & Hexp & Herr)].
    + split; [exact I|]. rewrite Hzero. simpl.
      rewrite Rminus_diag, Rabs_R0. lra.
    + split; [split; [done|lia]|].
      pose proof (half_ulp s m e Hm). lra.
Qed.

Lemma sub_as_add (x : float) (s2 : bool) (m2 : positive) (e2 : Z) :
  good (-149) 104 x ->
  F32.sub x (S754_finite s2 m2 e2) = F32.add x (S754_finite (negb s2) m2 e2).
Proof.
  destruct x as [sx| | |sx mx ex]; try done; intros _.
  unfold F32.sub, F32.add, SFsub, SFadd. f_equal.
  destruct s2; reflexivity.
Qed.

Lemma F2R_negb (s : bool) (m : positive) (e : Z) :
  F2R (S754_finite (negb s) m e) = (- F2R (S754_finite s m e))%R.
Proof. unfold F2R. destruct s; simpl; ring. Qed.

Lemma sub_good (lo hi : Z) (x y : float) :
  good lo hi x -> good lo hi y -> -126 <= lo -> hi <= 100 ->
  good (lo - 23) (hi + 2) (F32.sub x y)
  /\ (Rabs (F2R (F32.sub x y) - (F2R x - F2R y))
      <= unit_roundoff * Rabs (F2R (F32.sub x y)))%R.
Proof.
  intros Hx Hy Hlo Hhi.
  assert (Hu : (0 <= unit_roundoff)%R) by (unfold unit_roundoff; lra).
  destruct y as [sy| | |sy my ey]; try done.
  - destruct x as [sx| | |sx mx ex]; try done.
    + split; [by destruct sx, sy|].
      replace (F2R (F32.sub (S754_zero sx) (S754_zero sy))) with 0%R
        by (by destruct sx, sy).
      simpl. replace (0 - (0 - 0))%R with 0%R by ring. rewrite Rabs_R0. lra.
    + split; [simpl in *; destruct Hx; split; [done|lia]|].
      unfold F32.sub, SFsub. change (F2R (S754_zero sy)) with 0%R.
      rewrite Rminus_0_r, Rminus_diag.
      rewrite Rabs_R0.
      pose proof (Rabs_pos (F2R (S754_finite sx mx ex))). nra.
  - rewrite sub_as_add by (eapply good_weaken; [| |exact Hx]; lia).
    destruct (add_good lo hi x (S754_finite (negb sy) my ey)) as [Hg Herr];
      try done.
    split; [exact Hg|]. rewrite F2R_negb in Herr.
    replace (F2R x - F2R (S754_finite sy my ey))%R
      with (F2R x + - F2R (S754_finite sy my ey))%R by ring.
    exact Herr.
Qed.

End Good.

Section Conversions.

Local Abbreviation p23 := 8388608.
Local Abbreviation p24 := 16777216.

Lemma of_int_good (z : Z) :
  Z.abs z < 2 ^ 24 ->
  good (-23) 0 (F32.of_int z) /\ F2R (F32.of_int z) = IZR z.
Proof.
  intros Hz. destruct (Z.eq_dec z 0) as [->|Hnz]; [by split|].
  destruct (of_int_nonzero z Hnz Hz) as (m & e & -> & Hm & He & Hv).
  split; [split; [done|lia]|].
  assert (Hmz : (IZR (Zpos m) * bpow e = IZR (Z.abs z))%R).
  { rewrite Hv, mult_IZR, <- bpow_IZR by lia.
    rewrite Rmult_assoc, bpow_opp. ring. }
  unfold F2R. destruct (Z.ltb_spec z 0).
  - rewrite <- Ropp_mult_distr_l, Hmz, <- opp_IZR. f_equal. lia.
  - rewrite Hmz. f_equal. lia.
Qed.

Lemma good_restrict (lo hi k : Z) (x : float) :
  good lo hi x -> (Rabs (F2R x) < bpow (k + 24))%R -> good lo (Z.min hi k) x.
Proof.
  destruct x as [s| | |s m e]; try done. intros [Hm He] Hlt.
  split; [done|]. rewrite F2R_abs in Hlt.
  pose proof (normal_value_bounds m e Hm) as [Hlo _].
  assert (e + 23 < k + 24) by (apply bpow_lt_inv; lra). lia.
Qed.

(** Rounding to the nearest integer and converting: the result is within 1/2
    of the value, for a value below 2^23 in magnitude. *)
Lemma to_int32_round_value (lo : Z) (x : float) :
  good lo (-1) x ->
  (Rabs (IZR (F32.to_int32 (F32.round x)) - F2R x) <= / 2)%R.
Proof.
  destruct x as [s| | |s m e]; try done.
  - intros _. simpl. rewrite Rminus_diag, Rabs_R0. lra.
  - intros [[Lm Um] He]. unfold F32.round.
    destruct (Z.leb_spec 0 e); [lia|].
    assert (Hp : 0 < 2 ^ (- e)) by (apply Z.pow_pos_nonneg; lia).
    pose proof (Z.div_mod (Zpos m) (2 ^ (- e)) ltac:(lia)) as Hdm.
    pose proof (Z.mod_pos_bound (Zpos m) (2 ^ (- e)) Hp) as Hr.
    set (d := 2 ^ (- e)) in *.
    set (q := Zpos m / d) in *. set (r := Zpos m mod d) in *.
    assert (Hd2 : 2 <= d).
    { unfold d. change 2 with (2 ^ 1) at 1. apply Z.pow_le_mono_r; lia. }
    assert (Hq : 0 <= q < p23) by nia.
    set (n := if d <=? 2 * r then q + 1 else q).
    assert (Hn : 0 <= n <= p23) by (unfold n; case_match; lia).
    assert (Hconv : F32.to_int32 (binary_normalize F32.prec F32.emax
                                    (cond_Zopp s n) 0 s) = cond_Zopp s n).
    { destruct (Z.eq_dec n 0) as [->|Hnz]; [by destruct s|].
      assert (Hsame : binary_normalize F32.prec F32.emax (cond_Zopp s n) 0 s
                      = F32.of_int (cond_Zopp s n)).
      { unfold F32.of_int. destruct s, n; try done. }
      rewrite Hsame. apply to_int32_of_int. destruct s; simpl; lia. }
    rewrite Hconv.
    assert (Hdr : (0 < IZR d)%R) by (apply IZR_lt; lia).
    assert (Hbe : bpow e = (/ IZR d)%R).
    { pose proof (bpow_opp (- e)) as Ho. rewrite Z.opp_involutive in Ho.
      rewrite (bpow_IZR (- e)) in Ho by lia. fold d in Ho.
      apply Rmult_eq_reg_r with (IZR d); [|lra]. rewrite Ho. field. lra. }
    assert (Hval : (IZR (Zpos m) * bpow e = IZR q + IZR r / IZR d)%R).
    { rewrite Hbe. apply (f_equal IZR) in Hdm.
      rewrite plus_IZR, mult_IZR in Hdm. rewrite Hdm. field. lra. }
    assert (Hclose : (Rabs (IZR n - (IZR q + IZR r / IZR d)) <= / 2)%R).
    { set (y := (IZR r / IZR d)%R).
      assert (Hy : (y * IZR d = IZR r)%R) by (unfold y; field; lra).
      destruct Hr as [Hr0 Hr1]. apply IZR_le in Hr0. apply IZR_lt in Hr1.
      apply Rabs_le. unfold n. destruct (Z.leb_spec d (2 * r)) as [C|C].
      - apply IZR_le in C. rewrite mult_IZR in C. rewrite plus_IZR. nra.
      - apply IZR_lt in C. rewrite mult_IZR in C. nra. }
    unfold F2R. rewrite IZR_cond_Zopp. destruct s; unfold F2R_sign.
    + replace (- IZR n - - IZR (Zpos m) * bpow e)%R
        with (- (IZR n - IZR (Zpos m) * bpow e))%R by ring.
      rewrite Rabs_Ropp, Hval. exact Hclose.
    + rewrite Hval. exact Hclose.
Qed.

End Conversions.

Section RoundTrip.

Local Abbreviation p23 := 8388608.
Local Abbreviation p24 := 16777216.

Lemma rel_err (r x X : R) :
  (Rabs (r - x) <= unit_roundoff * Rabs r)%R -> (Rabs x <= X)%R ->
  (Rabs (r - x) <= 2 * unit_roundoff * X /\ Rabs r <= X + 2 * unit_roundoff * X)%R.
Proof.
  intros H HX. unfold unit_roundoff in *.
  assert (Htri : (Rabs r <= Rabs x + Rabs (r - x))%R).
  { replace r with (x + (r - x))%R at 1 by ring. apply Rabs_triang. }
  pose proof (Rabs_pos r). pose proof (Rabs_pos x).
  pose proof (Rabs_pos (r - x)). split; lra.
Qed.

Lemma Rabs_bounds (x b : R) : (Rabs x <= b)%R -> (- b <= x <= b)%R.
Proof. unfold Rabs. destruct (Rcase_abs x); lra. Qed.

Lemma Rabs_mul_bound (x y A B : R) :
  (Rabs x <= A)%R -> (Rabs y <= B)%R -> (Rabs (x * y) <= A * B)%R.
Proof.
  intros Hx Hy. rewrite Rabs_mult.
  pose proof (Rabs_pos x). pose proof (Rabs_pos y). nra.
Qed.

Lemma Rabs_lt_bpow23 (x : R) : (Rabs x <= 200000)%R -> (Rabs x < bpow (-1 + 24))%R.
Proof.
  intros H. change (-1 + 24) with 23. rewrite (bpow_IZR 23) by lia.
  change (2 ^ 23) with p23. lra.
Qed.

Lemma Zabs_lt_of_R (n : Z) (B : Z) :
  (Rabs (IZR n) < IZR B)%R -> Z.abs n < B.
Proof.
  intros H. rewrite <- abs_IZR in H. by apply lt_IZR.
Qed.

(** One coordinate, mapped forward with the offset [c] at zoom ratio [z] and
    back: the result is within 1 of the coordinate. *)
Lemma round_trip_axis (mz : positive) (ez : Z) (c : float) (v : Z) :
  let z := S754_finite false mz ez in
  normal_mantissa mz -> -24 <= ez <= -22 ->
  (/ 2 <= F2R z <= 5 / 2)%R ->
  good (-60) 10 c -> (Rabs (F2R c) <= 16384)%R ->
  Z.abs v <= 16384 ->
  let v' :=
    F32.to_int32 (F32.round (F32.add (F32.div (F32.of_int v) z) c)) in
  let v'' :=
    F32.to_int32 (F32.round (F32.mul (F32.sub (F32.of_int v') c) z)) in
  Z.abs (v'' - v) <= 1
  /\ (Rabs (IZR v' - (IZR v / F2R z + F2R c)) <= 51 / 100)%R.
Proof.
  intros z Hmz Hez Hz Hc HcR Hv v' v''.
  assert (Hu : unit_roundoff = (/ 16777216)%R) by reflexivity.
  (* forward *)
  destruct (of_int_good v ltac:(lia)) as [Hg0 Hv0].
  destruct (div_good (-23) 0 (F32.of_int v) false mz ez Hg0 Hmz
              ltac:(lia) ltac:(lia)) as [Hga Ha].
  fold z in Hga, Ha. rewrite Hv0 in Ha.
  set (a := F32.div (F32.of_int v) z) in *.
  assert (HvR : (Rabs (IZR v) <= 16384)%R).
  { rewrite <- abs_IZR. apply IZR_le. lia. }
  assert (Hvz : (Rabs (IZR v / F2R z) <= 32768)%R).
  { unfold Rdiv. replace 32768%R with (16384 * 2)%R by lra.
    apply Rabs_mul_bound; [done|].
    rewrite Rabs_pos_eq by (apply Rlt_le, Rinv_0_lt_compat; lra).
    replace 2%R with (/ / 2)%R by field.
    apply Rinv_le_contravar; lra. }
  destruct (rel_err _ _ _ Ha Hvz) as [Ha1 Ha2].
  destruct (add_good (-60) 10 a c) as [Hgb Hb]; try lia; try done.
  { eapply good_weaken; [| |exact Hga]; lia. }
  set (b := F32.add a c) in *.
  assert (Hac : (Rabs (F2R a + F2R c) <= 49154)%R).
  { eapply Rle_trans; [apply Rabs_triang|]. lra. }
  destruct (rel_err _ _ _ Hb Hac) as [Hb1 Hb2].
  assert (Hgb' : good (-83) (-1) b).
  { apply (good_restrict _ _ (-1)) in Hgb; [exact Hgb|].
    apply Rabs_lt_bpow23. lra. }
  pose proof (to_int32_round_value _ _ Hgb') as Hv'. fold v' in Hv'.
  assert (Hv'R : (Rabs (IZR v') <= 49156)%R).
  { replace (IZR v') with (F2R b + (IZR v' - F2R b))%R by ring.
    eapply Rle_trans; [apply Rabs_triang|]. lra. }
  assert (Hv'Z : Z.abs v' < 2 ^ 24).
  { apply Zabs_lt_of_R. change (2 ^ 24) with p24. lra. }
  (* backward *)
  destruct (of_int_good v' Hv'Z) as [Hg1 Hv1].
  destruct (sub_good (-60) 10 (F32.of_int v') c) as [Hgd Hd];
    try lia; try done.
  { eapply good_weaken; [| |exact Hg1]; lia. }
  rewrite Hv1 in Hd. set (d := F32.sub (F32.of_int v') c) in *.
  assert (Hvc : (Rabs (IZR v' - F2R c) <= 65540)%R).
  { unfold Rminus. eapply Rle_trans; [apply Rabs_triang|].
    rewrite Rabs_Ropp. lra. }
  destruct (rel_err _ _ _ Hd Hvc) as [Hd1 Hd2].
  destruct (mul_good (-83) 12 ez ez d z) as [Hge He];
    [exact Hgd | unfold z; split; [done|lia] | lia | lia |].
  set (e := F32.mul d z) in *.
  assert (HzR : (Rabs (F2R z) <= 5 / 2)%R) by (apply Rabs_le; lra).
  assert (Hdz : (Rabs (F2R d * F2R z) <= 163855)%R).
  { replace 163855%R with (65542 * (5 / 2))%R by lra.
    apply Rabs_mul_bound; [lra|done]. }
  destruct (rel_err _ _ _ He Hdz) as [He1 He2].
  assert (Hge' : good (-83 + ez + 23) (-1) e).
  { apply (good_restrict _ _ (-1)) in Hge.
    - eapply good_weaken; [| |exact Hge]; lia.
    - apply Rabs_lt_bpow23. lra. }
  pose proof (to_int32_round_value _ _ Hge') as Hv''. fold v'' in Hv''.
  (* the real inequality *)
  split.
  - assert (Hz0 : (F2R z <> 0)%R) by lra.
    assert (Hsum : (IZR v'' - IZR v
      = (IZR v'' - F2R e) + (F2R e - F2R d * F2R z)
        + (F2R d - (IZR v' - F2R c)) * F2R z
        + (IZR v' - F2R b) * F2R z
        + (F2R b - (F2R a + F2R c)) * F2R z
        + (F2R a - IZR v / F2R z) * F2R z)%R) by (field; exact Hz0).
    pose proof (Rabs_mul_bound _ _ _ _ Hd1 HzR) as T1.
    pose proof (Rabs_mul_bound _ _ _ _ Hv' HzR) as T2.
    pose proof (Rabs_mul_bound _ _ _ _ Hb1 HzR) as T3.
    pose proof (Rabs_mul_bound _ _ _ _ Ha1 HzR) as T4.
    set (t1 := ((F2R d - (IZR v' - F2R c)) * F2R z)%R) in *.
    set (t2 := ((IZR v' - F2R b) * F2R z)%R) in *.
    set (t3 := ((F2R b - (F2R a + F2R c)) * F2R z)%R) in *.
    set (t4 := ((F2R a - IZR v / F2R z) * F2R z)%R) in *.
    apply Rabs_bounds in Hv'', He1, T1, T2, T3, T4.
    rewrite Hu in *.
    assert (Hlt : (-2 < IZR v'' - IZR v < 2)%R) by (rewrite Hsum; lra).
    rewrite <- minus_IZR in Hlt. destruct Hlt as [H1 H2].
    apply lt_IZR in H1, H2. lia.
  - replace (IZR v' - (IZR v / F2R z + F2R c))%R
      with ((IZR v' - F2R b) + (F2R b - (F2R a + F2R c))
            + (F2R a - IZR v / F2R z))%R by ring.
    apply Rabs_bounds in Hv', Hb1, Ha1. rewrite Hu in *.
    apply Rabs_le. lra.
Qed.

End RoundTrip.

Section ZoomRange.

Local Abbreviation p23 := 8388608.
Local Abbreviation p24 := 16777216.

Lemma F2R_one : F2R F32.one = 1%R.
Proof.
  unfold F2R, F32.one. pose proof (bpow_opp 23) as H.
  rewrite (bpow_IZR 23) in H by lia. change (2 ^ 23) with p23 in H.
  change (- (23)) with (-23) in H. lra.
Qed.

Lemma F2R_half : F2R F32.half = (/ 2)%R.
Proof.
  unfold F2R, F32.half. pose proof (bpow_opp 24) as H.
  rewrite (bpow_IZR 24) in H by lia. change (2 ^ 24) with p24 in H.
  change (- (24)) with (-24) in H. lra.
Qed.

(** A valid zoom ratio between 0.5 and 2.5. *)
Lemma zoom_ratio_cases (z : float) :
  valid_binary 24 128 z = true ->
  F32.leb F32.half z = true -> F32.leb z two_and_half = true ->
  exists mz ez,
    z = S754_finite false mz ez /\ normal_mantissa mz /\ -24 <= ez <= -22
    /\ (/ 2 <= F2R z <= 5 / 2)%R
    /\ (F32.leb F32.one z = true -> (1 <= F2R z)%R)
    /\ (F32.leb F32.one z = false -> (F2R z < 1)%R).
Proof.
  intros Hv Hlo Hhi. unfold F32.leb, F32.half, two_and_half, SFleb in *.
  destruct z as [s|s| |s m e];
    [destruct s; simpl in Hlo; discriminate
    |destruct s; simpl in Hlo, Hhi; discriminate
    |simpl in Hlo; discriminate|].
  cbn [SFcompare] in Hlo, Hhi.
  - destruct s; [discriminate|]. exists m, e.
    assert (He1 : -24 <= e).
    { revert Hlo. destruct (Z.compare_spec (-24) e); lia || discriminate. }
    assert (He2 : e <= -22 /\ (e = -22 -> Zpos m <= 10485760)).
    { revert Hhi. destruct (Z.compare_spec e (-22)) as [->|?|?];
        [|lia|discriminate].
      destruct (Pos.compare_cont Eq m 10485760) eqn:E; try discriminate;
        intros _.
      - apply (proj1 (Z.compare_eq_iff (Zpos m) 10485760)) in E. lia.
      - apply (proj1 (Z.compare_lt_iff (Zpos m) 10485760)) in E. lia. }
    assert (Hm : normal_mantissa m).
    { simpl in Hv. unfold bounded, canonical_mantissa in Hv.
      apply andb_prop in Hv as [Hc _]. apply Z.eqb_eq in Hc.
      unfold fexp, emin in Hc. pose proof (digits2_pos_bounds m) as B.
      replace (Zpos (digits2_pos m)) with 24 in B by lia. exact B. }
    split; [reflexivity|]. split; [exact Hm|]. split; [lia|].
    pose proof (normal_value_bounds m e Hm) as [Vlo Vhi].
    assert (Hval : F2R (S754_finite false m e) = (IZR (Zpos m) * bpow e)%R)
      by reflexivity.
    assert (Hb0 : bpow 0 = 1%R) by apply bpow_0.
    assert (Hb1 : bpow 1 = 2%R) by apply bpow_1.
    assert (Hbm1 : bpow (-1) = (/ 2)%R).
    { pose proof (bpow_opp 1) as E. rewrite bpow_1 in E.
      change (- (1)) with (-1) in E. lra. }
    rewrite Hval. split; [split|split].
    + pose proof (bpow_le (-1) (e + 23) ltac:(lia)). lra.
    + destruct (Z.eq_dec e (-22)) as [->|Hne].
      * destruct He2 as [_ Hm2]. specialize (Hm2 eq_refl).
        apply IZR_le in Hm2. pose proof (bpow_opp 22) as H22.
        rewrite (bpow_IZR 22) in H22 by lia. change (2 ^ 22) with 4194304 in H22.
        change (- (22)) with (-22) in H22. nra.
      * pose proof (bpow_le (e + 24) 1 ltac:(lia)). lra.
    + intros Hone. unfold F32.one in Hone. cbn [SFcompare] in Hone.
      assert (-23 <= e).
      { revert Hone. destruct (Z.compare_spec (-23) e); lia || discriminate. }
      pose proof (bpow_le 0 (e + 23) ltac:(lia)). lra.
    + intros Hone. unfold F32.one in Hone. cbn [SFcompare] in Hone.
      assert (e < -23).
      { revert Hone. destruct (Z.compare_spec (-23) e) as [<-|?|?];
          [|discriminate|lia].
        destruct Hm as [Hm _].
        destruct (Pos.compare_cont Eq 8388608 m) eqn:E; try discriminate.
        apply (proj1 (Z.compare_gt_iff 8388608 (Zpos m))) in E. lia. }
      pose proof (bpow_le (e + 24) 0 ltac:(lia)). lra.
Qed.

End ZoomRange.

Section Offset.

Local Abbreviation p23 := 8388608.
Local Abbreviation p24 := 16777216.

Lemma half_of_int (size : Z) :
  Z.abs size < 2 ^ 24 ->
  good (-24) (-1) (F32.mul F32.half (F32.of_int size))
  /\ F2R (F32.mul F32.half (F32.of_int size)) = (IZR size / 2)%R.
Proof.
  intros Hs. destruct (of_int_good size Hs) as [_ Hval].
  destruct (of_int_cases size Hs) as [E|(s & m & e & E & Hm & He)];
    rewrite E in Hval |- *.
  - split; [exact I|]. simpl in *. rewrite <- Hval. lra.
  - rewrite half_mul by (done || lia). split; [split; [done|lia]|].
    rewrite <- Hval. unfold F2R.
    replace e with (e - 1 + 1) at 2 by lia. rewrite bpow_succ. lra.
Qed.

(** The offset of the zoom window, in binary32, is within 1/100 of
    [size/2 * (1 - 1/z)]. *)
Lemma offset_value (mz : positive) (ez : Z) (size : Z) :
  let z := S754_finite false mz ez in
  normal_mantissa mz -> -24 <= ez <= -22 ->
  (/ 2 <= F2R z <= 5 / 2)%R ->
  0 <= size <= 16384 ->
  good (-60) 10 (utils.offset z size)
  /\ (Rabs (F2R (utils.offset z size) - IZR size / 2 * (1 - / F2R z))
      <= / 100)%R.
Proof.
  intros z Hmz Hez Hz Hs. unfold utils.offset.
  assert (Hu : unit_roundoff = (/ 16777216)%R) by reflexivity.
  destruct (half_of_int size ltac:(lia)) as [Hgh Hh].
  set (h := F32.mul F32.half (F32.of_int size)) in *.
  assert (Hgone : good (-23) (-23) F32.one).
  { unfold F32.one. split; [unfold normal_mantissa; lia|lia]. }
  destruct (div_good (-23) (-23) F32.one false mz ez Hgone Hmz
              ltac:(lia) ltac:(lia)) as [Hg1 H1].
  fold z in Hg1, H1. rewrite F2R_one in H1.
  set (g1 := F32.div F32.one z) in *.
  assert (Hinv : (2 / 5 <= / F2R z <= 2)%R).
  { split.
    - replace (2 / 5)%R with (/ (5 / 2))%R by field.
      apply Rinv_le_contravar; lra.
    - replace 2%R with (/ / 2)%R by field. apply Rinv_le_contravar; lra. }
  assert (Hz1 : (Rabs (1 / F2R z) <= 2)%R).
  { apply Rabs_le. unfold Rdiv. lra. }
  destruct (rel_err _ _ _ H1 Hz1) as [H1a H1b].
  destruct (sub_good (-25) (-21) F32.one g1) as [Hg2 H2]; try lia.
  { eapply good_weaken; [| |exact Hgone]; lia. }
  { eapply good_weaken; [| |exact Hg1]; lia. }
  rewrite F2R_one in H2. set (g2 := F32.sub F32.one g1) in *.
  apply Rabs_bounds in H1a.
  assert (H1g : (Rabs (1 - F2R g1) <= 2)%R).
  { apply Rabs_le. rewrite Hu in *. unfold Rdiv in H1a. lra. }
  destruct (rel_err _ _ _ H2 H1g) as [H2a H2b].
  destruct (mul_good (-24) (-1) (-48) (-19) h g2) as [Hgc Hc];
    [exact Hgh | exact Hg2 | lia | lia |].
  set (c := F32.mul h g2) in *.
  assert (Hhb : (Rabs (F2R h) <= 8192)%R).
  { rewrite Hh. destruct Hs as [S0 S1]. apply IZR_le in S0, S1.
    apply Rabs_le. lra. }
  assert (Hhg : (Rabs (F2R h * F2R g2) <= 8192 * 3)%R).
  { apply Rabs_mul_bound; [done|]. rewrite Hu in *. lra. }
  destruct (rel_err _ _ _ Hc Hhg) as [Hca Hcb].
  split; [eapply good_weaken; [| |exact Hgc]; lia|].
  replace (F2R c - IZR size / 2 * (1 - / F2R z))%R
    with ((F2R c - F2R h * F2R g2)
          + F2R h * (F2R g2 - (1 - F2R g1))
          + F2R h * (- (F2R g1 - 1 / F2R z)))%R
    by (rewrite Hh; field; lra).
  assert (T1 : (Rabs (F2R h * (F2R g2 - (1 - F2R g1))) <= 8192 * (2 * unit_roundoff * 2))%R)
    by (apply Rabs_mul_bound; done).
  assert (T2 : (Rabs (F2R h * (- (F2R g1 - 1 / F2R z)))
                <= 8192 * (2 * unit_roundoff * 2))%R).
  { apply Rabs_mul_bound; [done|]. rewrite Rabs_Ropp. apply Rabs_le. lra. }
  set (t1 := (F2R h * (F2R g2 - (1 - F2R g1)))%R) in *.
  set (t2 := (F2R h * (- (F2R g1 - 1 / F2R z)))%R) in *.
  apply Rabs_bounds in Hca, T1, T2. rewrite Hu in *.
  apply Rabs_le. lra.
Qed.

End Offset.

Section Assembly.

Local Abbreviation p23 := 8388608.
Local Abbreviation p24 := 16777216.

Lemma add_zero_r (x : float) :
  good (-149) 104 x -> x <> S754_zero true ->
  F32.add x (S754_zero false) = x.
Proof. destruct x as [[]| | |]; done. Qed.

Lemma sub_zero_r (x : float) :
  good (-149) 104 x -> x <> S754_zero true ->
  F32.sub x (S754_zero false) = x.
Proof. destruct x as [[]| | |]; done. Qed.

Lemma of_int_not_negative_zero (v : Z) :
  Z.abs v < 2 ^ 24 -> F32.of_int v <> S754_zero true.
Proof.
  intros Hv. destruct (of_int_cases v Hv) as [->|(s & m & e & -> & _)]; done.
Qed.

Lemma div_of_int_not_negative_zero (v : Z) (mz : positive) (ez : Z) :
  Z.abs v < 2 ^ 24 -> normal_mantissa mz -> -24 <= ez <= -22 ->
  good (-149) 104 (F32.div (F32.of_int v) (S754_finite false mz ez))
  /\ F32.div (F32.of_int v) (S754_finite false mz ez) <> S754_zero true.
Proof.
  intros Hv Hmz Hez.
  destruct (of_int_good v Hv) as [Hg _].
  destruct (div_good (-23) 0 _ false mz ez Hg Hmz ltac:(lia) ltac:(lia))
    as [Hgd _].
  split; [eapply good_weaken; [| |exact Hgd]; lia|].
  destruct (of_int_cases v Hv) as [->|(s & m & e & -> & Hm & He)]; [done|].
  destruct (div_value s false m mz e ez Hm Hmz ltac:(lia))
    as (m' & e' & -> & _); done.
Qed.

(** One size, mapped forward and back. *)
Lemma round_trip_size (mz : positive) (ez : Z) (v : Z) :
  let z := S754_finite false mz ez in
  normal_mantissa mz -> -24 <= ez <= -22 ->
  (/ 2 <= F2R z <= 5 / 2)%R ->
  Z.abs v <= 16384 ->
  let v' := forward_size z v in
  let v'' := F32.to_int32 (F32.round (F32.mul (F32.of_int v') z)) in
  Z.abs (v'' - v) <= 1
  /\ (Rabs (IZR v' - IZR v / F2R z) <= 51 / 100)%R
  /\ Z.abs v' < 2 ^ 24.
Proof.
  intros z Hmz Hez Hz Hv v' v''.
  destruct (round_trip_axis mz ez (S754_zero false) v Hmz Hez Hz I)
    as [H1 H2]; [simpl; rewrite Rabs_R0; lra | exact Hv |].
  fold z in H1, H2.
  destruct (div_of_int_not_negative_zero v mz ez ltac:(lia) Hmz Hez)
    as [Hg Hnz]. fold z in Hg, Hnz.
  rewrite (add_zero_r _ Hg Hnz) in H1, H2.
  fold (forward_size z v) in H1, H2. fold v' in H1, H2.
  change (F2R (S754_zero false)) with 0%R in H2. rewrite Rplus_0_r in H2.
  assert (Hv' : Z.abs v' < 2 ^ 24).
  { apply Zabs_lt_of_R. change (2 ^ 24) with p24.
    assert (Hq : (Rabs (IZR v / F2R z) <= 32768)%R).
    { unfold Rdiv. replace 32768%R with (16384 * 2)%R by lra.
      apply Rabs_mul_bound.
      - rewrite <- abs_IZR. apply IZR_le. lia.
      - rewrite Rabs_pos_eq by (apply Rlt_le, Rinv_0_lt_compat; lra).
        replace 2%R with (/ / 2)%R by field.
        apply Rinv_le_contravar; lra. }
    apply Rabs_bounds in H2, Hq. apply Rabs_def1; lra. }
  destruct (of_int_good v' Hv') as [Hg' _].
  rewrite (sub_zero_r (F32.of_int v')) in H1;
    [|eapply good_weaken; [| |exact Hg']; lia
     |by apply of_int_not_negative_zero].
  fold v'' in H1. done.
Qed.

(** At a zoom ratio of at least 1 the formula maps a region inside the
    active array to a region inside the active array. *)
Lemma forward_formula_inside (mz : positive) (ez : Z)
    (left top width height : Z) (dim : Dimension) :
  let z := S754_finite false mz ez in
  normal_mantissa mz -> -24 <= ez <= -22 ->
  (1 <= F2R z <= 5 / 2)%R ->
  Dimension.width dim <= 16384 -> Dimension.height dim <= 16384 ->
  inside_active_array left top width height dim ->
  let f := ForwardFormula z left top width height dim in
  inside_active_array (Region.left f) (Region.top f) (Region.width f)
    (Region.height f) dim.
Proof.
  intros z Hmz Hez Hz HW HH (Hl & Ht & Hw & Hh & Hlw & Hth) f.
  assert (Hz' : (/ 2 <= F2R z <= 5 / 2)%R) by lra.
  assert (Haxis : forall v w size : Z,
    0 <= v -> 0 <= w -> v + w <= size -> size <= 16384 ->
    0 <= forward_position z v size /\ 0 <= forward_size z w
    /\ forward_position z v size + forward_size z w <= size).
  { intros v w size Hv Hw0 Hvw Hsize.
    destruct (offset_value mz ez size Hmz Hez Hz' ltac:(lia)) as [Hgc Hc].
    fold z in Hgc, Hc.
    assert (Hinv : (0 <= 1 - / F2R z <= 3 / 5)%R).
    { assert (2 / 5 <= / F2R z <= 1)%R; [|lra]. split.
      - replace (2 / 5)%R with (/ (5 / 2))%R by field.
        apply Rinv_le_contravar; lra.
      - replace 1%R with (/ 1)%R by field. apply Rinv_le_contravar; lra. }
    set (t := (1 - / F2R z)%R) in *.
    assert (Hv' := IZR_le _ _ Hv). assert (Hw' := IZR_le _ _ Hw0).
    assert (Hvw' := IZR_le _ _ Hvw). assert (Hs' := IZR_le _ _ Hsize).
    rewrite plus_IZR in Hvw'.
    apply Rabs_bounds in Hc.
    destruct (round_trip_axis mz ez (utils.offset z size) v Hmz Hez Hz' Hgc)
      as [_ HA]; [apply Rabs_le; nra | lia |].
    destruct (round_trip_size mz ez w Hmz Hez Hz' ltac:(lia)) as (_ & HB & _).
    fold z in HA, HB. fold (utils.offset z size).
    change (F32.to_int32 (F32.round (F32.add (F32.div (F32.of_int v) z)
              (utils.offset z size)))) with (forward_position z v size) in HA.
    set (v' := forward_position z v size) in *.
    set (w' := forward_size z w) in *.
    set (c := F2R (utils.offset z size)) in *.
    apply Rabs_bounds in HA, HB.
    assert (Hvz : (IZR v / F2R z = IZR v - IZR v * t)%R)
      by (unfold t; field; lra).
    assert (Hwz : (IZR w / F2R z = IZR w - IZR w * t)%R)
      by (unfold t; field; lra).
    rewrite Hvz in HA. rewrite Hwz in HB.
    assert (Hvt : (0 <= IZR v * t <= IZR size * t)%R) by nra.
    assert (Hwt : (0 <= IZR w * t <= IZR size * t)%R) by nra.
    assert (Hst : (0 <= IZR size * t)%R) by nra.
    assert (G1 : (-1 < IZR v')%R) by nra.
    assert (G2 : (-1 < IZR w')%R) by nra.
    assert (G3 : (IZR v' + IZR w' < IZR size + 1)%R).
    { destruct (Rle_lt_dec (/ 10) (IZR size * t)) as [Hbig|Hsmall].
      - nra.
      - assert (IZR v' < IZR v + 1)%R by nra.
        assert (IZR w' < IZR w + 1)%R by nra.
        assert (Hv1 : v' <= v).
        { assert (v' < v + 1); [|lia]. apply lt_IZR. by rewrite plus_IZR. }
        assert (Hw1 : w' <= w).
        { assert (w' < w + 1); [|lia]. apply lt_IZR. by rewrite plus_IZR. }
        apply IZR_le in Hv1, Hw1. lra. }
    apply (lt_IZR (-1)) in G1, G2.
    rewrite <- !plus_IZR in G3. apply lt_IZR in G3. lia. }
  destruct (Haxis left width (Dimension.width dim)) as (A1 & A2 & A3);
    try lia.
  destruct (Haxis top height (Dimension.height dim)) as (B1 & B2 & B3);
    try lia.
  unfold f, ForwardFormula, inside_active_array.
  cbn [Region.left Region.top Region.width Region.height]. lia.
Qed.

End Assembly.

(** ** Round trip *)

(** C1, the claim as stated fails: with the range [1, 10], zoom ratio 10 and
    a 4000x3000 array, the region (3, 3, 100, 100) is mapped forward to
    (1800, 1350, 10, 10) and back to (0, 0, 100, 100): left and top are off
    by 3 pixels, and so are right and bottom. *)
Lemma C1_round_trip_counterexample :
  let r := ConvertZoomRatio ten 3 3 100 100 sample_dimension in
  let b :=
    utils.RevertZoomRatio ten (Region.left r) (Region.top r) (Region.width r)
      (Region.height r) sample_dimension in
  inside_active_array 3 3 100 100 sample_dimension
  /\ clamp_zoom_ratio (zoom_ratio_range_ sample_mapper) ten = ten
  /\ r = Region.mk 1800 1350 10 10
  /\ b = Region.mk 0 0 100 100
  /\ 1 < Z.abs (Region.left b - 3)
  /\ 1 < Z.abs ((Region.left b + Region.width b - 1) - (3 + 100 - 1)).
Proof.
  vm_compute. repeat split; try discriminate; reflexivity.
Qed.

(** The right bound is not recovered within 1 pixel even at zoom ratio 2.0:
    the region (1, 1, 1, 1) comes back as (2, 2, 2, 2), whose right bound is
    3 instead of 1.  And at zoom ratio 4.0 the left bound 2 comes back
    as 4. *)
Lemma round_trip_right_bound_example :
  let r := ConvertZoomRatio two 1 1 1 1 sample_dimension in
  let r4 := ConvertZoomRatio four 2 2 100 100 sample_dimension in
  utils.RevertZoomRatio two (Region.left r) (Region.top r) (Region.width r)
    (Region.height r) sample_dimension
  = Region.mk 2 2 2 2
  /\ Region.left
       (utils.RevertZoomRatio four (Region.left r4) (Region.top r4)
          (Region.width r4) (Region.height r4) sample_dimension)
     = 4.
Proof. vm_compute. split; reflexivity. Qed.

(** C1, amended: for every valid binary32 zoom ratio between 0.5 and 2.5,
    every active array of at most 16384 pixels per side and every region
    inside it, the forward transform followed by the backward transform
    returns a region whose left, top, width and height each differ from the
    original by at most 1 pixel.  (The right and bottom bounds can then be
    off by 2, and at larger ratios the backward transform multiplies the
    rounding error of the forward transform by the ratio: the deviation is
    not bounded by 1 pixel.) *)
Theorem C1_round_trip_within_one_pixel
    (zoom_ratio : float) (left top width height : Z) (dim : Dimension) :
  F32.valid zoom_ratio = true ->
  F32.leb F32.half zoom_ratio = true ->
  F32.leb zoom_ratio two_and_half = true ->
  Dimension.width dim <= 16384 -> Dimension.height dim <= 16384 ->
  inside_active_array left top width height dim ->
  let r := ConvertZoomRatio zoom_ratio left top width height dim in
  let b :=
    utils.RevertZoomRatio zoom_ratio (Region.left r) (Region.top r)
      (Region.width r) (Region.height r) dim in
  Z.abs (Region.left b - left) <= 1 /\ Z.abs (Region.top b - top) <= 1
  /\ Z.abs (Region.width b - width) <= 1
  /\ Z.abs (Region.height b - height) <= 1.
Proof.
  intros Hvalid Hlo Hhi HW HH Hin r b.
  destruct (zoom_ratio_cases zoom_ratio Hvalid Hlo Hhi)
    as (mz & ez & -> & Hmz & Hez & Hz & Hge & Hlt).
  set (z := S754_finite false mz ez) in *.
  assert (Hr : r = ForwardFormula z left top width height dim).
  { unfold r. rewrite ConvertZoomRatio_formula.
    destruct (F32.leb F32.one z) eqn:Hone; [|reflexivity].
    specialize (Hge eq_refl).
    apply (CorrectRegionBoundary_inside _ _ _ _ dim);
      [|change (2 ^ 31) with 2147483648; lia
       |change (2 ^ 31) with 2147483648; lia].
    apply (forward_formula_inside mz ez left top width height dim Hmz Hez);
      [unfold z in *; destruct Hz; split; lra | exact HW | exact HH
      | exact Hin]. }
  destruct Hin as (Hl & Ht & Hw & Hh & Hlw & Hth).
  destruct (offset_value mz ez (Dimension.width dim) Hmz Hez Hz ltac:(lia))
    as [HgW HcW].
  destruct (offset_value mz ez (Dimension.height dim) Hmz Hez Hz ltac:(lia))
    as [HgH HcH].
  fold z in HgW, HcW, HgH, HcH.
  assert (Hbound : forall size : Z, 0 <= size <= 16384 ->
    (Rabs (F2R (utils.offset z size) - IZR size / 2 * (1 - / F2R z))
     <= / 100)%R ->
    (Rabs (F2R (utils.offset z size)) <= 16384)%R).
  { intros size [S0 S1] Hc. apply IZR_le in S0, S1.
    assert (Hinv : (2 / 5 <= / F2R z <= 2)%R).
    { split.
      - replace (2 / 5)%R with (/ (5 / 2))%R by field.
        apply Rinv_le_contravar; lra.
      - replace 2%R with (/ / 2)%R by field.
        apply Rinv_le_contravar; lra. }
    apply Rabs_bounds in Hc. apply Rabs_le. nra. }
  destruct (round_trip_axis mz ez (utils.offset z (Dimension.width dim)) left
              Hmz Hez Hz HgW) as [Hleft _];
    [apply Hbound; [lia|done] | lia |].
  destruct (round_trip_axis mz ez (utils.offset z (Dimension.height dim)) top
              Hmz Hez Hz HgH) as [Htop _];
    [apply Hbound; [lia|done] | lia |].
  destruct (round_trip_size mz ez width Hmz Hez Hz ltac:(lia))
    as (Hwidth & _ & _).
  destruct (round_trip_size mz ez height Hmz Hez Hz ltac:(lia))
    as (Hheight & _ & _).
  unfold b. rewrite Hr. unfold utils.RevertZoomRatio, ForwardFormula.
  cbn [Region.left Region.top Region.width Region.height].
  split; [exact Hleft|]. split; [exact Htop|].
  split; [exact Hwidth|exact Hheight].
Qed.


Lemma C1_round_trip_witness :
  let r := ConvertZoomRatio two 3 3 101 101 sample_dimension in
  let b :=
    utils.RevertZoomRatio two (Region.left r) (Region.top r)
      (Region.width r) (Region.height r) sample_dimension in
  Z.abs (Region.left b - 3) <= 1 /\ Z.abs (Region.top b - 3) <= 1
  /\ Z.abs (Region.width b - 101) <= 1
  /\ Z.abs (Region.height b - 101) <= 1.
Proof.
  apply (C1_round_trip_within_one_pixel two 3 3 101 101 sample_dimension).
  - reflexivity.
  - reflexivity.
  - reflexivity.
  - simpl. lia.
  - simpl. lia.
  - unfold inside_active_array. simpl. lia.
Defined.

(** * Further properties of the mapper *)

(** ** The set of tags of a bundle *)

Section Domain.

Context (zoom_ratio : float) (dim : Dimension).

Lemma UpdateCropRegion_dom (metadata : HalCameraMetadata) (is_request : bool) :
  dom (UpdateCropRegion metadata zoom_ratio dim is_request) = dom metadata.
Proof.
  unfold UpdateCropRegion, Get, Set_.
  destruct (metadata !! ANDROID_SCALER_CROP_REGION) as [entry|] eqn:E; [|done].
  destruct (count entry =? 0)%nat; [done|].
  by apply dom_insert_lookup_L.
Qed.

Lemma Update3ARegion_dom (metadata : HalCameraMetadata) (tag_id : Tag)
    (is_request : bool) :
  dom (Update3ARegion metadata zoom_ratio tag_id dim is_request) = dom metadata.
Proof.
  unfold Update3ARegion, Get, Set_.
  destruct (metadata !! tag_id) as [entry|] eqn:E; [|done].
  destruct (count entry =? 0)%nat; [done|].
  by apply dom_insert_lookup_L.
Qed.

Lemma UpdateFaceRectangles_dom (metadata : HalCameraMetadata) :
  dom (UpdateFaceRectangles metadata zoom_ratio dim) = dom metadata.
Proof.
  unfold UpdateFaceRectangles, Get, Set_.
  destruct (metadata !! ANDROID_STATISTICS_FACE_RECTANGLES) as [entry|] eqn:E;
    [|done].
  destruct (count entry =? 0)%nat; [done|].
  by apply dom_insert_lookup_L.
Qed.

Lemma UpdateFaceLandmarks_dom (metadata : HalCameraMetadata) :
  dom (UpdateFaceLandmarks metadata zoom_ratio dim) = dom metadata.
Proof.
  unfold UpdateFaceLandmarks, Get, Set_.
  destruct (metadata !! ANDROID_STATISTICS_FACE_LANDMARKS) as [entry|] eqn:E;
    [|done].
  destruct (count entry =? 0)%nat; [done|].
  by apply dom_insert_lookup_L.
Qed.

Lemma update_regions_dom (metadata : HalCameraMetadata) (is_request : bool) :
  dom (update_regions metadata zoom_ratio dim is_request) = dom metadata.
Proof.
  unfold update_regions.
  by rewrite !Update3ARegion_dom, UpdateCropRegion_dom.
Qed.

Lemma apply_face_regions_dom (metadata : HalCameraMetadata) :
  dom (apply_face_regions metadata zoom_ratio dim) = dom metadata.
Proof.
  unfold apply_face_regions.
  destruct (Get metadata ANDROID_STATISTICS_FACE_DETECT_MODE); [|done].
  repeat case_match; try done.
  - by rewrite UpdateFaceRectangles_dom, UpdateFaceLandmarks_dom.
  - by rewrite UpdateFaceRectangles_dom.
Qed.

End Domain.

(** X1: [ApplyZoomRatio] neither adds a tag to a bundle nor removes one: the
    set of tags of the bundle it returns is the set of tags it was given, on
    the request path and on the result path. *)
Theorem ApplyZoomRatio_keeps_the_set_of_tags
    (this : ZoomRatioMapper) (metadata : HalCameraMetadata) (dim : Dimension)
    (is_request : bool) :
  dom (apply_zoom_ratio this metadata dim is_request) = dom metadata.
Proof.
  unfold apply_zoom_ratio.
  destruct (Get metadata ANDROID_CONTROL_ZOOM_RATIO); [|done].
  destruct is_request.
  - apply update_regions_dom.
  - by rewrite apply_face_regions_dom, update_regions_dom.
Qed.

(** X2: [ApplyZoomRatio] writes the region tags only.  The entry of every
    other tag stays as it was: the crop region and the three 3A tags are the
    only ones a request can come back with changed, the two face tags are
    added to them for a result.  In particular the zoom-ratio entry is never
    rewritten, also when the ratio in it was out of range. *)
Theorem ApplyZoomRatio_writes_region_tags_only
    (this : ZoomRatioMapper) (metadata : HalCameraMetadata) (dim : Dimension)
    (is_request : bool) (t : Tag) :
  t ∉ written_tags is_request ->
  apply_zoom_ratio this metadata dim is_request !! t = metadata !! t.
Proof.
  intros Ht. unfold apply_zoom_ratio.
  destruct (Get metadata ANDROID_CONTROL_ZOOM_RATIO); [|done].
  destruct is_request; cbn in Ht.
  - apply update_regions_other; intros ->; apply Ht; set_solver.
  - rewrite apply_face_regions_other by (intros ->; apply Ht; set_solver).
    apply update_regions_other; intros ->; apply Ht; set_solver.
Qed.

(** The sample request asks for ratio 0.5 and is transformed at ratio 1.0;
    its zoom-ratio entry still holds 0.5. *)
Lemma ApplyZoomRatio_writes_region_tags_only_witness :
  apply_zoom_ratio sample_mapper sample_request_metadata sample_dimension true
    !! ANDROID_CONTROL_ZOOM_RATIO
  = Some (entry_f [F32.half]).
Proof.
  rewrite (ApplyZoomRatio_writes_region_tags_only sample_mapper
             sample_request_metadata sample_dimension true
             ANDROID_CONTROL_ZOOM_RATIO).
  - reflexivity.
  - by apply (bool_decide_unpack _).
Defined.

(** ** Cameras and null pointers *)

(** X3: [UpdateCaptureRequest] and [UpdateCaptureResult] keep the shape of
    what they are given: the logical metadata pointer is null afterwards
    exactly when it was null before, the physical-camera map has the same
    camera ids, and a camera id holds a null pointer afterwards exactly when
    it did before. *)
Theorem UpdateCapture_keeps_cameras_and_null_pointers
    (this : ZoomRatioMapper) (req : CaptureRequest) (res : CaptureResult) :
  exists (req' : CaptureRequest) (res' : CaptureResult),
    UpdateCaptureRequest this (Some req) = Some req'
    /\ UpdateCaptureResult this (Some res) = Some res'
    /\ (settings req' = None <-> settings req = None)
    /\ (result_metadata res' = None <-> result_metadata res = None)
    /\ dom (physical_camera_settings req') = dom (physical_camera_settings req)
    /\ dom (physical_metadata res') = dom (physical_metadata res)
    /\ (forall camera_id : N,
          physical_camera_settings req' !! camera_id = Some None
          <-> physical_camera_settings req !! camera_id = Some None)
    /\ (forall camera_id : N,
          physical_metadata res' !! camera_id = Some None
          <-> physical_metadata res !! camera_id = Some None).
Proof.
  unfold UpdateCaptureRequest, UpdateCaptureResult.
  destruct (is_zoom_ratio_supported_ this); simpl.
  2: { exists req, res. by repeat split. }
  eexists _, _. split; [reflexivity|]. split; [reflexivity|]. simpl.
  assert (Hdom : forall (b : bool) (m : gmap N (option HalCameraMetadata)),
             dom (map_imap (fun camera_id metadata =>
                              Some (update_physical this b camera_id metadata))
                           m) = dom m).
  { intros b m. apply set_eq. intros i. rewrite !elem_of_dom, map_lookup_imap.
    destruct (m !! i); simpl; split; intros [x Hx]; by eauto. }
  assert (Hnull : forall (b : bool) (m : gmap N (option HalCameraMetadata)) i,
             map_imap (fun camera_id metadata =>
                         Some (update_physical this b camera_id metadata))
                      m !! i = Some None
             <-> m !! i = Some None).
  { intros b m i. rewrite map_lookup_imap.
    destruct (m !! i) as [[md|]|]; simpl; [|done|done].
    unfold update_physical, ApplyZoomRatio.
    destruct (physical_cam_active_array_dimension_ this !! i); split; done. }
  split; [by destruct (settings req)|].
  split; [by destruct (result_metadata res)|].
  split; [apply Hdom|]. split; [apply Hdom|].
  split; intros camera_id; apply Hnull.
Qed.

(** ** Bundles without regions *)

Section Skipped.

Context (zoom_ratio : float) (dim : Dimension).

Lemma UpdateCropRegion_nothing (metadata : HalCameraMetadata)
    (is_request : bool) :
  nothing_to_update metadata ANDROID_SCALER_CROP_REGION ->
  UpdateCropRegion metadata zoom_ratio dim is_request = metadata.
Proof.
  unfold nothing_to_update, UpdateCropRegion.
  destruct (Get metadata ANDROID_SCALER_CROP_REGION); [|done].
  by intros ->.
Qed.

Lemma Update3ARegion_nothing (metadata : HalCameraMetadata) (tag_id : Tag)
    (is_request : bool) :
  nothing_to_update metadata tag_id ->
  Update3ARegion metadata zoom_ratio tag_id dim is_request = metadata.
Proof.
  unfold nothing_to_update, Update3ARegion.
  destruct (Get metadata tag_id); [|done].
  by intros ->.
Qed.

Lemma UpdateFaceRectangles_nothing (metadata : HalCameraMetadata) :
  nothing_to_update metadata ANDROID_STATISTICS_FACE_RECTANGLES ->
  UpdateFaceRectangles metadata zoom_ratio dim = metadata.
Proof.
  unfold nothing_to_update, UpdateFaceRectangles.
  destruct (Get metadata ANDROID_STATISTICS_FACE_RECTANGLES); [|done].
  by intros ->.
Qed.

Lemma UpdateFaceLandmarks_nothing (metadata : HalCameraMetadata) :
  nothing_to_update metadata ANDROID_STATISTICS_FACE_LANDMARKS ->
  UpdateFaceLandmarks metadata zoom_ratio dim = metadata.
Proof.
  unfold nothing_to_update, UpdateFaceLandmarks.
  destruct (Get metadata ANDROID_STATISTICS_FACE_LANDMARKS); [|done].
  by intros ->.
Qed.

End Skipped.

(** X4: an entry that holds no value is treated like an absent one.  A bundle
    in which each region tag of its path is absent or empty comes back
    exactly as it was, whatever its zoom ratio and (for a result) its
    face-detection mode: no empty entry is rewritten and none is created. *)
Theorem ApplyZoomRatio_without_regions_changes_nothing
    (this : ZoomRatioMapper) (metadata : HalCameraMetadata) (dim : Dimension)
    (is_request : bool) :
  (forall t : Tag,
      t ∈ written_tags is_request -> nothing_to_update metadata t) ->
  apply_zoom_ratio this metadata dim is_request = metadata.
Proof.
  intros Hnone. unfold apply_zoom_ratio.
  destruct (Get metadata ANDROID_CONTROL_ZOOM_RATIO) as [entry|]; [|done].
  set (z := clamp_zoom_ratio _ _).
  assert (Hregions : update_regions metadata z dim is_request = metadata).
  { unfold update_regions.
    rewrite UpdateCropRegion_nothing
      by (apply Hnone; unfold written_tags; set_solver).
    rewrite (Update3ARegion_nothing z dim metadata ANDROID_CONTROL_AE_REGIONS)
      by (apply Hnone; unfold written_tags; set_solver).
    rewrite (Update3ARegion_nothing z dim metadata ANDROID_CONTROL_AF_REGIONS)
      by (apply Hnone; unfold written_tags; set_solver).
    apply Update3ARegion_nothing, Hnone. unfold written_tags. set_solver. }
  rewrite Hregions. destruct is_request; [done|].
  unfold apply_face_regions.
  destruct (Get metadata ANDROID_STATISTICS_FACE_DETECT_MODE); [|done].
  rewrite UpdateFaceLandmarks_nothing
    by (apply Hnone; unfold written_tags; set_solver).
  rewrite UpdateFaceRectangles_nothing
    by (apply Hnone; unfold written_tags; set_solver).
  by repeat case_match.
Qed.

(** A result in mode FULL whose face tags are published empty. *)
Lemma ApplyZoomRatio_without_regions_witness :
  apply_zoom_ratio sample_mapper empty_faces_metadata sample_dimension false
  = empty_faces_metadata.
Proof.
  apply (ApplyZoomRatio_without_regions_changes_nothing sample_mapper
           empty_faces_metadata sample_dimension false).
  intros t Ht. unfold written_tags in Ht. cbn in Ht.
  repeat (apply elem_of_cons in Ht as [->|Ht]; [by vm_compute|]).
  by apply elem_of_nil in Ht.
Defined.

(** ** The order of the updates *)

Section Commute.

Context (zoom_ratio : float) (dim : Dimension).

Lemma Update3ARegion_comm (metadata : HalCameraMetadata) (t1 t2 : Tag)
    (is_request : bool) :
  Update3ARegion (Update3ARegion metadata zoom_ratio t1 dim is_request)
    zoom_ratio t2 dim is_request
  = Update3ARegion (Update3ARegion metadata zoom_ratio t2 dim is_request)
      zoom_ratio t1 dim is_request.
Proof.
  destruct (decide (t1 = t2)) as [->|Hne]; [done|].
  apply map_eq. intros t.
  destruct (decide (t = t2)) as [->|H2].
  - rewrite Update3ARegion_own, Update3ARegion_other by done.
    rewrite Update3ARegion_other by done.
    by rewrite Update3ARegion_own.
  - rewrite (Update3ARegion_other _ _ _ t2) by done.
    destruct (decide (t = t1)) as [->|H1].
    + rewrite !Update3ARegion_own. by rewrite Update3ARegion_other.
    + by rewrite !Update3ARegion_other.
Qed.

Lemma UpdateFaceRectangles_after_landmarks (metadata : HalCameraMetadata) :
  UpdateFaceRectangles (UpdateFaceLandmarks metadata zoom_ratio dim)
    zoom_ratio dim
  = UpdateFaceLandmarks (UpdateFaceRectangles metadata zoom_ratio dim)
      zoom_ratio dim.
Proof.
  unfold UpdateFaceRectangles, UpdateFaceLandmarks, Get, Set_.
  destruct (metadata !! ANDROID_STATISTICS_FACE_RECTANGLES) as [rects|] eqn:Er;
    destruct (metadata !! ANDROID_STATISTICS_FACE_LANDMARKS) as [marks|] eqn:El;
    try destruct (count rects =? 0)%nat eqn:Cr;
    try destruct (count marks =? 0)%nat eqn:Cl;
    rewrite ?lookup_insert_ne, ?Er, ?El, ?Cr, ?Cl by done;
    try reflexivity.
  by apply insert_insert_ne.
Qed.

Lemma Update3ARegion_after_crop (metadata : HalCameraMetadata) (tag_id : Tag)
    (is_request : bool) :
  tag_id <> ANDROID_SCALER_CROP_REGION ->
  Update3ARegion (UpdateCropRegion metadata zoom_ratio dim is_request)
    zoom_ratio tag_id dim is_request
  = UpdateCropRegion (Update3ARegion metadata zoom_ratio tag_id dim is_request)
      zoom_ratio dim is_request.
Proof.
  intros Hne. apply map_eq. intros t.
  destruct (decide (t = tag_id)) as [->|H1].
  - rewrite Update3ARegion_own, !UpdateCropRegion_other by done.
    by rewrite Update3ARegion_own.
  - rewrite Update3ARegion_other by done.
    destruct (decide (t = ANDROID_SCALER_CROP_REGION)) as [->|H2].
    + rewrite !UpdateCropRegion_own. by rewrite Update3ARegion_other.
    + rewrite !UpdateCropRegion_other by done.
      by rewrite Update3ARegion_other.
Qed.

End Commute.

(** X5: the updates of [ApplyZoomRatio] can be run in any order.  In mode
    FULL, landmarks then rectangles gives the same bundle as rectangles then
    landmarks; two 3A updates commute; and a 3A update commutes with the
    crop-region update. *)
Theorem region_updates_commute
    (zoom_ratio : float) (dim : Dimension) (metadata : HalCameraMetadata)
    (is_request : bool) :
  UpdateFaceRectangles (UpdateFaceLandmarks metadata zoom_ratio dim)
    zoom_ratio dim
  = UpdateFaceLandmarks (UpdateFaceRectangles metadata zoom_ratio dim)
      zoom_ratio dim
  /\ (forall t1 t2 : Tag,
        Update3ARegion (Update3ARegion metadata zoom_ratio t1 dim is_request)
          zoom_ratio t2 dim is_request
        = Update3ARegion (Update3ARegion metadata zoom_ratio t2 dim is_request)
            zoom_ratio t1 dim is_request)
  /\ (forall t : Tag,
        t <> ANDROID_SCALER_CROP_REGION ->
        Update3ARegion (UpdateCropRegion metadata zoom_ratio dim is_request)
          zoom_ratio t dim is_request
        = UpdateCropRegion (Update3ARegion metadata zoom_ratio t dim is_request)
            zoom_ratio dim is_request).
Proof.
  split; [apply UpdateFaceRectangles_after_landmarks|].
  split; [intros t1 t2; apply Update3ARegion_comm|].
  intros t Ht. by apply Update3ARegion_after_crop.
Qed.

(** ** Arrays of tuples *)

Section Tuples.

Lemma length_concat_tuples (k : nat) (f : nat -> list Z) (l : list nat) :
  (forall i, length (f i) = k) ->
  length (concat (map f l)) = (k * length l)%nat.
Proof.
  intros Hk. induction l as [|i l IH]; simpl; [lia|].
  rewrite length_app, Hk, IH. lia.
Qed.

Lemma nth_concat_tuples (k : nat) (f : nat -> list Z) (s n i j : nat) :
  (forall i, length (f i) = k) ->
  (i < n)%nat -> (j < k)%nat ->
  nth (k * i + j) (concat (map f (seq s n))) 0 = nth j (f (s + i)%nat) 0.
Proof.
  intros Hk. revert s i. induction n as [|n IH]; intros s i Hi Hj; [lia|].
  simpl. destruct i as [|i].
  - rewrite Nat.mul_0_r, Nat.add_0_r. simpl.
    rewrite app_nth1 by (rewrite Hk; lia). reflexivity.
  - rewrite app_nth2 by (rewrite Hk; lia). rewrite Hk.
    replace (k * S i + j - k)%nat with (k * i + j)%nat by lia.
    rewrite IH by lia. f_equal. f_equal. lia.
Qed.

(** A list of [k * n] values is the concatenation of its [n] tuples. *)
Lemma concat_tuples_id (k n : nat) (f : nat -> list Z) (data : list Z) :
  length data = (k * n)%nat ->
  (forall i, length (f i) = k) ->
  (forall i j, (i < n)%nat -> (j < k)%nat ->
     nth j (f i) 0 = nth (k * i + j) data 0) ->
  concat (map f (seq 0 n)) = data.
Proof.
  intros Hlen Hk Hnth. apply (nth_ext _ _ 0 0).
  - rewrite (length_concat_tuples k) by done. by rewrite length_seq.
  - intros p Hp. rewrite (length_concat_tuples k), length_seq in Hp by done.
    assert (Hk0 : k <> 0%nat) by lia.
    pose proof (Nat.div_mod p k Hk0) as Hdm.
    pose proof (Nat.mod_upper_bound p k Hk0) as Hm.
    assert (Hi : (p / k < n)%nat) by (apply Nat.Div0.div_lt_upper_bound; lia).
    rewrite Hdm at 1. rewrite (nth_concat_tuples k) by done.
    rewrite Nat.add_0_l, Hnth by done. by rewrite <- Hdm.
Qed.

Lemma tuple_value (k n : nat) (lo hi : Z) (data : list Z) (i j : nat) :
  length data = (k * n)%nat -> Forall (fun v => lo <= v < hi) data ->
  (i < n)%nat -> (j < k)%nat ->
  lo <= nth (k * i + j) data 0 < hi.
Proof.
  intros Hlen Hall Hi Hj.
  apply (proj1 (List.Forall_forall _ data) Hall), List.nth_In.
  rewrite Hlen. nia.
Qed.

Lemma tuple_count (k n : nat) (data : list Z) :
  k <> 0%nat -> length data = (k * n)%nat -> (length data / k = n)%nat.
Proof.
  intros Hk ->. rewrite Nat.mul_comm. by apply Nat.div_mul.
Qed.

End Tuples.

Section Written.

Context (zoom_ratio : float) (dim : Dimension).

Lemma Update3ARegion_data (metadata : HalCameraMetadata) (tag_id : Tag)
    (is_request : bool) (entry : camera_metadata_ro_entry) :
  Get metadata tag_id = Some entry -> count entry <> 0%nat ->
  Get (Update3ARegion metadata zoom_ratio tag_id dim is_request) tag_id
  = Some (entry_i32 (concat (map
      (fun i => weighted_rect_data
                  (update_3a_region zoom_ratio dim is_request
                     (weighted_rect_at entry i)))
      (seq 0 (count entry / 5))))).
Proof.
  intros Hget Hcount. unfold Get in *.
  rewrite Update3ARegion_own, Hget. unfold region_3a_entry.
  destruct (Nat.eqb_spec (count entry) 0); [done|].
  by rewrite map_map.
Qed.

Lemma UpdateFaceRectangles_data (metadata : HalCameraMetadata)
    (entry : camera_metadata_ro_entry) :
  Get metadata ANDROID_STATISTICS_FACE_RECTANGLES = Some entry ->
  count entry <> 0%nat ->
  Get (UpdateFaceRectangles metadata zoom_ratio dim)
    ANDROID_STATISTICS_FACE_RECTANGLES
  = Some (entry_i32 (concat (map
      (fun i => rect_data (update_face_rect zoom_ratio dim (rect_at entry i)))
      (seq 0 (count entry / 4))))).
Proof.
  intros Hget Hcount. unfold UpdateFaceRectangles, Set_. rewrite Hget.
  destruct (Nat.eqb_spec (count entry) 0); [done|].
  unfold Get. rewrite lookup_insert_eq. by rewrite map_map.
Qed.

Lemma UpdateFaceLandmarks_data (metadata : HalCameraMetadata)
    (entry : camera_metadata_ro_entry) :
  Get metadata ANDROID_STATISTICS_FACE_LANDMARKS = Some entry ->
  count entry <> 0%nat ->
  Get (UpdateFaceLandmarks metadata zoom_ratio dim)
    ANDROID_STATISTICS_FACE_LANDMARKS
  = Some (entry_i32 (concat (map
      (fun i => concat (map
         (fun p => point_data (utils.RevertZoomRatioPoint zoom_ratio p dim))
         (landmark_points entry i)))
      (seq 0 (count entry / 6))))).
Proof.
  intros Hget Hcount. unfold UpdateFaceLandmarks, Set_. rewrite Hget.
  destruct (Nat.eqb_spec (count entry) 0); [done|].
  unfold Get. rewrite lookup_insert_eq. do 2 f_equal.
  generalize (seq 0 (count entry / 6)). intros l.
  induction l as [|i l IH]; [done|].
  cbn [map concat]. rewrite map_app, concat_app, IH. by rewrite map_map.
Qed.

End Written.

(** X6: whatever the length of the array it reads, an update writes whole
    tuples.  The crop region is written back with exactly 4 values; 3A
    regions with [5 * (count / 5)] values, face rectangles with
    [4 * (count / 4)] and face landmarks with [6 * (count / 6)]: the values
    after the last whole tuple are dropped, and an array shorter than one
    tuple is replaced by an empty one. *)
Theorem updates_store_whole_tuples
    (zoom_ratio : float) (dim : Dimension) (metadata : HalCameraMetadata)
    (entry : camera_metadata_ro_entry) :
  count entry <> 0%nat ->
  (forall is_request : bool,
      Get metadata ANDROID_SCALER_CROP_REGION = Some entry ->
      exists entry',
        Get (UpdateCropRegion metadata zoom_ratio dim is_request)
          ANDROID_SCALER_CROP_REGION = Some entry'
        /\ count entry' = 4%nat)
  /\ (forall (tag_id : Tag) (is_request : bool),
        Get metadata tag_id = Some entry ->
        exists entry',
          Get (Update3ARegion metadata zoom_ratio tag_id dim is_request) tag_id
          = Some entry'
          /\ count entry' = (5 * (count entry / 5))%nat)
  /\ (Get metadata ANDROID_STATISTICS_FACE_RECTANGLES = Some entry ->
      exists entry',
        Get (UpdateFaceRectangles metadata zoom_ratio dim)
          ANDROID_STATISTICS_FACE_RECTANGLES = Some entry'
        /\ count entry' = (4 * (count entry / 4))%nat)
  /\ (Get metadata ANDROID_STATISTICS_FACE_LANDMARKS = Some entry ->
      exists entry',
        Get (UpdateFaceLandmarks metadata zoom_ratio dim)
          ANDROID_STATISTICS_FACE_LANDMARKS = Some entry'
        /\ count entry' = (6 * (count entry / 6))%nat).
Proof.
  intros Hcount. split; [|split; [|split]].
  - intros is_request Hget. unfold Get in *.
    rewrite UpdateCropRegion_own, Hget. unfold crop_region_entry.
    destruct (Nat.eqb_spec (count entry) 0); [done|]. by eexists.
  - intros tag_id is_request Hget.
    rewrite (Update3ARegion_data _ _ _ _ _ entry) by done.
    eexists. split; [reflexivity|]. cbn [count].
    rewrite (length_concat_tuples 5) by done. by rewrite length_seq.
  - intros Hget. rewrite (UpdateFaceRectangles_data _ _ _ entry) by done.
    eexists. split; [reflexivity|]. cbn [count].
    rewrite (length_concat_tuples 4) by done. by rewrite length_seq.
  - intros Hget. rewrite (UpdateFaceLandmarks_data _ _ _ entry) by done.
    eexists. split; [reflexivity|]. cbn [count].
    rewrite (length_concat_tuples 6) by done. by rewrite length_seq.
Qed.

(** Seven values under the auto-exposure tag: one region is written back and
    the two trailing values are dropped. *)
Lemma updates_store_whole_tuples_witness :
  exists entry',
    Get (Update3ARegion
           {[ ANDROID_CONTROL_AE_REGIONS :=
                entry_i32 [100; 100; 199; 199; 1; 7; 7] ]}
           two ANDROID_CONTROL_AE_REGIONS sample_dimension true)
      ANDROID_CONTROL_AE_REGIONS = Some entry'
    /\ count entry' = 5%nat.
Proof.
  destruct (updates_store_whole_tuples two sample_dimension
              {[ ANDROID_CONTROL_AE_REGIONS :=
                   entry_i32 [100; 100; 199; 199; 1; 7; 7] ]}
              (entry_i32 [100; 100; 199; 199; 1; 7; 7]))
    as (_ & H3a & _); [discriminate|].
  apply (H3a ANDROID_CONTROL_AE_REGIONS true). reflexivity.
Defined.

(** X7: [Update3ARegion] transforms the regions one by one and in place:
    region [i] of the array it writes is the transform of region [i] of the
    array it read, computed from that region alone, and it carries the weight
    of region [i] unchanged. *)
Theorem Update3ARegion_transforms_each_region_and_keeps_its_weight
    (zoom_ratio : float) (dim : Dimension) (metadata : HalCameraMetadata)
    (tag_id : Tag) (is_request : bool) (entry : camera_metadata_ro_entry)
    (i : nat) :
  Get metadata tag_id = Some entry ->
  (i < count entry / 5)%nat ->
  exists entry',
    Get (Update3ARegion metadata zoom_ratio tag_id dim is_request) tag_id
    = Some entry'
    /\ weighted_rect_at entry' i
       = update_3a_region zoom_ratio dim is_request (weighted_rect_at entry i)
    /\ WeightedRect.weight (weighted_rect_at entry' i)
       = WeightedRect.weight (weighted_rect_at entry i).
Proof.
  intros Hget Hi.
  assert (Hcount : count entry <> 0%nat)
    by (intros E; rewrite E in Hi; simpl in Hi; lia).
  rewrite (Update3ARegion_data _ _ _ _ _ entry) by done.
  eexists. split; [reflexivity|].
  assert (Hat : forall j, (j < 5)%nat ->
            data_i32 (entry_i32 (concat (map
              (fun i => weighted_rect_data
                          (update_3a_region zoom_ratio dim is_request
                             (weighted_rect_at entry i)))
              (seq 0 (count entry / 5))))) (5 * i + j)
            = nth j (weighted_rect_data
                       (update_3a_region zoom_ratio dim is_request
                          (weighted_rect_at entry i))) 0).
  { intros j Hj. cbn [data_i32].
    by rewrite (nth_concat_tuples 5) by done. }
  assert (Heq : forall e', weighted_rect_at e' i
            = WeightedRect.mk (data_i32 e' (5 * i + 0)) (data_i32 e' (5 * i + 1))
                (data_i32 e' (5 * i + 2)) (data_i32 e' (5 * i + 3))
                (data_i32 e' (5 * i + 4))).
  { intros e'. unfold weighted_rect_at. by rewrite Nat.add_0_r. }
  assert (Hrect : weighted_rect_at (entry_i32 (concat (map
              (fun i => weighted_rect_data
                          (update_3a_region zoom_ratio dim is_request
                             (weighted_rect_at entry i)))
              (seq 0 (count entry / 5))))) i
          = update_3a_region zoom_ratio dim is_request
              (weighted_rect_at entry i)).
  { rewrite Heq, !Hat by lia. reflexivity. }
  split; [exact Hrect|]. rewrite Hrect. reflexivity.
Qed.

(** Two auto-exposure regions of weights 3 and 7: the second region written
    back has weight 7. *)
Lemma Update3ARegion_keeps_weight_witness :
  exists entry',
    Get (Update3ARegion
           {[ ANDROID_CONTROL_AE_REGIONS :=
                entry_i32 [0; 0; 99; 99; 3; 100; 100; 199; 199; 7] ]}
           two ANDROID_CONTROL_AE_REGIONS sample_dimension true)
      ANDROID_CONTROL_AE_REGIONS = Some entry'
    /\ WeightedRect.weight (weighted_rect_at entry' 1) = 7.
Proof.
  destruct (Update3ARegion_transforms_each_region_and_keeps_its_weight
              two sample_dimension
              {[ ANDROID_CONTROL_AE_REGIONS :=
                   entry_i32 [0; 0; 99; 99; 3; 100; 100; 199; 199; 7] ]}
              ANDROID_CONTROL_AE_REGIONS true
              (entry_i32 [0; 0; 99; 99; 3; 100; 100; 199; 199; 7]) 1%nat)
    as (entry' & Hget & _ & Hweight); [reflexivity|simpl; lia|].
  exists entry'. split; [exact Hget|]. exact Hweight.
Defined.

Section Unsigned.

Lemma to_uint32_range (x : float) : 0 <= F32.to_uint32 x <= 2 ^ 32 - 1.
Proof.
  assert (Hc : forall z, 0 <= F32.clamp 0 (2 ^ 32 - 1) z <= 2 ^ 32 - 1).
  { intros z. unfold F32.clamp.
    destruct (Z.ltb_spec z 0); [lia|].
    destruct (Z.ltb_spec (2 ^ 32 - 1) z); lia. }
  unfold F32.to_uint32, F32.to_range.
  destruct (F32.trunc x); [apply Hc|].
  destruct x as [| [] | |]; try apply Hc; lia.
Qed.

(** A [uint32_t] stored as [int32_t] and read back as [uint32_t]. *)
Lemma uint32_int32 (z : Z) : 0 <= z <= 2 ^ 32 - 1 -> uint32 (int32 z) = z.
Proof.
  intros Hz. unfold uint32, int32.
  change (2 ^ 31) with 2147483648. change (2 ^ 32) with 4294967296 in *.
  destruct (Z.ltb_spec z 2147483648).
  - rewrite (Z.mod_small (z + 2147483648)) by lia.
    rewrite Z.mod_small; lia.
  - replace (z + 2147483648) with (z - 2147483648 + 1 * 4294967296) by lia.
    rewrite Z.mod_add by lia. rewrite (Z.mod_small (z - 2147483648)) by lia.
    replace (z - 2147483648 - 2147483648) with (z + (-1) * 4294967296) by lia.
    rewrite Z.mod_add by lia. rewrite Z.mod_small; lia.
Qed.

(** Where both conversions are defined they agree. *)
Lemma to_uint32_to_int32 (x : float) :
  0 <= F32.to_int32 x < 2 ^ 31 - 1 -> F32.to_uint32 x = F32.to_int32 x.
Proof.
  unfold F32.to_uint32, F32.to_int32, F32.to_range, F32.clamp.
  change (2 ^ 31) with 2147483648. change (2 ^ 32) with 4294967296.
  destruct (F32.trunc x) as [z|].
  - repeat match goal with
           | |- context [?a <? ?b] => destruct (Z.ltb_spec a b)
           end; lia.
  - destruct x as [| [] | |]; simpl; lia.
Qed.

End Unsigned.

(** X8: the face updates transform the faces one by one and in order.  Face
    rectangle [i] of the array written by [UpdateFaceRectangles] is the
    backward transform of face rectangle [i] of the array read; the three
    landmark points of face [i] written by [UpdateFaceLandmarks] are the
    backward transforms of the three points of face [i] read, and every face
    is written ([num_visible_faces] ends equal to [num_faces]). *)
Theorem faces_are_transformed_one_by_one
    (zoom_ratio : float) (dim : Dimension) (metadata : HalCameraMetadata) :
  (forall (entry : camera_metadata_ro_entry) (i : nat),
      Get metadata ANDROID_STATISTICS_FACE_RECTANGLES = Some entry ->
      (i < count entry / 4)%nat ->
      exists entry',
        Get (UpdateFaceRectangles metadata zoom_ratio dim)
          ANDROID_STATISTICS_FACE_RECTANGLES = Some entry'
        /\ rect_at entry' i
           = update_face_rect zoom_ratio dim (rect_at entry i))
  /\ (forall (entry : camera_metadata_ro_entry) (i : nat),
        Get metadata ANDROID_STATISTICS_FACE_LANDMARKS = Some entry ->
        (i < count entry / 6)%nat ->
        exists entry',
          Get (UpdateFaceLandmarks metadata zoom_ratio dim)
            ANDROID_STATISTICS_FACE_LANDMARKS = Some entry'
          /\ landmark_points entry' i
             = map (fun p => utils.RevertZoomRatioPoint zoom_ratio p dim)
                   (landmark_points entry i)).
Proof.
  split.
  - intros entry i Hget Hi.
    assert (Hcount : count entry <> 0%nat)
      by (intros E; rewrite E in Hi; simpl in Hi; lia).
    rewrite (UpdateFaceRectangles_data _ _ _ entry) by done.
    eexists. split; [reflexivity|].
    unfold rect_at at 1. cbn [data_i32].
    rewrite <- (Nat.add_0_r (4 * i)) at 1.
    rewrite !(nth_concat_tuples 4) by (done || lia).
    reflexivity.
  - intros entry i Hget Hi.
    assert (Hcount : count entry <> 0%nat)
      by (intros E; rewrite E in Hi; simpl in Hi; lia).
    rewrite (UpdateFaceLandmarks_data _ _ _ entry) by done.
    eexists. split; [reflexivity|].
    unfold landmark_points at 1. cbn [data_i32 map].
    replace (6 * i + 2 * 0 + 1)%nat with (6 * i + 1)%nat by lia.
    replace (6 * i + 2 * 1 + 1)%nat with (6 * i + 3)%nat by lia.
    replace (6 * i + 2 * 2 + 1)%nat with (6 * i + 5)%nat by lia.
    replace (6 * i + 2 * 0)%nat with (6 * i + 0)%nat by lia.
    replace (6 * i + 2 * 1)%nat with (6 * i + 2)%nat by lia.
    replace (6 * i + 2 * 2)%nat with (6 * i + 4)%nat by lia.
    rewrite !(nth_concat_tuples 6) by (first [intros; reflexivity | lia]).
    cbn [Nat.add]. unfold landmark_points. cbn [map concat app nth point_data].
    unfold utils.RevertZoomRatioPoint. cbn [Point.x Point.y].
    by rewrite !uint32_int32 by apply to_uint32_range.
Qed.

(** ** Whole bundles at zoom ratio 1.0 *)

Section UnitRatioBundles.

Context (dim : Dimension).

Lemma update_3a_region_one (region : WeightedRect) :
  Z.abs (Dimension.width dim) < 2 ^ 24 ->
  Z.abs (Dimension.height dim) < 2 ^ 24 ->
  - 2 ^ 22 <= WeightedRect.left region < 2 ^ 22 ->
  - 2 ^ 22 <= WeightedRect.top region < 2 ^ 22 ->
  - 2 ^ 22 <= WeightedRect.right region < 2 ^ 22 ->
  - 2 ^ 22 <= WeightedRect.bottom region < 2 ^ 22 ->
  update_3a_region F32.one dim false region = region.
Proof.
  intros HW HH Hl Ht Hr Hb. destruct region as [l t r b w]. simpl in *.
  unfold update_3a_region. cbn [WeightedRect.left WeightedRect.top
    WeightedRect.right WeightedRect.bottom WeightedRect.weight].
  rewrite !(int32_id (r - l)), !(int32_id (b - t)), !int32_id by lia.
  rewrite RevertZoomRatio_one by lia.
  cbn [Region.left Region.top Region.width Region.height].
  rewrite !(int32_id (l + _)), !(int32_id (t + _)), !int32_id by lia.
  f_equal; lia.
Qed.

Lemma update_face_rect_one (face_rect : Rect) :
  Z.abs (Dimension.width dim) < 2 ^ 24 ->
  Z.abs (Dimension.height dim) < 2 ^ 24 ->
  - 2 ^ 22 <= Rect.left face_rect < 2 ^ 22 ->
  - 2 ^ 22 <= Rect.top face_rect < 2 ^ 22 ->
  - 2 ^ 22 <= Rect.right face_rect < 2 ^ 22 ->
  - 2 ^ 22 <= Rect.bottom face_rect < 2 ^ 22 ->
  update_face_rect F32.one dim face_rect = face_rect.
Proof.
  intros HW HH Hl Ht Hr Hb. destruct face_rect as [l t r b]. simpl in *.
  unfold update_face_rect.
  cbn [Rect.left Rect.top Rect.right Rect.bottom].
  rewrite !(int32_id (r - l)), !(int32_id (b - t)), !int32_id by lia.
  rewrite RevertZoomRatio_one by lia.
  cbn [Region.left Region.top Region.width Region.height].
  rewrite !(int32_id (l + _)), !(int32_id (t + _)), !int32_id by lia.
  f_equal; lia.
Qed.

Lemma RevertZoomRatioPoint_one (p : Point) :
  Z.abs (Dimension.width dim) < 2 ^ 24 ->
  Z.abs (Dimension.height dim) < 2 ^ 24 ->
  0 <= Point.x p < 2 ^ 22 -> 0 <= Point.y p < 2 ^ 22 ->
  utils.RevertZoomRatioPoint F32.one p dim = p.
Proof.
  intros HW HH Hx Hy. destruct p as [x y]. simpl in *.
  unfold utils.RevertZoomRatioPoint. cbn [Point.x Point.y].
  rewrite !to_uint32_to_int32
    by (rewrite backward_coordinate_one by lia; lia).
  by rewrite !backward_coordinate_one by lia.
Qed.

Lemma update_3a_region_one_request (region : WeightedRect) :
  Dimension.width dim < 2 ^ 24 -> Dimension.height dim < 2 ^ 24 ->
  0 <= WeightedRect.left region <= WeightedRect.right region + 1 ->
  WeightedRect.right region < Dimension.width dim ->
  0 <= WeightedRect.top region <= WeightedRect.bottom region + 1 ->
  WeightedRect.bottom region < Dimension.height dim ->
  update_3a_region F32.one dim true region = region.
Proof.
  intros HW HH Hl Hr Ht Hb. destruct region as [l t r b w]. simpl in *.
  unfold update_3a_region. cbn [WeightedRect.left WeightedRect.top
    WeightedRect.right WeightedRect.bottom WeightedRect.weight].
  rewrite !(int32_id (r - l)), !(int32_id (b - t)), !int32_id by lia.
  rewrite ConvertZoomRatio_one_inside by lia.
  cbn [Region.left Region.top Region.width Region.height].
  rewrite !(int32_id (l + _)), !(int32_id (t + _)), !int32_id by lia.
  f_equal; lia.
Qed.

End UnitRatioBundles.

Section UnitRatioResult.

Context (dim : Dimension).
Hypothesis Hwidth : Z.abs (Dimension.width dim) < 2 ^ 24.
Hypothesis Hheight : Z.abs (Dimension.height dim) < 2 ^ 24.

Lemma Update3ARegion_one (metadata : HalCameraMetadata) (tag_id : Tag) :
  tuples_within 5 (- 2 ^ 22) (2 ^ 22) (metadata !! tag_id) ->
  Update3ARegion metadata F32.one tag_id dim false = metadata.
Proof.
  unfold tuples_within, Update3ARegion, Get, Set_.
  destruct (metadata !! tag_id) as [[|data|]|] eqn:E; try done.
  intros [[n Hlen] Hall].
  destruct (count (entry_i32 data) =? 0)%nat; [done|].
  apply insert_id. rewrite E. do 2 f_equal. rewrite map_map.
  cbn [count]. rewrite (tuple_count 5 n) by done. symmetry.
  apply (concat_tuples_id 5); [done|done|].
  intros i j Hi Hj.
  pose proof (fun j Hj => tuple_value 5 n _ _ data i j Hlen Hall Hi Hj) as Hv.
  rewrite update_3a_region_one; try done.
  - unfold weighted_rect_at, weighted_rect_data, data_i32.
    cbn [WeightedRect.left WeightedRect.top WeightedRect.right
         WeightedRect.bottom WeightedRect.weight].
    do 5 (destruct j as [|j]; [cbn [nth]; f_equal; lia|]). lia.
  - cbn. rewrite <- (Nat.add_0_r (_ + _)%nat). apply Hv. lia.
  - cbn. apply Hv. lia.
  - cbn. apply Hv. lia.
  - cbn. apply Hv. lia.
Qed.

Lemma UpdateFaceRectangles_one (metadata : HalCameraMetadata) :
  tuples_within 4 (- 2 ^ 22) (2 ^ 22)
    (metadata !! ANDROID_STATISTICS_FACE_RECTANGLES) ->
  UpdateFaceRectangles metadata F32.one dim = metadata.
Proof.
  unfold tuples_within, UpdateFaceRectangles, Get, Set_.
  destruct (metadata !! ANDROID_STATISTICS_FACE_RECTANGLES)
    as [[|data|]|] eqn:E; try done.
  intros [[n Hlen] Hall].
  destruct (count (entry_i32 data) =? 0)%nat; [done|].
  apply insert_id. rewrite E. do 2 f_equal. rewrite map_map.
  cbn [count]. rewrite (tuple_count 4 n) by done. symmetry.
  apply (concat_tuples_id 4); [done|done|].
  intros i j Hi Hj.
  pose proof (fun j Hj => tuple_value 4 n _ _ data i j Hlen Hall Hi Hj) as Hv.
  rewrite update_face_rect_one; try done.
  - unfold rect_at, rect_data, data_i32.
    cbn [Rect.left Rect.top Rect.right Rect.bottom].
    do 4 (destruct j as [|j]; [cbn [nth]; f_equal; lia|]). lia.
  - cbn. rewrite <- (Nat.add_0_r (_ + _)%nat). apply Hv. lia.
  - cbn. apply Hv. lia.
  - cbn. apply Hv. lia.
  - cbn. apply Hv. lia.
Qed.

Local Ltac landmark_value i data Hv :=
  match goal with
  | |- _ <= nth ?p data 0 < _ =>
      let H := fresh in
      assert (H : exists j, (j < 6)%nat /\ p = (6 * i + j)%nat)
        by (first [exists 0%nat; lia | exists 1%nat; lia
                  | exists 2%nat; lia | exists 3%nat; lia
                  | exists 4%nat; lia | exists 5%nat; lia]);
      let j' := fresh in
      let Hj' := fresh in
      destruct H as (j' & Hj' & ->); specialize (Hv j' Hj'); lia
  end.

Lemma UpdateFaceLandmarks_one (metadata : HalCameraMetadata) :
  tuples_within 6 0 (2 ^ 22)
    (metadata !! ANDROID_STATISTICS_FACE_LANDMARKS) ->
  UpdateFaceLandmarks metadata F32.one dim = metadata.
Proof.
  intros Hwf.
  destruct (metadata !! ANDROID_STATISTICS_FACE_LANDMARKS) as [entry|] eqn:E.
  2: { unfold UpdateFaceLandmarks, Get. by rewrite E. }
  destruct (Nat.eq_dec (count entry) 0%nat) as [Hc|Hc].
  { unfold UpdateFaceLandmarks, Get. by rewrite E, Hc. }
  apply map_eq. intros t.
  destruct (decide (t = ANDROID_STATISTICS_FACE_LANDMARKS)) as [->|Hne];
    [|by apply UpdateFaceLandmarks_other].
  pose proof (UpdateFaceLandmarks_data F32.one dim metadata entry E Hc) as Hd.
  unfold Get in Hd. rewrite Hd, E.
  unfold tuples_within in Hwf. destruct entry as [|data|]; try done.
  destruct Hwf as [[n Hlen] Hall].
  do 2 f_equal. cbn [count]. rewrite (tuple_count 6 n) by done.
  apply (concat_tuples_id 6); [done|done|].
  intros i j Hi Hj.
  pose proof (fun j Hj => tuple_value 6 n _ _ data i j Hlen Hall Hi Hj) as Hv.
  unfold landmark_points, data_i32. cbn [map concat app].
  unfold uint32.
  rewrite !Z.mod_small by landmark_value i data Hv.
  rewrite !RevertZoomRatioPoint_one
    by (try done; cbn [Point.x Point.y]; landmark_value i data Hv).
  unfold point_data. cbn [Point.x Point.y].
  rewrite !int32_id by landmark_value i data Hv.
  cbn [app].
  do 6 (destruct j as [|j]; [cbn [nth]; f_equal; lia|]). lia.
Qed.

Lemma UpdateCropRegion_one (metadata : HalCameraMetadata) :
  tuples_within 4 (- 2 ^ 22) (2 ^ 22)
    (metadata !! ANDROID_SCALER_CROP_REGION) ->
  (forall entry, metadata !! ANDROID_SCALER_CROP_REGION = Some entry ->
     (count entry <= 4)%nat) ->
  UpdateCropRegion metadata F32.one dim false = metadata.
Proof.
  unfold tuples_within, UpdateCropRegion, Get, Set_.
  destruct (metadata !! ANDROID_SCALER_CROP_REGION) as [[|data|]|] eqn:E;
    try done.
  intros [[n Hlen] Hall] Hmax. specialize (Hmax _ eq_refl). cbn [count] in *.
  destruct (Nat.eqb_spec (length data) 0); [done|].
  assert (n = 1%nat) as -> by lia.
  destruct data as [|l [|t [|w [|h [|]]]]]; try discriminate.
  apply insert_id. rewrite E. do 2 f_equal.
  inversion Hall as [|? ? Hl Hall1]; subst.
  inversion Hall1 as [|? ? Ht Hall2]; subst.
  inversion Hall2 as [|? ? Hw Hall3]; subst.
  inversion Hall3 as [|? ? Hh _]; subst.
  cbn [data_i32 nth]. by rewrite RevertZoomRatio_one by lia.
Qed.

End UnitRatioResult.

(** X9: at zoom ratio 1.0 a result bundle comes back exactly as it was.
    Whenever the ratio in effect after the range check is 1.0 (a ratio of
    1.0 inside the range, or an out-of-range ratio clamped to a bound equal
    to 1.0), the crop region, the 3A regions, the face rectangles and the
    face landmarks of a well-formed result are all written back unchanged,
    in every face-detection mode: re-encoding [left, top, width, height] as
    inclusive bounds undoes the decoding. *)
Theorem result_bundle_unchanged_at_zoom_ratio_one
    (this : ZoomRatioMapper) (metadata : HalCameraMetadata) (dim : Dimension) :
  Z.abs (Dimension.width dim) < 2 ^ 24 ->
  Z.abs (Dimension.height dim) < 2 ^ 24 ->
  (forall entry, Get metadata ANDROID_CONTROL_ZOOM_RATIO = Some entry ->
     clamp_zoom_ratio (zoom_ratio_range_ this) (data_f entry 0) = F32.one) ->
  well_formed_result metadata ->
  apply_zoom_ratio this metadata dim false = metadata.
Proof.
  intros HW HH Hone (Hcrop & Hcrop4 & Hae & Haf & Hawb & Hrect & Hmarks).
  unfold apply_zoom_ratio.
  destruct (Get metadata ANDROID_CONTROL_ZOOM_RATIO) as [entry|] eqn:E;
    [|done].
  rewrite (Hone entry eq_refl).
  assert (Hregions : update_regions metadata F32.one dim false = metadata).
  { unfold update_regions.
    rewrite UpdateCropRegion_one by done.
    rewrite (Update3ARegion_one dim HW HH metadata ANDROID_CONTROL_AE_REGIONS)
      by done.
    rewrite (Update3ARegion_one dim HW HH metadata ANDROID_CONTROL_AF_REGIONS)
      by done.
    by apply Update3ARegion_one. }
  rewrite Hregions. unfold apply_face_regions.
  destruct (Get metadata ANDROID_STATISTICS_FACE_DETECT_MODE); [|done].
  rewrite UpdateFaceLandmarks_one, UpdateFaceRectangles_one by done.
  by repeat case_match.
Qed.

(** A result at ratio 1.0 in mode FULL with a crop region, an auto-exposure
    region, a face rectangle and its landmarks. *)
Lemma result_bundle_unchanged_witness :
  apply_zoom_ratio sample_mapper unit_result_metadata sample_dimension false
  = unit_result_metadata.
Proof.
  apply (result_bundle_unchanged_at_zoom_ratio_one sample_mapper
           unit_result_metadata sample_dimension).
  - reflexivity.
  - reflexivity.
  - intros entry Hget. vm_compute in Hget. injection Hget as <-. reflexivity.
  - unfold well_formed_result, tuples_within.
    repeat match goal with
           | |- context [unit_result_metadata !! ?t] =>
               let o := eval vm_compute in (unit_result_metadata !! t) in
               change (unit_result_metadata !! t) with o
           end.
    repeat split; try (exists 1%nat; reflexivity);
      try (repeat constructor; lia).
    intros entry [= <-]. simpl. lia.
Defined.

Section UnitRatioRequest.

Context (dim : Dimension).
Hypothesis Hwidth : Dimension.width dim < 2 ^ 24.
Hypothesis Hheight : Dimension.height dim < 2 ^ 24.

Lemma Update3ARegion_one_request (metadata : HalCameraMetadata)
    (tag_id : Tag) :
  regions_inside dim (metadata !! tag_id) ->
  Update3ARegion metadata F32.one tag_id dim true = metadata.
Proof.
  unfold regions_inside, Update3ARegion, Get, Set_.
  destruct (metadata !! tag_id) as [[|data|]|] eqn:E; try done.
  intros [[n Hlen] Hall].
  destruct (count (entry_i32 data) =? 0)%nat; [done|].
  apply insert_id. rewrite E. do 2 f_equal. rewrite map_map.
  cbn [count]. rewrite (tuple_count 5 n) in * by done. symmetry.
  apply (concat_tuples_id 5); [done|done|].
  intros i j Hi Hj. destruct (Hall i Hi) as (Hl & Hr & Ht & Hb).
  rewrite update_3a_region_one_request by done.
  unfold weighted_rect_at, weighted_rect_data, data_i32.
  cbn [WeightedRect.left WeightedRect.top WeightedRect.right
       WeightedRect.bottom WeightedRect.weight].
  do 5 (destruct j as [|j]; [cbn [nth]; f_equal; lia|]). lia.
Qed.

Lemma UpdateCropRegion_one_request (metadata : HalCameraMetadata) :
  crop_inside dim (metadata !! ANDROID_SCALER_CROP_REGION) ->
  UpdateCropRegion metadata F32.one dim true = metadata.
Proof.
  unfold crop_inside, UpdateCropRegion, Get, Set_.
  destruct (metadata !! ANDROID_SCALER_CROP_REGION) as [[|data|]|] eqn:E;
    try done.
  destruct data as [|l [|t [|w [|h [|]]]]]; try done.
  intros (Hl & Ht & Hw & Hh & Hlw & Hth).
  cbn [count length Nat.eqb data_i32 nth].
  apply insert_id. rewrite E. do 2 f_equal.
  by rewrite ConvertZoomRatio_one_inside by lia.
Qed.

End UnitRatioRequest.

(** X10: at zoom ratio 1.0 a request bundle whose regions lie inside the
    active array comes back exactly as it was.  Whenever the ratio in effect
    after the range check is 1.0, a crop region inside the array and 3A
    regions inside the array are written back unchanged: neither the
    rounding nor the boundary correction of the forward transform moves
    them. *)
Theorem request_bundle_unchanged_at_zoom_ratio_one
    (this : ZoomRatioMapper) (metadata : HalCameraMetadata) (dim : Dimension) :
  Dimension.width dim < 2 ^ 24 -> Dimension.height dim < 2 ^ 24 ->
  (forall entry, Get metadata ANDROID_CONTROL_ZOOM_RATIO = Some entry ->
     clamp_zoom_ratio (zoom_ratio_range_ this) (data_f entry 0) = F32.one) ->
  well_formed_request dim metadata ->
  apply_zoom_ratio this metadata dim true = metadata.
Proof.
  intros HW HH Hone (Hcrop & Hae & Haf & Hawb).
  unfold apply_zoom_ratio.
  destruct (Get metadata ANDROID_CONTROL_ZOOM_RATIO) as [entry|] eqn:E;
    [|done].
  rewrite (Hone entry eq_refl). unfold update_regions.
  rewrite UpdateCropRegion_one_request by done.
  rewrite (Update3ARegion_one_request dim HW HH metadata
             ANDROID_CONTROL_AE_REGIONS) by done.
  rewrite (Update3ARegion_one_request dim HW HH metadata
             ANDROID_CONTROL_AF_REGIONS) by done.
  by apply Update3ARegion_one_request.
Qed.

(** The sample request asks for ratio 0.5, which the range [1, 10] turns into
    1.0: its crop region and its auto-exposure region come back as they
    were. *)
Lemma request_bundle_unchanged_witness :
  apply_zoom_ratio sample_mapper sample_request_metadata sample_dimension true
  = sample_request_metadata.
Proof.
  apply (request_bundle_unchanged_at_zoom_ratio_one sample_mapper
           sample_request_metadata sample_dimension).
  - reflexivity.
  - reflexivity.
  - intros entry Hget. vm_compute in Hget. injection Hget as <-. reflexivity.
  - unfold well_formed_request, regions_inside, crop_inside.
    repeat match goal with
           | |- context [sample_request_metadata !! ?t] =>
               let o := eval vm_compute in (sample_request_metadata !! t) in
               change (sample_request_metadata !! t) with o
           end.
    split; [unfold inside_active_array; simpl; lia|].
    split; [|done].
    split; [by exists 1%nat|].
    intros i Hi. cbn in Hi.
    assert (i = 0%nat) as -> by lia. simpl. lia.
Defined.

(** ** The zoom ratio after the range check *)

Section ClampRange.

Lemma leb_reflexive (x : float) : x <> S754_nan -> F32.leb x x = true.
Proof.
  unfold F32.leb, SFleb. destruct x as [[]|[]| |[] m e]; try done; intros _;
    cbn [SFcompare]; rewrite Z.compare_refl;
    change (Pos.compare_cont Eq m m) with (Pos.compare m m);
    by rewrite Pos.compare_refl.
Qed.

Lemma SFcompare_defined (x y : float) :
  x <> S754_nan -> y <> S754_nan -> exists c, SFcompare x y = Some c.
Proof.
  destruct x as [sx|sx| |sx mx ex], y as [sy|sy| |sy my ey]; try done;
    intros _ _; simpl; eauto.
Qed.

Lemma leb_of_not_ltb (x y : float) :
  x <> S754_nan -> y <> S754_nan ->
  F32.ltb x y = false -> F32.leb y x = true.
Proof.
  intros Hx Hy. unfold F32.ltb, F32.leb, SFltb, SFleb.
  destruct (SFcompare_defined x y Hx Hy) as [c Hc].
  rewrite Hc, (SFcompare_swap _ _ _ Hc). by destruct c.
Qed.

Lemma leb_not_nan (x y : float) :
  F32.leb x y = true -> x <> S754_nan /\ y <> S754_nan.
Proof.
  unfold F32.leb, SFleb.
  destruct x as [sx|sx| |sx mx ex], y as [sy|sy| |sy my ey]; done.
Qed.

End ClampRange.

(** X11: for a range with [min <= max], the ratio in effect after the range
    check lies in the range, [min <= ratio <= max], unless the ratio of the
    bundle is a NaN: a NaN fails both comparisons of the check and is used
    as it is. *)
Theorem clamped_zoom_ratio_lies_in_the_range_unless_nan
    (range : ZoomRatioRange) (zoom_ratio : float) :
  F32.leb (ZoomRatioRange.min range) (ZoomRatioRange.max range) = true ->
  (zoom_ratio = S754_nan -> clamp_zoom_ratio range zoom_ratio = S754_nan)
  /\ (zoom_ratio <> S754_nan ->
      F32.leb (ZoomRatioRange.min range) (clamp_zoom_ratio range zoom_ratio)
      = true
      /\ F32.leb (clamp_zoom_ratio range zoom_ratio) (ZoomRatioRange.max range)
         = true).
Proof.
  intros Hrange. destruct (leb_not_nan _ _ Hrange) as [Hmin Hmax]. split.
  - intros ->. unfold clamp_zoom_ratio, F32.ltb, SFltb. simpl.
    by destruct (ZoomRatioRange.max range).
  - intros Hz. unfold clamp_zoom_ratio.
    destruct (F32.ltb zoom_ratio (ZoomRatioRange.min range)) eqn:Hlo.
    + split; [by apply leb_reflexive|done].
    + destruct (F32.ltb (ZoomRatioRange.max range) zoom_ratio) eqn:Hhi.
      * split; [done|by apply leb_reflexive].
      * split; by apply leb_of_not_ltb.
Qed.

(** The ratio 0.5 under the range [1, 10]. *)
Lemma clamped_zoom_ratio_witness :
  F32.leb F32.one (clamp_zoom_ratio (ZoomRatioRange.mk F32.one ten) F32.half)
  = true
  /\ F32.leb (clamp_zoom_ratio (ZoomRatioRange.mk F32.one ten) F32.half) ten
     = true.
Proof.
  destruct (clamped_zoom_ratio_lies_in_the_range_unless_nan
              (ZoomRatioRange.mk F32.one ten) F32.half) as [_ H];
    [reflexivity|].
  apply H. discriminate.
Defined.

Section NonZero.

Lemma positive_not_zero (x : float) :
  F32.ltb (S754_zero false) x = true -> F32.eqb x (S754_zero false) = false.
Proof. destruct x as [[]|[]| |[] m e]; done. Qed.

Lemma leb_positive (x y : float) :
  F32.ltb (S754_zero false) x = true -> F32.leb x y = true ->
  F32.ltb (S754_zero false) y = true.
Proof.
  destruct x as [[]|[]| |[] mx ex], y as [[]|[]| |[] my ey]; done.
Qed.

End NonZero.

(** X12: the condition of [assert(zoom_ratio != 0)] in [ConvertZoomRatio]
    holds on every call from [ApplyZoomRatio], provided the configured range
    has [0 < min <= max]: whatever ratio the bundle carries (zero, negative,
    infinite or NaN), the ratio in effect after the range check is different
    from zero. *)
Theorem clamped_zoom_ratio_is_not_zero
    (range : ZoomRatioRange) (zoom_ratio : float) :
  F32.ltb (S754_zero false) (ZoomRatioRange.min range) = true ->
  F32.leb (ZoomRatioRange.min range) (ZoomRatioRange.max range) = true ->
  F32.eqb (clamp_zoom_ratio range zoom_ratio) (S754_zero false) = false.
Proof.
  intros Hpos Hrange. unfold clamp_zoom_ratio.
  destruct (leb_not_nan _ _ Hrange) as [Hmin Hmax].
  destruct (F32.ltb zoom_ratio (ZoomRatioRange.min range)) eqn:Hlo.
  - by apply positive_not_zero.
  - destruct (F32.ltb (ZoomRatioRange.max range) zoom_ratio) eqn:Hhi.
    + apply positive_not_zero. by apply (leb_positive _ _ Hpos).
    + assert (Hz : zoom_ratio = S754_nan \/ zoom_ratio <> S754_nan)
        by (destruct zoom_ratio; (by left) || (by right)).
      destruct Hz as [->|Hz]; [done|].
      apply positive_not_zero, (leb_positive _ _ Hpos).
      by apply leb_of_not_ltb.
Qed.

(** A requested ratio of zero under the range [1, 10]. *)
Lemma clamped_zoom_ratio_is_not_zero_witness :
  F32.eqb (clamp_zoom_ratio (ZoomRatioRange.mk F32.one ten) (S754_zero false))
          (S754_zero false) = false.
Proof.
  apply (clamped_zoom_ratio_is_not_zero (ZoomRatioRange.mk F32.one ten)
           (S754_zero false)); reflexivity.
Defined.

(** ** 3A regions of a request *)

Section Signs.

Lemma binary_round_aux_sign (m e : Z) (l : location) :
  not_negative (binary_round_aux 24 128 false m e l).
Proof.
  unfold binary_round_aux.
  destruct (shr_fexp 24 128 m e l) as [mrs' e'].
  destruct (shr_fexp 24 128 _ e' loc_Exact) as [mrs'' e''].
  destruct (shr_m mrs''); [done| |done].
  by destruct (e'' <=? 128 - 24).
Qed.

Lemma binary_normalize_sign (n : Z) :
  0 <= n -> not_negative (binary_normalize 24 128 n 0 false).
Proof.
  intros Hn. destruct n as [|p|p]; [done| |lia].
  unfold binary_normalize, binary_round.
  destruct (shl_align p 0 _) as [mz ez]. apply binary_round_aux_sign.
Qed.

Lemma of_int_sign (v : Z) : 0 <= v -> not_negative (F32.of_int v).
Proof. apply binary_normalize_sign. Qed.

Lemma div_sign (x zoom_ratio : float) :
  not_negative x -> F32.leb F32.one zoom_ratio = true ->
  not_negative (F32.div x zoom_ratio).
Proof.
  intros Hx Hz. unfold F32.div, SFdiv.
  destruct zoom_ratio as [[]|[]| |[] mz ez]; try done;
    destruct x as [[]|[]| |[] mx ex]; try done.
  destruct (SFdiv_core_binary _ _ _ _ _ _) as [[q e] l].
  exact (binary_round_aux_sign q e l).
Qed.

Lemma round_sign (x : float) : not_negative x -> not_negative (F32.round x).
Proof.
  destruct x as [s|s| |[] m e]; try done. intros _. unfold F32.round.
  destruct (Z.leb_spec 0 e); [done|].
  apply binary_normalize_sign. cbn [cond_Zopp].
  assert (0 < 2 ^ (- e)) by (apply Z.pow_pos_nonneg; lia).
  assert (0 <= Zpos m / 2 ^ (- e)) by (apply Z.div_pos; lia).
  case_match; lia.
Qed.

Lemma to_int32_sign (x : float) : not_negative x -> 0 <= F32.to_int32 x.
Proof.
  intros Hx. unfold F32.to_int32, F32.to_range, F32.clamp, F32.trunc.
  change (2 ^ 31) with 2147483648.
  destruct x as [s|[]| |[] m e]; try done; cbn [cond_Zopp].
  assert (0 <= (if 0 <=? e then Zpos m * 2 ^ e else Zpos m / 2 ^ (- e))).
  { destruct (Z.leb_spec 0 e).
    - assert (0 < 2 ^ e) by (apply Z.pow_pos_nonneg; lia). lia.
    - assert (0 < 2 ^ (- e)) by (apply Z.pow_pos_nonneg; lia).
      apply Z.div_pos; lia. }
  repeat match goal with
         | |- context [?a <? ?b] => destruct (Z.ltb_spec a b)
         end; lia.
Qed.

Lemma forward_size_sign (zoom_ratio : float) (v : Z) :
  F32.leb F32.one zoom_ratio = true -> 0 <= v ->
  0 <= forward_size zoom_ratio v.
Proof.
  intros Hz Hv. unfold forward_size.
  apply to_int32_sign, round_sign, div_sign; [|exact Hz].
  by apply of_int_sign.
Qed.

End Signs.

(** X13: at a zoom ratio of at least 1.0, a 3A region of a request is written
    back with [left >= 0], [top >= 0], [right < activeWidth] and
    [bottom < activeHeight], for every region with [left <= right] and
    [top <= bottom] (coordinates below 2^29 in magnitude, so that the width
    and height computed in [int32_t] do not overflow).  Nothing keeps [right]
    from falling below [left]. *)
Theorem request_3a_region_stays_inside_the_active_array
    (zoom_ratio : float) (dim : Dimension) (region : WeightedRect) :
  F32.leb F32.one zoom_ratio = true ->
  0 <= Dimension.width dim < 2 ^ 31 -> 0 <= Dimension.height dim < 2 ^ 31 ->
  - 2 ^ 29 <= WeightedRect.left region <= WeightedRect.right region ->
  WeightedRect.right region < 2 ^ 29 ->
  - 2 ^ 29 <= WeightedRect.top region <= WeightedRect.bottom region ->
  WeightedRect.bottom region < 2 ^ 29 ->
  let updated := update_3a_region zoom_ratio dim true region in
  0 <= WeightedRect.left updated
  /\ 0 <= WeightedRect.top updated
  /\ WeightedRect.right updated < Dimension.width dim
  /\ WeightedRect.bottom updated < Dimension.height dim.
Proof.
  intros Hz HW HH Hl Hr Ht Hb updated. subst updated.
  destruct region as [l t r b w].
  cbn [WeightedRect.left WeightedRect.top WeightedRect.right
       WeightedRect.bottom] in Hl, Hr, Ht, Hb.
  unfold update_3a_region.
  cbn [WeightedRect.left WeightedRect.top WeightedRect.right
       WeightedRect.bottom WeightedRect.weight].
  change (2 ^ 29) with 536870912 in *. change (2 ^ 31) with 2147483648 in *.
  rewrite !(int32_id (r - l)), !(int32_id (b - t)), !(int32_id (_ + 1))
    by (change (2 ^ 31) with 2147483648; lia).
  rewrite ConvertZoomRatio_formula, Hz. unfold utils.CorrectRegionBoundary.
  cbn [Region.left Region.top Region.width Region.height].
  pose proof (to_int32_range (F32.round (F32.add
    (F32.div (F32.of_int l) zoom_ratio)
    (F32.mul (F32.mul F32.half (F32.of_int (Dimension.width dim)))
       (F32.sub F32.one (F32.div F32.one zoom_ratio)))))) as Bl.
  pose proof (to_int32_range (F32.round (F32.add
    (F32.div (F32.of_int t) zoom_ratio)
    (F32.mul (F32.mul F32.half (F32.of_int (Dimension.height dim)))
       (F32.sub F32.one (F32.div F32.one zoom_ratio)))))) as Bt.
  fold (forward_position zoom_ratio l (Dimension.width dim)) in Bl.
  fold (forward_position zoom_ratio t (Dimension.height dim)) in Bt.
  set (l' := forward_position zoom_ratio l (Dimension.width dim)) in *.
  set (t' := forward_position zoom_ratio t (Dimension.height dim)) in *.
  pose proof (forward_size_sign zoom_ratio (r - l + 1) Hz ltac:(lia)) as Bw.
  pose proof (forward_size_sign zoom_ratio (b - t + 1) Hz ltac:(lia)) as Bh.
  pose proof (to_int32_range (F32.round
    (F32.div (F32.of_int (r - l + 1)) zoom_ratio))) as Bw'.
  pose proof (to_int32_range (F32.round
    (F32.div (F32.of_int (b - t + 1)) zoom_ratio))) as Bh'.
  fold (forward_size zoom_ratio (r - l + 1)) in Bw'.
  fold (forward_size zoom_ratio (b - t + 1)) in Bh'.
  set (w' := forward_size zoom_ratio (r - l + 1)) in *.
  set (h' := forward_size zoom_ratio (b - t + 1)) in *.
  change (2 ^ 31) with 2147483648 in *.
  rewrite (int32_id (Dimension.width dim - Z.max l' 0)),
    (int32_id (Dimension.height dim - Z.max t' 0))
    by (change (2 ^ 31) with 2147483648; lia).
  rewrite !(int32_id (Z.max _ 0 + _)) by (change (2 ^ 31) with 2147483648; lia).
  rewrite !int32_id by (change (2 ^ 31) with 2147483648; lia).
  lia.
Qed.

(** A region that leaves the 4000x3000 array on the right and at the
    bottom. *)
Lemma request_3a_region_witness :
  let updated :=
    update_3a_region two sample_dimension true
      (WeightedRect.mk 3000 2000 4999 3999 1) in
  0 <= WeightedRect.left updated
  /\ 0 <= WeightedRect.top updated
  /\ WeightedRect.right updated < 4000
  /\ WeightedRect.bottom updated < 3000.
Proof.
  apply (request_3a_region_stays_inside_the_active_array two sample_dimension
           (WeightedRect.mk 3000 2000 4999 3999 1)).
  - reflexivity.
  - cbn; lia.
  - cbn; lia.
  - cbn; lia.
  - cbn; lia.
  - cbn; lia.
  - cbn; lia.
Defined.

(** ** Zooming in *)

Section Order.

Lemma leb_F2R (m1 m2 : positive) (e1 e2 : Z) :
  normal_mantissa m1 -> normal_mantissa m2 ->
  F32.leb (S754_finite false m1 e1) (S754_finite false m2 e2) = true ->
  (F2R (S754_finite false m1 e1) <= F2R (S754_finite false m2 e2))%R.
Proof.
  intros H1 H2. unfold F32.leb, SFleb. cbn [SFcompare F2R].
  pose proof (bpow_pos e2) as Hp.
  destruct (Z.compare_spec e1 e2) as [->|Hlt|Hgt]; [| |discriminate].
  - change (Pos.compare_cont Eq m1 m2) with (Pos.compare m1 m2).
    destruct (Pos.compare_spec m1 m2) as [->|Hm|Hm]; try discriminate;
      intros _; [lra|].
    assert (Hle : (IZR (Zpos m1) <= IZR (Zpos m2))%R) by (apply IZR_le; lia).
    nra.
  - intros _. pose proof (normal_value_bounds m1 e1 H1) as [_ U].
    pose proof (normal_value_bounds m2 e2 H2) as [L _].
    pose proof (bpow_le (e1 + 24) (e2 + 23) ltac:(lia)). lra.
Qed.

End Order.

Section ZoomIn.

(** A valid zoom ratio between 1.0 and 2.5. *)
Lemma zoom_in_from_one_cases (z : float) :
  F32.valid z = true ->
  F32.leb F32.one z = true -> F32.leb z two_and_half = true ->
  exists mz ez,
    z = S754_finite false mz ez /\ normal_mantissa mz /\ -24 <= ez <= -22
    /\ (1 <= F2R z <= 5 / 2)%R.
Proof.
  intros Hv Hlo Hhi.
  assert (Hhalf : F32.leb F32.half z = true).
  { revert Hlo. unfold F32.leb, SFleb, F32.one, F32.half.
    destruct z as [[]|[]| |[] m e]; try done. cbn [SFcompare].
    destruct (Z.compare_spec (-23) e), (Z.compare_spec (-24) e);
      try done; lia. }
  destruct (zoom_ratio_cases z Hv Hhalf Hhi)
    as (mz & ez & -> & Hmz & Hez & [_ Hup] & Hone & _).
  exists mz, ez. split; [done|]. split; [done|]. split; [done|].
  split; [by apply Hone|done].
Qed.

(** One size mapped back at a zoom ratio between 1.0 and 2.5: within 0.51 of
    the product. *)
Lemma backward_size_value (mz : positive) (ez : Z) (v : Z) :
  let z := S754_finite false mz ez in
  normal_mantissa mz -> -24 <= ez <= -22 ->
  (1 <= F2R z <= 5 / 2)%R ->
  Z.abs v <= 16384 ->
  (Rabs (IZR (F32.to_int32 (F32.round (F32.mul (F32.of_int v) z)))
         - IZR v * F2R z) <= 51 / 100)%R.
Proof.
  intros z Hmz Hez Hz Hv.
  assert (Hu : unit_roundoff = (/ 16777216)%R) by reflexivity.
  assert (HzR : (Rabs (F2R z) <= 5 / 2)%R) by (apply Rabs_le; lra).
  assert (HvR : (Rabs (IZR v) <= 16384)%R).
  { rewrite <- abs_IZR. apply IZR_le. lia. }
  destruct (of_int_good v ltac:(lia)) as [Hg0 Hv0].
  destruct (mul_good (-23) 0 ez ez (F32.of_int v) z) as [Hge He];
    [exact Hg0 | unfold z; split; [done|lia] | lia | lia |].
  rewrite Hv0 in He. set (e := F32.mul (F32.of_int v) z) in *.
  assert (Hvz : (Rabs (IZR v * F2R z) <= 40960)%R).
  { replace 40960%R with (16384 * (5 / 2))%R by lra.
    by apply Rabs_mul_bound. }
  destruct (rel_err _ _ _ He Hvz) as [He1 He2].
  assert (Hge' : good (-23 + ez + 23) (-1) e).
  { apply (good_restrict _ _ (-1)) in Hge.
    - eapply good_weaken; [| |exact Hge]; lia.
    - apply Rabs_lt_bpow23. rewrite Hu in *. lra. }
  pose proof (to_int32_round_value _ _ Hge') as Hr.
  set (n := F32.to_int32 (F32.round e)) in *.
  replace (IZR n - IZR v * F2R z)%R
    with ((IZR n - F2R e) + (F2R e - IZR v * F2R z))%R by ring.
  apply Rabs_bounds in Hr, He1. rewrite Hu in *. apply Rabs_le. lra.
Qed.

End ZoomIn.

(** X14: for a zoom ratio between 1.0 and 2.5 and an active array of at most
    16384 x 16384, the boundary correction of the forward transform never
    fires on a region that lies inside the active array: the region returned
    is the one of the formula, and it lies inside the active array.  The
    rounding of the binary32 operations cannot push it over an edge. *)
Theorem forward_of_a_region_inside_is_not_corrected
    (zoom_ratio : float) (left top width height : Z) (dim : Dimension) :
  F32.valid zoom_ratio = true ->
  F32.leb F32.one zoom_ratio = true ->
  F32.leb zoom_ratio two_and_half = true ->
  Dimension.width dim <= 16384 -> Dimension.height dim <= 16384 ->
  inside_active_array left top width height dim ->
  let r := ConvertZoomRatio zoom_ratio left top width height dim in
  r = ForwardFormula zoom_ratio left top width height dim
  /\ inside_active_array (Region.left r) (Region.top r) (Region.width r)
       (Region.height r) dim.
Proof.
  intros Hvalid Hlo Hhi HW HH Hin r.
  destruct (zoom_in_from_one_cases zoom_ratio Hvalid Hlo Hhi)
    as (mz & ez & -> & Hmz & Hez & Hz).
  pose proof (forward_formula_inside mz ez left top width height dim
                Hmz Hez Hz HW HH Hin) as Hf.
  cbv zeta in Hf.
  assert (Hr : r = ForwardFormula (S754_finite false mz ez) left top width
                     height dim).
  { subst r. rewrite ConvertZoomRatio_formula, Hlo.
    apply (CorrectRegionBoundary_inside _ _ _ _ dim Hf); lia. }
  split; [exact Hr|]. by rewrite Hr.
Qed.

(** The region (200, 100, 2400, 1800) of a 4000x3000 array at ratio 2.0. *)
Lemma forward_of_a_region_inside_witness :
  ConvertZoomRatio two 200 100 2400 1800 sample_dimension
  = ForwardFormula two 200 100 2400 1800 sample_dimension.
Proof.
  destruct (forward_of_a_region_inside_is_not_corrected two 200 100 2400 1800
              sample_dimension) as [H _].
  - reflexivity.
  - reflexivity.
  - reflexivity.
  - simpl; lia.
  - simpl; lia.
  - unfold inside_active_array. simpl. lia.
  - exact H.
Defined.

(** X15: zooming in never enlarges a region on its way to the sensor and
    never shrinks it on its way back.  For a zoom ratio between 1.0 and 2.5
    and a width and height between 0 and 16384, the forward transform
    returns a width and a height no larger than the ones it was given, and
    the backward transform a width and a height no smaller. *)
Theorem zooming_in_shrinks_forward_and_grows_backward
    (zoom_ratio : float) (left top width height : Z) (dim : Dimension) :
  F32.valid zoom_ratio = true ->
  F32.leb F32.one zoom_ratio = true ->
  F32.leb zoom_ratio two_and_half = true ->
  0 <= width <= 16384 -> 0 <= height <= 16384 ->
  let f := ConvertZoomRatio zoom_ratio left top width height dim in
  let b := utils.RevertZoomRatio zoom_ratio left top width height dim in
  Region.width f <= width /\ Region.height f <= height
  /\ width <= Region.width b /\ height <= Region.height b.
Proof.
  intros Hvalid Hlo Hhi Hw Hh f b.
  destruct (zoom_in_from_one_cases zoom_ratio Hvalid Hlo Hhi)
    as (mz & ez & -> & Hmz & Hez & Hz).
  assert (Hz' : (/ 2 <= F2R (S754_finite false mz ez) <= 5 / 2)%R) by lra.
  assert (Hfwd : forall v, 0 <= v <= 16384 ->
            forward_size (S754_finite false mz ez) v <= v).
  { intros v Hv.
    destruct (round_trip_size mz ez v Hmz Hez Hz' ltac:(lia)) as (_ & H & _).
    cbv zeta in H.
    set (v' := forward_size (S754_finite false mz ez) v) in *.
    set (z := F2R (S754_finite false mz ez)) in *.
    apply Rabs_bounds in H. destruct Hv as [Hv0 Hv1]. apply IZR_le in Hv0.
    assert (Hq : (IZR v / z <= IZR v)%R).
    { unfold Rdiv. assert (0 < / z <= 1)%R; [|nra]. split.
      - apply Rinv_0_lt_compat; lra.
      - replace 1%R with (/ 1)%R by field. apply Rinv_le_contravar; lra. }
    assert (Hlt : (IZR v' < IZR (v + 1))%R) by (rewrite plus_IZR; lra).
    apply lt_IZR in Hlt. lia. }
  assert (Hbwd : forall v, 0 <= v <= 16384 ->
            v <= F32.to_int32 (F32.round
                   (F32.mul (F32.of_int v) (S754_finite false mz ez)))).
  { intros v Hv.
    pose proof (backward_size_value mz ez v Hmz Hez Hz ltac:(lia)) as H.
    cbv zeta in H.
    set (v' := F32.to_int32 _) in *.
    set (z := F2R (S754_finite false mz ez)) in *.
    apply Rabs_bounds in H. destruct Hv as [Hv0 Hv1]. apply IZR_le in Hv0.
    assert (Hq : (IZR v <= IZR v * z)%R) by nra.
    assert (Hlt : (IZR (v - 1) < IZR v')%R) by (rewrite minus_IZR; lra).
    apply lt_IZR in Hlt. lia. }
  subst f b. rewrite ConvertZoomRatio_formula, Hlo.
  unfold utils.CorrectRegionBoundary, utils.RevertZoomRatio.
  cbn [Region.width Region.height].
  pose proof (Hfwd width Hw). pose proof (Hfwd height Hh).
  pose proof (Hbwd width Hw). pose proof (Hbwd height Hh). lia.
Qed.

(** A region of width 2400 at ratio 2.0. *)
Lemma zooming_in_witness :
  Region.width (ConvertZoomRatio two 200 100 2400 1800 sample_dimension)
  <= 2400
  /\ 2400
     <= Region.width (utils.RevertZoomRatio two 200 100 2400 1800
                        sample_dimension).
Proof.
  destruct (zooming_in_shrinks_forward_and_grows_backward two 200 100 2400
              1800 sample_dimension) as (Hf & _ & Hb & _).
  - reflexivity.
  - reflexivity.
  - reflexivity.
  - lia.
  - lia.
  - split; [exact Hf|exact Hb].
Defined.

(** ** From the sensor to the application and back *)

Section RevertThenConvert.

(** One coordinate mapped back with the offset [c]: the result is within
    0.52 of [(v - c) * z]. *)
Lemma backward_axis_value (mz : positive) (ez : Z) (c : float) (v : Z) :
  let z := S754_finite false mz ez in
  normal_mantissa mz -> -24 <= ez <= -22 ->
  (/ 2 <= F2R z <= 5 / 2)%R ->
  good (-60) 10 c -> (Rabs (F2R c) <= 16384)%R ->
  Z.abs v <= 16384 ->
  let v' :=
    F32.to_int32 (F32.round (F32.mul (F32.sub (F32.of_int v) c) z)) in
  (Rabs (IZR v' - (IZR v - F2R c) * F2R z) <= 52 / 100)%R
  /\ Z.abs v' < 2 ^ 24.
Proof.
  intros z Hmz Hez Hz Hc HcR Hv v'.
  assert (Hu : unit_roundoff = (/ 16777216)%R) by reflexivity.
  assert (HzR : (Rabs (F2R z) <= 5 / 2)%R) by (apply Rabs_le; lra).
  assert (HvR : (Rabs (IZR v) <= 16384)%R).
  { rewrite <- abs_IZR. apply IZR_le. lia. }
  destruct (of_int_good v ltac:(lia)) as [Hg0 Hv0].
  destruct (sub_good (-60) 10 (F32.of_int v) c) as [Hgd Hd];
    try lia; try done.
  { eapply good_weaken; [| |exact Hg0]; lia. }
  rewrite Hv0 in Hd. set (d := F32.sub (F32.of_int v) c) in *.
  assert (Hvc : (Rabs (IZR v - F2R c) <= 32768)%R).
  { unfold Rminus. eapply Rle_trans; [apply Rabs_triang|].
    rewrite Rabs_Ropp. lra. }
  destruct (rel_err _ _ _ Hd Hvc) as [Hd1 Hd2].
  destruct (mul_good (-83) 12 ez ez d z) as [Hge He];
    [exact Hgd | unfold z; split; [done|lia] | lia | lia |].
  set (e := F32.mul d z) in *.
  assert (Hdz : (Rabs (F2R d * F2R z) <= 81925)%R).
  { replace 81925%R with (32770 * (5 / 2))%R by lra.
    apply Rabs_mul_bound; [rewrite Hu in *; lra|done]. }
  destruct (rel_err _ _ _ He Hdz) as [He1 He2].
  assert (Hge' : good (-83 + ez + 23) (-1) e).
  { apply (good_restrict _ _ (-1)) in Hge.
    - eapply good_weaken; [| |exact Hge]; lia.
    - apply Rabs_lt_bpow23. rewrite Hu in *. lra. }
  pose proof (to_int32_round_value _ _ Hge') as Hv'. fold v' in Hv'.
  assert (Hv'R : (Rabs (IZR v') <= 81927)%R).
  { replace (IZR v') with (F2R e + (IZR v' - F2R e))%R by ring.
    eapply Rle_trans; [apply Rabs_triang|]. rewrite Hu in *. lra. }
  split; [|apply Zabs_lt_of_R; change (2 ^ 24) with 16777216; lra].
  pose proof (Rabs_mul_bound _ _ _ _ Hd1 HzR) as T1.
  set (t1 := ((F2R d - (IZR v - F2R c)) * F2R z)%R) in *.
  replace (IZR v' - (IZR v - F2R c) * F2R z)%R
    with ((IZR v' - F2R e) + (F2R e - F2R d * F2R z) + t1)%R
    by (unfold t1; ring).
  apply Rabs_bounds in Hv', He1, T1. rewrite Hu in *. apply Rabs_le. lra.
Qed.

(** One coordinate, mapped back with the offset [c] at a zoom ratio [z] of
    at least 1.125 and forward again: the coordinate itself. *)
Lemma revert_convert_axis (mz : positive) (ez : Z) (c : float) (v : Z) :
  let z := S754_finite false mz ez in
  normal_mantissa mz -> -24 <= ez <= -22 ->
  (9 / 8 <= F2R z <= 5 / 2)%R ->
  good (-60) 10 c -> (Rabs (F2R c) <= 16384)%R ->
  Z.abs v <= 16384 ->
  let v' :=
    F32.to_int32 (F32.round (F32.mul (F32.sub (F32.of_int v) c) z)) in
  let v'' :=
    F32.to_int32 (F32.round (F32.add (F32.div (F32.of_int v') z) c)) in
  v'' = v /\ Z.abs v' < 2 ^ 24.
Proof.
  intros z Hmz Hez Hz Hc HcR Hv v' v''.
  assert (Hu : unit_roundoff = (/ 16777216)%R) by reflexivity.
  assert (Hq : (0 < / F2R z <= 8 / 9)%R).
  { split; [apply Rinv_0_lt_compat; lra|].
    replace (8 / 9)%R with (/ (9 / 8))%R by field.
    apply Rinv_le_contravar; lra. }
  assert (HqR : (Rabs (/ F2R z) <= 8 / 9)%R) by (apply Rabs_le; lra).
  assert (HvR : (Rabs (IZR v) <= 16384)%R).
  { rewrite <- abs_IZR. apply IZR_le. lia. }
  (* backward *)
  assert (Hz' : (/ 2 <= F2R z <= 5 / 2)%R) by lra.
  destruct (backward_axis_value mz ez c v Hmz Hez Hz' Hc HcR Hv)
    as [Hs Hv'Z].
  fold z in Hs, Hv'Z. fold v' in Hs, Hv'Z.
  assert (Hv'R : (Rabs (IZR v') <= 81927)%R).
  { replace (IZR v')
      with ((IZR v - F2R c) * F2R z + (IZR v' - (IZR v - F2R c) * F2R z))%R
      by ring.
    eapply Rle_trans; [apply Rabs_triang|].
    assert (Rabs ((IZR v - F2R c) * F2R z) <= 32768 * (5 / 2))%R; [|lra].
    apply Rabs_mul_bound; [|apply Rabs_le; lra].
    unfold Rminus. eapply Rle_trans; [apply Rabs_triang|].
    rewrite Rabs_Ropp. lra. }
  (* forward *)
  destruct (of_int_good v' Hv'Z) as [Hg1 Hv1].
  destruct (div_good (-23) 0 (F32.of_int v') false mz ez Hg1 Hmz
              ltac:(lia) ltac:(lia)) as [Hga Ha].
  fold z in Hga, Ha. rewrite Hv1 in Ha.
  set (a := F32.div (F32.of_int v') z) in *.
  assert (Hvz : (Rabs (IZR v' / F2R z) <= 81927)%R).
  { unfold Rdiv. replace 81927%R with (81927 * 1)%R by lra.
    apply Rabs_mul_bound; [done|lra]. }
  destruct (rel_err _ _ _ Ha Hvz) as [Ha1 Ha2].
  destruct (add_good (-60) 10 a c) as [Hgb Hb]; try lia; try done.
  { eapply good_weaken; [| |exact Hga]; lia. }
  set (b := F32.add a c) in *.
  assert (Hac : (Rabs (F2R a + F2R c) <= 98312)%R).
  { eapply Rle_trans; [apply Rabs_triang|]. rewrite Hu in *. lra. }
  destruct (rel_err _ _ _ Hb Hac) as [Hb1 Hb2].
  assert (Hgb' : good (-83) (-1) b).
  { apply (good_restrict _ _ (-1)) in Hgb; [exact Hgb|].
    apply Rabs_lt_bpow23. rewrite Hu in *. lra. }
  pose proof (to_int32_round_value _ _ Hgb') as Hv''. fold v'' in Hv''.
  (* the real inequality *)
  assert (Hz0 : (F2R z <> 0)%R) by lra.
  pose proof (Rabs_mul_bound _ _ _ _ Hs HqR) as T2.
  set (t2 := ((IZR v' - (IZR v - F2R c) * F2R z) * / F2R z)%R) in *.
  assert (Hsum : (IZR v'' - IZR v
    = (IZR v'' - F2R b) + (F2R b - (F2R a + F2R c))
      + (F2R a - IZR v' / F2R z) + t2)%R).
  { unfold t2. field. exact Hz0. }
  apply Rabs_bounds in Hv'', Hb1, Ha1, T2. rewrite Hu in *.
  assert (Hlt : (-1 < IZR v'' - IZR v < 1)%R) by (rewrite Hsum; lra).
  rewrite <- minus_IZR in Hlt. destruct Hlt as [H1 H2].
  apply lt_IZR in H1, H2. split; [lia|exact Hv'Z].
Qed.

(** One size, mapped back and forward again. *)
Lemma revert_convert_size (mz : positive) (ez : Z) (v : Z) :
  let z := S754_finite false mz ez in
  normal_mantissa mz -> -24 <= ez <= -22 ->
  (9 / 8 <= F2R z <= 5 / 2)%R ->
  Z.abs v <= 16384 ->
  forward_size z (F32.to_int32 (F32.round (F32.mul (F32.of_int v) z))) = v.
Proof.
  intros z Hmz Hez Hz Hv.
  destruct (revert_convert_axis mz ez (S754_zero false) v Hmz Hez Hz I)
    as [H1 H2]; [simpl; rewrite Rabs_R0; lra | exact Hv |].
  fold z in H1, H2.
  destruct (of_int_good v ltac:(lia)) as [Hg _].
  rewrite (sub_zero_r (F32.of_int v)) in H1, H2;
    [|eapply good_weaken; [| |exact Hg]; lia
     |apply of_int_not_negative_zero; lia
     |eapply good_weaken; [| |exact Hg]; lia
     |apply of_int_not_negative_zero; lia].
  set (v' := F32.to_int32 (F32.round (F32.mul (F32.of_int v) z))) in *.
  destruct (div_of_int_not_negative_zero v' mz ez H2 Hmz Hez) as [Hgd Hnz].
  fold z in Hgd, Hnz. by rewrite (add_zero_r _ Hgd Hnz) in H1.
Qed.

(** A valid zoom ratio between 1.125 and 2.5. *)
Lemma zoom_in_cases (z : float) :
  F32.valid z = true ->
  F32.leb nine_eighths z = true -> F32.leb z two_and_half = true ->
  exists mz ez,
    z = S754_finite false mz ez /\ normal_mantissa mz /\ -24 <= ez <= -22
    /\ (9 / 8 <= F2R z <= 5 / 2)%R.
Proof.
  intros Hv Hlo Hhi.
  assert (Hhalf : F32.leb F32.half z = true).
  { revert Hlo. unfold F32.leb, SFleb, nine_eighths, F32.half.
    destruct z as [[]|[]| |[] m e]; try done. cbn [SFcompare].
    destruct (Z.compare_spec (-23) e), (Z.compare_spec (-24) e);
      try done; lia. }
  destruct (zoom_ratio_cases z Hv Hhalf Hhi)
    as (mz & ez & -> & Hmz & Hez & [_ Hup] & _).
  exists mz, ez. split; [done|]. split; [done|]. split; [done|].
  split; [|done].
  assert (H98 : F2R nine_eighths = (9 / 8)%R).
  { unfold F2R, nine_eighths. pose proof (bpow_opp 23) as H.
    rewrite (bpow_IZR 23) in H by lia. change (2 ^ 23) with 8388608 in H.
    change (- (23)) with (-23) in H. lra. }
  rewrite <- H98. apply leb_F2R; [|done|done].
  unfold normal_mantissa. lia.
Qed.

End RevertThenConvert.

(** X16: a region reported to the application and sent back by it is
    recovered exactly.  For a zoom ratio between 1.125 and 2.5, an active
    array of at most 16384 x 16384 and a region inside the active array, the
    backward transform followed by the forward transform returns the region
    itself: all four values, with no rounding deviation. *)
Theorem region_reverted_then_converted_is_recovered
    (zoom_ratio : float) (left top width height : Z) (dim : Dimension) :
  F32.valid zoom_ratio = true ->
  F32.leb nine_eighths zoom_ratio = true ->
  F32.leb zoom_ratio two_and_half = true ->
  Dimension.width dim <= 16384 -> Dimension.height dim <= 16384 ->
  inside_active_array left top width height dim ->
  let r := utils.RevertZoomRatio zoom_ratio left top width height dim in
  ConvertZoomRatio zoom_ratio (Region.left r) (Region.top r) (Region.width r)
    (Region.height r) dim
  = Region.mk left top width height.
Proof.
  intros Hvalid Hlo Hhi HW HH Hin r.
  destruct (zoom_in_cases zoom_ratio Hvalid Hlo Hhi)
    as (mz & ez & -> & Hmz & Hez & Hz).
  set (z := S754_finite false mz ez) in *.
  assert (Hz' : (/ 2 <= F2R z <= 5 / 2)%R) by lra.
  destruct Hin as (Hl & Ht & Hw & Hh & Hlw & Hth).
  assert (Haxis : forall v size : Z,
    0 <= v <= size -> size <= 16384 ->
    forward_position z
      (F32.to_int32 (F32.round (F32.mul
         (F32.sub (F32.of_int v) (utils.offset z size)) z))) size = v).
  { intros v size Hv Hsize.
    destruct (offset_value mz ez size Hmz Hez Hz' ltac:(lia)) as [Hgc Hc].
    fold z in Hgc, Hc.
    assert (Hinv : (0 <= 1 - / F2R z <= 3 / 5)%R).
    { assert (2 / 5 <= / F2R z <= 1)%R; [|lra]. split.
      - replace (2 / 5)%R with (/ (5 / 2))%R by field.
        apply Rinv_le_contravar; lra.
      - replace 1%R with (/ 1)%R by field. apply Rinv_le_contravar; lra. }
    destruct Hv as [Hv0 Hv1].
    assert (Hs0 := IZR_le _ _ (Z.le_trans _ _ _ Hv0 Hv1)).
    assert (Hs1 := IZR_le _ _ Hsize).
    apply Rabs_bounds in Hc.
    destruct (revert_convert_axis mz ez (utils.offset z size) v Hmz Hez Hz Hgc)
      as [HA _]; [apply Rabs_le; nra | lia |].
    exact HA. }
  subst r z. rewrite ConvertZoomRatio_formula.
  unfold ForwardFormula, utils.RevertZoomRatio.
  cbn [Region.left Region.top Region.width Region.height].
  rewrite !Haxis by lia.
  rewrite !revert_convert_size by (done || lia).
  destruct (F32.leb F32.one _); [|reflexivity].
  apply CorrectRegionBoundary_inside; [done|lia|lia].
Qed.

(** The region (1100, 800, 1200, 900) of a 4000x3000 array at ratio 2.0 is
    reported as (200, 100, 2400, 1800) and mapped back to itself. *)
Lemma region_reverted_then_converted_witness :
  ConvertZoomRatio two 200 100 2400 1800 sample_dimension
  = Region.mk 1100 800 1200 900
  /\ utils.RevertZoomRatio two 1100 800 1200 900 sample_dimension
     = Region.mk 200 100 2400 1800.
Proof.
  split; [|by vm_compute].
  apply (region_reverted_then_converted_is_recovered two 1100 800 1200 900
           sample_dimension).
  - reflexivity.
  - reflexivity.
  - reflexivity.
  - simpl; lia.
  - simpl; lia.
  - unfold inside_active_array. simpl. lia.
Defined.



(** X17: the zoom is centred on the centre of the active array.  For a zoom
    ratio between 0.5 and 2.5 and an active array of even width and height
    of at most 16384, the centre [(width/2, height/2)] is mapped to itself by
    the forward transform, by the backward transform of a region and by the
    backward transform of a point, exactly. *)
Theorem centre_of_the_active_array_is_fixed
    (zoom_ratio : float) (dim : Dimension) (cx cy : Z) :
  F32.valid zoom_ratio = true ->
  F32.leb F32.half zoom_ratio = true ->
  F32.leb zoom_ratio two_and_half = true ->
  0 <= cx <= 8192 -> 0 <= cy <= 8192 ->
  Dimension.width dim = 2 * cx -> Dimension.height dim = 2 * cy ->
  ConvertZoomRatio zoom_ratio cx cy 0 0 dim = Region.mk cx cy 0 0
  /\ utils.RevertZoomRatio zoom_ratio cx cy 0 0 dim = Region.mk cx cy 0 0
  /\ utils.RevertZoomRatioPoint zoom_ratio (Point.mk cx cy) dim
     = Point.mk cx cy.
Proof.
  intros Hvalid Hlo Hhi Hcx Hcy HW HH.
  destruct (zoom_ratio_cases zoom_ratio Hvalid Hlo Hhi)
    as (mz & ez & -> & Hmz & Hez & Hz & _).
  assert (Haxis : forall c : Z, 0 <= c <= 8192 ->
    forward_position (S754_finite false mz ez) c (2 * c) = c
    /\ F32.to_int32 (F32.round (F32.mul
         (F32.sub (F32.of_int c)
            (utils.offset (S754_finite false mz ez) (2 * c)))
         (S754_finite false mz ez))) = c).
  { intros c Hc.
    destruct (offset_value mz ez (2 * c) Hmz Hez Hz ltac:(lia)) as [Hgo Ho].
    cbv zeta in Hgo, Ho.
    assert (Hinv : (2 / 5 <= / F2R (S754_finite false mz ez) <= 2)%R).
    { split.
      - replace (2 / 5)%R with (/ (5 / 2))%R by field.
        apply Rinv_le_contravar; lra.
      - replace 2%R with (/ / 2)%R by field. apply Rinv_le_contravar; lra. }
    pose proof (IZR_le _ _ (proj1 Hc)) as Hc0.
    pose proof (IZR_le _ _ (proj2 Hc)) as Hc1.
    rewrite mult_IZR in Ho. apply Rabs_bounds in Ho.
    set (o := utils.offset (S754_finite false mz ez) (2 * c)) in *.
    set (z := F2R (S754_finite false mz ez)) in *.
    assert (Hz0 : (z <> 0)%R) by lra.
    set (t := (1 - / z)%R) in *.
    assert (Ht : (-1 <= t <= 3 / 5)%R) by (unfold t; lra).
    assert (Hct : (-8192 <= IZR c * t <= 8192)%R) by nra.
    replace (2 * IZR c / 2 * t)%R with (IZR c * t)%R in Ho by field.
    set (ct := (IZR c * t)%R) in *.
    assert (HoR : (Rabs (F2R o) <= 16384)%R) by (apply Rabs_le; lra).
    split.
    - destruct (round_trip_axis mz ez o c Hmz Hez Hz Hgo HoR ltac:(lia))
        as [_ HA].
      cbv zeta in HA. fold z in HA.
      change (F32.to_int32 _) with
        (forward_position (S754_finite false mz ez) c (2 * c)) in HA.
      set (v' := forward_position _ _ _) in *.
      apply Rabs_bounds in HA.
      assert (Hid : (IZR c / z + ct = IZR c)%R)
        by (unfold ct, t; field; exact Hz0).
      assert (Hlt : (-1 < IZR v' - IZR c < 1)%R) by lra.
      rewrite <- minus_IZR in Hlt. destruct Hlt as [H1 H2].
      apply lt_IZR in H1, H2. lia.
    - destruct (backward_axis_value mz ez o c Hmz Hez Hz Hgo HoR ltac:(lia))
        as [HB _].
      cbv zeta in HB. fold z in HB.
      set (v' := F32.to_int32 _) in *.
      apply Rabs_bounds in HB.
      assert (Hid : ((IZR c - F2R o) * z = IZR c - (F2R o - ct) * z)%R)
        by (unfold ct, t; field; exact Hz0).
      assert (Hlt : (-1 < IZR v' - IZR c < 1)%R) by nra.
      rewrite <- minus_IZR in Hlt. destruct Hlt as [H1 H2].
      apply lt_IZR in H1, H2. lia. }
  destruct (Haxis cx Hcx) as [Fx Bx]. destruct (Haxis cy Hcy) as [Fy By].
  split; [|split].
  - rewrite ConvertZoomRatio_formula. unfold ForwardFormula.
    rewrite HW, HH, Fx, Fy.
    change (forward_size (S754_finite false mz ez) 0) with 0.
    destruct (F32.leb F32.one _); [|reflexivity].
    unfold utils.CorrectRegionBoundary.
    rewrite !Z.max_l, !int32_id, !Z.min_l
      by (change (2 ^ 31) with 2147483648; lia).
    reflexivity.
  - unfold utils.RevertZoomRatio. rewrite HW, HH, Bx, By. reflexivity.
  - unfold utils.RevertZoomRatioPoint. cbn [Point.x Point.y].
    rewrite HW, HH.
    rewrite !to_uint32_to_int32 by (rewrite ?Bx, ?By; lia).
    by rewrite Bx, By.
Qed.

(** The centre (2000, 1500) of a 4000x3000 array at ratio 2.0. *)
Lemma centre_of_the_active_array_witness :
  ConvertZoomRatio two 2000 1500 0 0 sample_dimension
  = Region.mk 2000 1500 0 0
  /\ utils.RevertZoomRatio two 2000 1500 0 0 sample_dimension
     = Region.mk 2000 1500 0 0
  /\ utils.RevertZoomRatioPoint two (Point.mk 2000 1500) sample_dimension
     = Point.mk 2000 1500.
Proof.
  apply (centre_of_the_active_array_is_fixed two sample_dimension 2000 1500).
  - reflexivity.
  - reflexivity.
  - reflexivity.
  - lia.
  - lia.
  - reflexivity.
  - reflexivity.
Defined.

(** ** Sizes on the way to the sensor *)

(** X18: on the way to the sensor a region keeps a width and a height of at
    least one pixel when it starts with two.  For a zoom ratio between 1.0
    and 2.5, an active array of at most 16384 x 16384 and a region inside
    the active array with [width >= 2] and [height >= 2], the forward
    transform returns [width >= 1] and [height >= 1], so that the re-encoded
    region has [right >= left] and [bottom >= top]. *)
Theorem forward_keeps_a_size_of_two_pixels
    (zoom_ratio : float) (left top width height : Z) (dim : Dimension) :
  F32.valid zoom_ratio = true ->
  F32.leb F32.one zoom_ratio = true ->
  F32.leb zoom_ratio two_and_half = true ->
  Dimension.width dim <= 16384 -> Dimension.height dim <= 16384 ->
  inside_active_array left top width height dim ->
  2 <= width -> 2 <= height ->
  let r := ConvertZoomRatio zoom_ratio left top width height dim in
  1 <= Region.width r /\ 1 <= Region.height r.
Proof.
  intros Hvalid Hlo Hhi HW HH Hin Hw Hh r.
  destruct (zoom_in_from_one_cases zoom_ratio Hvalid Hlo Hhi)
    as (mz & ez & -> & Hmz & Hez & Hz).
  assert (Hz' : (/ 2 <= F2R (S754_finite false mz ez) <= 5 / 2)%R) by lra.
  pose proof (forward_formula_inside mz ez left top width height dim
                Hmz Hez Hz HW HH Hin) as Hf.
  cbv zeta in Hf.
  assert (Hr : r = ForwardFormula (S754_finite false mz ez) left top width
                     height dim).
  { subst r. rewrite ConvertZoomRatio_formula, Hlo.
    apply (CorrectRegionBoundary_inside _ _ _ _ dim Hf); lia. }
  rewrite Hr. unfold ForwardFormula. cbn [Region.width Region.height].
  destruct Hin as (Hl & Ht & _ & _ & Hlw & Hth).
  assert (Hsize : forall v, 2 <= v <= 16384 ->
            1 <= forward_size (S754_finite false mz ez) v).
  { intros v Hv.
    destruct (round_trip_size mz ez v Hmz Hez Hz' ltac:(lia)) as (_ & H & _).
    cbv zeta in H.
    set (v' := forward_size (S754_finite false mz ez) v) in *.
    set (z := F2R (S754_finite false mz ez)) in *.
    apply Rabs_bounds in H.
    pose proof (IZR_le _ _ (proj1 Hv)) as Hv0.
    assert (Hq : (4 / 5 <= IZR v / z)%R).
    { unfold Rdiv. assert (2 / 5 <= / z)%R; [|nra].
      replace (2 / 5)%R with (/ (5 / 2))%R by field.
      apply Rinv_le_contravar; lra. }
    assert (Hlt : (IZR 0 < IZR v')%R) by lra.
    apply lt_IZR in Hlt. lia. }
  split; apply Hsize; lia.
Qed.

(** A 2x2 region at ratio 2.5. *)
Lemma forward_keeps_a_size_witness :
  1 <= Region.width (ConvertZoomRatio two_and_half 0 0 2 2 sample_dimension)
  /\ 1 <= Region.height
            (ConvertZoomRatio two_and_half 0 0 2 2 sample_dimension).
Proof.
  apply (forward_keeps_a_size_of_two_pixels two_and_half 0 0 2 2
           sample_dimension).
  - reflexivity.
  - reflexivity.
  - reflexivity.
  - simpl; lia.
  - simpl; lia.
  - unfold inside_active_array. simpl. lia.
  - lia.
  - lia.
Defined.

(** ** From the application to the sensor and back *)

Section ThereAndBack.

(** A region inside the active array, mapped forward and back: each value is
    within 1 of the original, and the values in between are moderate. *)
Lemma convert_revert_values (mz : positive) (ez : Z)
    (left top width height : Z) (dim : Dimension) :
  let z := S754_finite false mz ez in
  normal_mantissa mz -> -24 <= ez <= -22 ->
  (/ 2 <= F2R z <= 5 / 2)%R ->
  Dimension.width dim <= 16384 -> Dimension.height dim <= 16384 ->
  inside_active_array left top width height dim ->
  let r := ConvertZoomRatio z left top width height dim in
  let b :=
    utils.RevertZoomRatio z (Region.left r) (Region.top r) (Region.width r)
      (Region.height r) dim in
  (Z.abs (Region.left b - left) <= 1 /\ Z.abs (Region.top b - top) <= 1
   /\ Z.abs (Region.width b - width) <= 1
   /\ Z.abs (Region.height b - height) <= 1)
  /\ (Z.abs (Region.left r) <= 65536 /\ Z.abs (Region.top r) <= 65536
      /\ Z.abs (Region.width r) <= 65536 /\ Z.abs (Region.height r) <= 65536).
Proof.
  intros z Hmz Hez Hz HW HH Hin r b.
  assert (Hr : r = ForwardFormula z left top width height dim).
  { unfold r. rewrite ConvertZoomRatio_formula.
    destruct (F32.leb F32.one z) eqn:Hone; [|reflexivity].
    assert (Hge : (1 <= F2R z)%R).
    { rewrite <- F2R_one. apply leb_F2R; [unfold normal_mantissa; lia|done|].
      exact Hone. }
    apply (CorrectRegionBoundary_inside _ _ _ _ dim);
      [|change (2 ^ 31) with 2147483648; lia
       |change (2 ^ 31) with 2147483648; lia].
    apply (forward_formula_inside mz ez left top width height dim Hmz Hez);
      [unfold z in *; destruct Hz; split; lra | exact HW | exact HH
      | exact Hin]. }
  destruct Hin as (Hl & Ht & Hw & Hh & Hlw & Hth).
  assert (Hinv : (2 / 5 <= / F2R z <= 2)%R).
  { split.
    - replace (2 / 5)%R with (/ (5 / 2))%R by field.
      apply Rinv_le_contravar; lra.
    - replace 2%R with (/ / 2)%R by field.
      apply Rinv_le_contravar; lra. }
  assert (Haxis : forall v size : Z, 0 <= v <= size -> size <= 16384 ->
    let v' := forward_position z v size in
    Z.abs (F32.to_int32 (F32.round (F32.mul
             (F32.sub (F32.of_int v') (utils.offset z size)) z)) - v) <= 1
    /\ Z.abs v' <= 65536).
  { intros v size Hv Hsize v'.
    destruct (offset_value mz ez size Hmz Hez Hz ltac:(lia)) as [Hg Hc].
    fold z in Hg, Hc.
    pose proof (IZR_le _ _ (proj1 Hv)) as Hv0.
    pose proof (IZR_le _ _ (proj2 Hv)) as Hv1.
    pose proof (IZR_le _ _ Hsize) as Hs1.
    apply Rabs_bounds in Hc.
    set (t := (1 - / F2R z)%R) in *.
    assert (Ht' : (-1 <= t <= 3 / 5)%R) by (unfold t; lra).
    assert (Hst : (-8192 <= IZR size / 2 * t <= 8192)%R) by nra.
    assert (HcR : (Rabs (F2R (utils.offset z size)) <= 16384)%R)
      by (apply Rabs_le; lra).
    destruct (round_trip_axis mz ez (utils.offset z size) v Hmz Hez Hz Hg HcR)
      as [H1 H2]; [lia|].
    fold z in H1, H2. split; [exact H1|].
    change (F32.to_int32 _) with v' in H2.
    apply Rabs_bounds in H2.
    assert (Hvz : (0 <= IZR v / F2R z <= 32768)%R) by (unfold Rdiv; nra).
    assert (Hlt : (IZR (-65536) <= IZR v' <= IZR 65536)%R) by lra.
    destruct Hlt as [A B]. apply le_IZR in A, B. lia. }
  assert (Hsize : forall v : Z, 0 <= v <= 16384 ->
    let v' := forward_size z v in
    Z.abs (F32.to_int32 (F32.round (F32.mul (F32.of_int v') z)) - v) <= 1
    /\ Z.abs v' <= 65536).
  { intros v Hv v'.
    destruct (round_trip_size mz ez v Hmz Hez Hz ltac:(lia)) as (H1 & H2 & _).
    fold z in H1, H2. split; [exact H1|].
    fold v' in H2. apply Rabs_bounds in H2.
    pose proof (IZR_le _ _ (proj1 Hv)) as Hv0.
    pose proof (IZR_le _ _ (proj2 Hv)) as Hv1.
    assert (Hvz : (0 <= IZR v / F2R z <= 32768)%R) by (unfold Rdiv; nra).
    assert (Hlt : (IZR (-65536) <= IZR v' <= IZR 65536)%R) by lra.
    destruct Hlt as [A B]. apply le_IZR in A, B. lia. }
  destruct (Haxis left (Dimension.width dim)) as [L1 L2]; [lia|lia|].
  destruct (Haxis top (Dimension.height dim)) as [T1 T2]; [lia|lia|].
  destruct (Hsize width) as [W1 W2]; [lia|].
  destruct (Hsize height) as [H1 H2]; [lia|].
  unfold b. rewrite Hr. unfold utils.RevertZoomRatio, ForwardFormula.
  cbn [Region.left Region.top Region.width Region.height].
  done.
Qed.

End ThereAndBack.

(** X19: a 3A region sent in a request and echoed in the result comes back
    within two pixels.  For a zoom ratio between 0.5 and 2.5, an active array
    of at most 16384 x 16384 and a region inside it, [Update3ARegion] on the
    request path followed by [Update3ARegion] on the result path returns
    [left] and [top] within 1 pixel of the original, [right] and [bottom]
    within 2 pixels (the deviations of the position and of the size add up),
    and the weight unchanged. *)
Theorem region_3a_round_trip_within_two_pixels
    (zoom_ratio : float) (dim : Dimension) (region : WeightedRect) :
  F32.valid zoom_ratio = true ->
  F32.leb F32.half zoom_ratio = true ->
  F32.leb zoom_ratio two_and_half = true ->
  Dimension.width dim <= 16384 -> Dimension.height dim <= 16384 ->
  0 <= WeightedRect.left region <= WeightedRect.right region + 1 ->
  WeightedRect.right region < Dimension.width dim ->
  0 <= WeightedRect.top region <= WeightedRect.bottom region + 1 ->
  WeightedRect.bottom region < Dimension.height dim ->
  let back :=
    update_3a_region zoom_ratio dim false
      (update_3a_region zoom_ratio dim true region) in
  Z.abs (WeightedRect.left back - WeightedRect.left region) <= 1
  /\ Z.abs (WeightedRect.top back - WeightedRect.top region) <= 1
  /\ Z.abs (WeightedRect.right back - WeightedRect.right region) <= 2
  /\ Z.abs (WeightedRect.bottom back - WeightedRect.bottom region) <= 2
  /\ WeightedRect.weight back = WeightedRect.weight region.
Proof.
  intros Hvalid Hlo Hhi HW HH Hl Hr Ht Hb back.
  destruct (zoom_ratio_cases zoom_ratio Hvalid Hlo Hhi)
    as (mz & ez & -> & Hmz & Hez & Hz & _).
  destruct region as [l t r b w].
  cbn [WeightedRect.left WeightedRect.top WeightedRect.right
       WeightedRect.bottom WeightedRect.weight] in *.
  destruct (convert_revert_values mz ez l t (r - l + 1) (b - t + 1) dim
              Hmz Hez Hz HW HH) as [Hclose Hmid].
  { unfold inside_active_array. lia. }
  cbv zeta in Hclose, Hmid. subst back. unfold update_3a_region.
  cbn [WeightedRect.left WeightedRect.top WeightedRect.right
       WeightedRect.bottom WeightedRect.weight].
  rewrite !(int32_id (r - l)), !(int32_id (b - t)),
    !(int32_id (r - l + 1)), !(int32_id (b - t + 1))
    by (change (2 ^ 31) with 2147483648; lia).
  set (f := ConvertZoomRatio (S754_finite false mz ez) l t (r - l + 1)
              (b - t + 1) dim) in *.
  destruct Hmid as (M1 & M2 & M3 & M4).
  rewrite !(int32_id (Region.left f + Region.width f)),
    !(int32_id (Region.top f + Region.height f))
    by (change (2 ^ 31) with 2147483648; lia).
  rewrite !(int32_id (Region.left f + Region.width f - 1)),
    !(int32_id (Region.top f + Region.height f - 1))
    by (change (2 ^ 31) with 2147483648; lia).
  replace (Region.left f + Region.width f - 1 - Region.left f)
    with (Region.width f - 1) by lia.
  replace (Region.top f + Region.height f - 1 - Region.top f)
    with (Region.height f - 1) by lia.
  rewrite !(int32_id (Region.width f - 1)), !(int32_id (Region.height f - 1))
    by (change (2 ^ 31) with 2147483648; lia).
  replace (Region.width f - 1 + 1) with (Region.width f) by lia.
  replace (Region.height f - 1 + 1) with (Region.height f) by lia.
  rewrite !(int32_id (Region.width f)), !(int32_id (Region.height f))
    by (change (2 ^ 31) with 2147483648; lia).
  set (g := utils.RevertZoomRatio (S754_finite false mz ez) (Region.left f)
              (Region.top f) (Region.width f) (Region.height f) dim) in *.
  destruct Hclose as (C1 & C2 & C3 & C4).
  rewrite !(int32_id (Region.left g + Region.width g)),
    !(int32_id (Region.top g + Region.height g))
    by (change (2 ^ 31) with 2147483648; lia).
  rewrite !int32_id by (change (2 ^ 31) with 2147483648; lia).
  repeat split; lia.
Qed.

(** The one-pixel region (1, 1, 1, 1) at ratio 2.0 comes back as
    (2, 2, 3, 3): right and bottom are off by 2. *)
Lemma region_3a_round_trip_witness :
  let back :=
    update_3a_region two sample_dimension false
      (update_3a_region two sample_dimension true
         (WeightedRect.mk 1 1 1 1 5)) in
  Z.abs (WeightedRect.left back - 1) <= 1
  /\ Z.abs (WeightedRect.top back - 1) <= 1
  /\ Z.abs (WeightedRect.right back - 1) <= 2
  /\ Z.abs (WeightedRect.bottom back - 1) <= 2
  /\ WeightedRect.weight back = 5.
Proof.
  apply (region_3a_round_trip_within_two_pixels two sample_dimension
           (WeightedRect.mk 1 1 1 1 5)).
  - reflexivity.
  - reflexivity.
  - reflexivity.
  - simpl; lia.
  - simpl; lia.
  - simpl; lia.
  - simpl; lia.
  - simpl; lia.
  - simpl; lia.
Defined.
